(** * iot_feeder: feeding dispense controller, water refill state machine
      and non-blocking wait

    A shallow embedding of the control code of the feeder firmware
    (src/helpers/feeding_helpers.h, src/helpers/water_helpers.h,
    src/helpers/scale_helpers.h, src/helpers/lcd_helpers.h and
    nonBlockingWait from src/main.cpp), followed by the properties the
    design document states about it.

    Conventions.
    - [float] values are IEEE-754 binary32 numbers, computed with the
      specification-level operations of [SpecFloat] (round to nearest even);
      [double] intermediates are binary64.
    - [uint32_t] values are integers reduced modulo 2^32 at every operation.
    - The hardware is a [World]: a millisecond clock that only [delay]
      advances, call-indexed oracles for every sensor, the relay output and
      a trace of output events, newest first.
    - Loops that wait on the clock take a fuel argument and return [None]
      when it runs out; termination is proved separately. *)

From Stdlib Require Import ZArith Bool List String Lia.
From Stdlib Require Import Floats.SpecFloat.
From Stdlib Require Import Sorting.Permutation Sorting.Sorted.
Import ListNotations.
Open Scope Z_scope.

(** ** Numbers *)

(** [float]: binary32. *)
Module F32.
Definition t := spec_float.
Definition prec : Z := 24.
Definition emax : Z := 128.
Definition zero : t := S754_zero false.
Definition of_Z (n : Z) : t := binary_normalize prec emax n 0 false.
Definition add : t -> t -> t := SFadd prec emax.
Definition sub : t -> t -> t := SFsub prec emax.
Definition mul : t -> t -> t := SFmul prec emax.
Definition div : t -> t -> t := SFdiv prec emax.
(** A decimal literal [n/d] with the suffix f: the float nearest to the
    quotient. *)
Definition lit (n d : Z) : t := div (of_Z n) (of_Z d).
Definition ltb : t -> t -> bool := SFltb.
Definition leb : t -> t -> bool := SFleb.
Definition eqb : t -> t -> bool := SFeqb.
Definition gtb (x y : t) : bool := SFltb y x.
Definition geb (x y : t) : bool := SFleb y x.
Definition neb (x y : t) : bool := negb (SFeqb x y).
End F32.

(** [double]: binary64, and the two conversions. *)
Module F64.
Definition t := spec_float.
Definition prec : Z := 53.
Definition emax : Z := 1024.
Definition of_Z (n : Z) : t := binary_normalize prec emax n 0 false.
Definition sub : t -> t -> t := SFsub prec emax.
Definition mul : t -> t -> t := SFmul prec emax.
Definition div : t -> t -> t := SFdiv prec emax.
Definition of_f32 (x : F32.t) : t :=
  match x with
  | S754_finite s m e => binary_round prec emax s m e
  | _ => x
  end.
Definition to_f32 (x : t) : F32.t :=
  match x with
  | S754_finite s m e => binary_round F32.prec F32.emax s m e
  | _ => x
  end.
End F64.

(** [uint32_t] wrap-around. *)
Definition u32 (x : Z) : Z := x mod 2 ^ 32.

(** The [int] a 32-bit pattern stands for. *)
Definition to_int (x : Z) : Z :=
  let y := u32 x in if y <? 2 ^ 31 then y else y - 2 ^ 32.

(** [(int)x] for a float: the value truncated towards zero.  C leaves the
    conversion undefined for NaN and for values outside the range of int;
    here they give 0 and the nearest bound. *)
Definition float_to_int (x : F32.t) : Z :=
  let clamp z := Z.max (- 2 ^ 31) (Z.min (2 ^ 31 - 1) z) in
  match x with
  | S754_zero _ => 0
  | S754_nan => 0
  | S754_infinity s => if s then - 2 ^ 31 else 2 ^ 31 - 1
  | S754_finite s m e =>
      let magnitude :=
        if 0 <=? e then Z.pos m * 2 ^ e else Z.pos m / 2 ^ (- e) in
      clamp (if s then - magnitude else magnitude)
  end.

(** ** config.h *)

Definition LCD_TIMEOUT : Z := 3000.
Definition INFO_DISPLAY_TIME : Z := 3000.
Definition QUICK_DISPLAY_TIME : Z := 2000.
Definition LCD_UPDATE_INTERVAL : Z := 500.
Definition PING_SAMPLES : nat := 5.
Definition WATER_CRITICAL_HEIGHT : F64.t := F64.of_Z 2.
Definition DISTANCE_WATER_EMPTY : F64.t := F64.of_Z 19.
Definition DISTANCE_WATER_FULL : F64.t := F64.of_Z 16.
Definition REFILL_DURATION : Z := 10000.
Definition COOLDOWN_PERIOD : Z := 300000.
Definition SERVO_OPEN_ANGLE : Z := 60.
Definition SERVO_CLOSE_ANGLE : Z := 180.
Definition FEED_THRESHOLD : F32.t := F32.of_Z 50.
Definition FEED_WEIGHT : F32.t := F32.of_Z 65.
Definition FEED_TOTAL_WEIGHT : F32.t := F32.of_Z 200.
Definition FEED_TIMEOUT : Z := 30000.
Definition FEED_RETRY_TIMEOUT : Z := 2.
Definition FEED_CALIBRATION_FACTOR : F32.t := F32.lit 9 10.
Definition FEED_COMPLETE_FACTOR : F32.t := F32.lit 95 100.
Definition WEIGHT_STABILITY_THRESHOLD : F32.t := F32.lit 3 10.
Definition WEIGHT_READ_INTERVAL : Z := 100.
Definition SCALE_TIMEOUT : Z := 3000.
Definition SETTLE_FINAL_TIME : Z := 2000.
Definition BUTTON_DEBOUNCE_TIME : Z := 50.
Definition BUTTON_RELEASE_TIME : Z := 10.

(** ** The hardware *)

(** Output events.  Cursor moves and screen clears are not recorded; a
    formatted line is recorded as its format string and its argument. *)
Inductive Arg : Type :=
| ArgFloat (x : F32.t)
| ArgInt (n : Z)
| ArgTrunc (x : F32.t).          (* (int)x *)

Inductive Text : Type :=
| Lit (s : string)
| Fmt (format : string) (args : list Arg).

Inductive Event : Type :=
| ServoWrite (angle : Z)
| RelayWrite (level : bool)
| LcdPrint (text : Text)
| LcdBar (percentage : F32.t)
| NetWaterStatus (status : string) (level : F32.t)
| NetWaterLevel (height : F32.t)
| NetLogEvent (eventType details : string)
| NetLogEntry (event details : string)
| NetFeedingComplete (isScheduled : bool) (details : Text)
    (foodLevel waterLevel : F32.t).

Record World : Type := mkWorld {
  clock : Z;                     (* milliseconds since boot, unbounded *)
  scale_ready : nat -> bool;     (* answer of the k-th scale.is_ready() *)
  ready_calls : nat;
  scale_units : nat -> F32.t;    (* answer of the k-th scale.get_units(n) *)
  units_calls : nat;
  sonar_echo : nat -> Z;         (* answer of the k-th sonar.ping(), in us *)
  ping_calls : nat;
  sonar_cm : Z -> Z;             (* sonar.convert_cm *)
  button_low : nat -> bool;      (* k-th digitalRead(MANUAL_FEED_BUTTON_PIN) == LOW *)
  button_calls : nat;
  wifi_up : nat -> bool;         (* k-th WiFi.status() == WL_CONNECTED *)
  wifi_calls : nat;
  webConnected : bool;
  relay : bool;                  (* level of WATER_PUMP_RELAY_PIN *)
  trace : list Event             (* newest first *)
}.

Definition millis (w : World) : Z := u32 (clock w).

Definition delay (ms : Z) (w : World) : World :=
  mkWorld (clock w + ms) (scale_ready w) (ready_calls w) (scale_units w)
    (units_calls w) (sonar_echo w) (ping_calls w) (sonar_cm w) (button_low w)
    (button_calls w) (wifi_up w) (wifi_calls w) (webConnected w) (relay w)
    (trace w).

Definition emit (e : Event) (w : World) : World :=
  mkWorld (clock w) (scale_ready w) (ready_calls w) (scale_units w)
    (units_calls w) (sonar_echo w) (ping_calls w) (sonar_cm w) (button_low w)
    (button_calls w) (wifi_up w) (wifi_calls w) (webConnected w) (relay w)
    (e :: trace w).

(** scale.is_ready() *)
Definition is_ready (w : World) : bool * World :=
  (scale_ready w (ready_calls w),
   mkWorld (clock w) (scale_ready w) (S (ready_calls w)) (scale_units w)
     (units_calls w) (sonar_echo w) (ping_calls w) (sonar_cm w) (button_low w)
     (button_calls w) (wifi_up w) (wifi_calls w) (webConnected w) (relay w)
     (trace w)).

(** scale.get_units(times) *)
Definition get_units (times : Z) (w : World) : F32.t * World :=
  (scale_units w (units_calls w),
   mkWorld (clock w) (scale_ready w) (ready_calls w) (scale_units w)
     (S (units_calls w)) (sonar_echo w) (ping_calls w) (sonar_cm w)
     (button_low w) (button_calls w) (wifi_up w) (wifi_calls w)
     (webConnected w) (relay w) (trace w)).

(** sonar.ping(): the echo time, an unsigned 32-bit number. *)
Definition ping (w : World) : Z * World :=
  (u32 (sonar_echo w (ping_calls w)),
   mkWorld (clock w) (scale_ready w) (ready_calls w) (scale_units w)
     (units_calls w) (sonar_echo w) (S (ping_calls w)) (sonar_cm w)
     (button_low w) (button_calls w) (wifi_up w) (wifi_calls w)
     (webConnected w) (relay w) (trace w)).

(** digitalRead(MANUAL_FEED_BUTTON_PIN) == LOW *)
Definition button_is_low (w : World) : bool * World :=
  (button_low w (button_calls w),
   mkWorld (clock w) (scale_ready w) (ready_calls w) (scale_units w)
     (units_calls w) (sonar_echo w) (ping_calls w) (sonar_cm w) (button_low w)
     (S (button_calls w)) (wifi_up w) (wifi_calls w) (webConnected w)
     (relay w) (trace w)).

(** WiFi.status() == WL_CONNECTED *)
Definition wifi_connected (w : World) : bool * World :=
  (wifi_up w (wifi_calls w),
   mkWorld (clock w) (scale_ready w) (ready_calls w) (scale_units w)
     (units_calls w) (sonar_echo w) (ping_calls w) (sonar_cm w) (button_low w)
     (button_calls w) (wifi_up w) (S (wifi_calls w)) (webConnected w)
     (relay w) (trace w)).

(** digitalWrite(WATER_PUMP_RELAY_PIN, level) *)
Definition relay_write (level : bool) (w : World) : World :=
  mkWorld (clock w) (scale_ready w) (ready_calls w) (scale_units w)
    (units_calls w) (sonar_echo w) (ping_calls w) (sonar_cm w) (button_low w)
    (button_calls w) (wifi_up w) (wifi_calls w) (webConnected w) level
    (RelayWrite level :: trace w).

(** hatchServo.write(angle) *)
Definition servo_write (angle : Z) (w : World) : World :=
  emit (ServoWrite angle) w.

(** web_helpers.h: isWebConnected *)
Definition isWebConnected (w : World) : bool * World :=
  if webConnected w then wifi_connected w else (false, w).

(** web_helpers.h: updateWaterStatus *)
Definition updateWaterStatus (status : string) (level : F32.t) (w : World)
  : World :=
  if webConnected w then emit (NetWaterStatus status level) w else w.

(** web_helpers.h: sendLogEvent *)
Definition sendLogEvent (eventType details : string) (w : World) : World :=
  if webConnected w then emit (NetLogEvent eventType details) w else w.

(** web_helpers.h: sendFeedingComplete *)
Definition sendFeedingComplete (isScheduled : bool) (details : Text)
    (foodLevel waterLevel : F32.t) (w : World) : World :=
  if webConnected w
  then emit (NetFeedingComplete isScheduled details foodLevel waterLevel) w
  else w.

(** ** main.cpp: nonBlockingWait *)

(** The waiting loop: [while (millis() - startWait < actualWaitTime)
    { yield(); delay(10); }]. *)
Fixpoint wait_loop (fuel : nat) (startWait actualWaitTime : Z) (w : World)
  : option World :=
  match fuel with
  | O => None
  | S fuel' =>
      if u32 (millis w - startWait) <? actualWaitTime
      then wait_loop fuel' startWait actualWaitTime (delay 10 w)
      else Some w
  end.

Definition nonBlockingWait (fuel : nat) (waitTime startDisplayTime : Z)
    (w : World) : option World :=
  let startWait := millis w in
  if (0 <? LCD_TIMEOUT) && (0 <? startDisplayTime) then
    let elapsedDisplayTime := u32 (millis w - startDisplayTime) in
    if LCD_TIMEOUT <=? elapsedDisplayTime then Some w
    else
      let remainingDisplayTime := u32 (LCD_TIMEOUT - elapsedDisplayTime) in
      wait_loop fuel startWait (Z.max waitTime remainingDisplayTime) w
  else wait_loop fuel startWait waitTime w.

(** ** lcd_helpers.h *)

Definition lcd_print (t : Text) (w : World) : World := emit (LcdPrint t) w.

(** lcdMessage with clearScreen = true and both lines present. *)
Definition lcdMessage (fuel : nat) (line1 line2 : Text) (waitTime : Z)
    (w : World) : option World :=
  let w := lcd_print line1 w in
  let w := lcd_print line2 w in
  if 0 <? waitTime then nonBlockingWait fuel waitTime 0 w else Some w.

(** progressBar: the bar is recorded by the percentage it draws. *)
Definition progressBar (percentage : F32.t) (w : World) : World :=
  emit (LcdBar percentage) w.

(** ** scale_helpers.h: getStableWeight *)

(** First loop: one entry of [weights] per reading, 0 for a failed read. *)
Fixpoint take_readings (n : nat) (samplesPerReading : Z) (w : World)
  : list F32.t * World :=
  match n with
  | O => ([], w)
  | S n' =>
      let (ready, w1) := is_ready w in
      let (x, w2) :=
        if ready then get_units samplesPerReading w1 else (F32.zero, w1) in
      let (xs, w3) := take_readings n' samplesPerReading (delay 50 w2) in
      (x :: xs, w3)
  end.

Record WeightStats : Type := mkStats {
  minWeight : F32.t;
  maxWeight : F32.t;
  totalWeight : F32.t;
  validReadings : Z
}.

Definition stats_init : WeightStats :=
  mkStats (F32.of_Z 9999) (F32.of_Z (-9999)) F32.zero 0.

(** Body of the second loop. *)
Definition stats_step (st : WeightStats) (x : F32.t) : WeightStats :=
  if F32.neb x F32.zero then
    mkStats (if F32.ltb x (minWeight st) then x else minWeight st)
            (if F32.gtb x (maxWeight st) then x else maxWeight st)
            (F32.add (totalWeight st) x)
            (validReadings st + 1)
  else st.

Definition weight_stats (weights : list F32.t) : WeightStats :=
  fold_left stats_step weights stats_init.

Definition getStableWeight (numReadings samplesPerReading : Z)
    (stabilityThreshold : F32.t) (w : World) : F32.t * World :=
  let numReadings := if 10 <? numReadings then 10 else numReadings in
  let (weights, w') :=
    take_readings (Z.to_nat numReadings) samplesPerReading w in
  let st := weight_stats weights in
  if validReadings st =? 0 then (F32.zero, w')
  else (F32.div (totalWeight st) (F32.of_Z (validReadings st)), w').

(** ** water_helpers.h *)

(** getDistance: the loop over PING_SAMPLES pings. *)
Fixpoint ping_loop (n : nat) (totalDistance validReadings : Z) (w : World)
  : Z * Z * World :=
  match n with
  | O => (totalDistance, validReadings, w)
  | S n' =>
      let (uS, w1) := ping w in
      let (total', valid') :=
        if 0 <? uS
        then (u32 (totalDistance + u32 (sonar_cm w uS)), validReadings + 1)
        else (totalDistance, validReadings) in
      ping_loop n' total' valid' (delay 10 w1)
  end.

Definition getDistance (w : World) : F32.t * World :=
  let '(totalDistance, validReadings, w') := ping_loop PING_SAMPLES 0 0 w in
  if validReadings =? 0 then (F32.zero, w')
  else (F32.of_Z (totalDistance / validReadings), w').

(** checkWaterLevel *)
Module Water.

Inductive WaterState : Type := CHECK_WATER | REFILL_RUNNING | COOLDOWN.

(** The static variables of checkWaterLevel. *)
Record WaterStatics : Type := mkStatics {
  state : WaterState;
  stateStartTime : Z;
  lastDisplayUpdate : Z
}.

Definition water_init : WaterStatics := mkStatics CHECK_WATER 0 0.

(** The header uses DISPLAY_UPDATE_INTERVAL without defining it; the value
    is the one main.cpp's checkWaterLevel declares. *)
Definition DISPLAY_UPDATE_INTERVAL : Z := 1000.

(** Arduino's constrain macro, on doubles and on floats. *)
Definition constrain64 (amt low high : F64.t) : F64.t :=
  if SFltb amt low then low else if SFltb high amt then high else amt.

Definition constrain32 (amt low high : F32.t) : F32.t :=
  if F32.ltb amt low then low else if F32.gtb amt high then high else amt.

(** [float waterHeight = DISTANCE_WATER_EMPTY - distanceCm], constrained. *)
Definition water_height (distanceCm : F32.t) : F32.t :=
  let waterHeight :=
    F64.to_f32 (F64.sub DISTANCE_WATER_EMPTY (F64.of_f32 distanceCm)) in
  F64.to_f32
    (constrain64 (F64.of_f32 waterHeight) (F64.of_Z 0)
       (F64.sub DISTANCE_WATER_EMPTY DISTANCE_WATER_FULL)).

Definition water_percentage (waterHeight : F32.t) : F32.t :=
  let p :=
    F64.to_f32
      (F64.mul
         (F64.div (F64.of_f32 waterHeight)
            (F64.sub DISTANCE_WATER_EMPTY DISTANCE_WATER_FULL))
         (F64.of_Z 100)) in
  constrain32 p (F32.of_Z 0) (F32.of_Z 100).

(** [waterHeight <= WATER_CRITICAL_HEIGHT] *)
Definition is_critical (waterHeight : F32.t) : bool :=
  SFleb (F64.of_f32 waterHeight) WATER_CRITICAL_HEIGHT.

(** [distanceCm <= 0 || distanceCm > 400] *)
Definition out_of_range (distanceCm : F32.t) : bool :=
  F32.leb distanceCm (F32.of_Z 0) || F32.gtb distanceCm (F32.of_Z 400).

(** [WiFi.status() == WL_CONNECTED && isWebConnected()] *)
Definition wifi_and_web (w : World) : bool * World :=
  let (up, w1) := wifi_connected w in
  if up then isWebConnected w1 else (false, w1).

(** [for (int i = 0; i < n; i++) lcd.print(F("."))] *)
Fixpoint print_dots (n : nat) (w : World) : World :=
  match n with
  | O => w
  | S n' => print_dots n' (lcd_print (Lit ".") w)
  end.

Definition check_water (fuel : nat) (currentMillis : Z) (s : WaterStatics)
    (w : World) : option (WaterStatics * World) :=
  let (distanceCm, w) := getDistance w in
  if out_of_range distanceCm then
    let w := lcd_print (Lit "Sensor Error") w in
    let w := lcd_print (Lit "Check ultrasonic") w in
    match nonBlockingWait fuel INFO_DISPLAY_TIME 0 w with
    | Some w => Some (s, w)
    | None => None
    end
  else
    let waterHeight := water_height distanceCm in
    let waterPercentage := water_percentage waterHeight in
    let (connected, w) := wifi_and_web w in
    let w :=
      if connected then
        updateWaterStatus (if is_critical waterHeight then "low" else "ok")
          waterPercentage w
      else w in
    let w := emit (NetWaterLevel waterHeight) w in
    let w := lcd_print (Lit "Water Level:") w in
    if is_critical waterHeight then
      let w :=
        lcd_print
          (Fmt "LOW! %.1fcm (%d%%)"
             [ArgFloat waterHeight; ArgTrunc waterPercentage]) w in
      let (connected, w) :=
        if is_critical waterHeight then wifi_and_web w else (false, w) in
      let w :=
        if connected then
          emit (NetLogEntry "water_low" "Water level critically low, refilling")
            (updateWaterStatus "refilling" waterPercentage w)
        else w in
      (* digitalWrite(WATER_PUMP_RELAY_PIN, HIGH) is commented out here *)
      let w := lcd_print (Lit "Water low!") w in
      let w := lcd_print (Lit "Refilling...") w in
      Some (mkStatics REFILL_RUNNING currentMillis currentMillis, w)
    else
      let w :=
        lcd_print
          (Fmt "OK %.1fcm (%d%%)"
             [ArgFloat waterHeight; ArgTrunc waterPercentage]) w in
      Some (s, progressBar waterPercentage w).

Definition refill_running (currentMillis : Z) (s : WaterStatics) (w : World)
  : WaterStatics * World :=
  let (s, w) :=
    if 200 <=? u32 (currentMillis - lastDisplayUpdate s) then
      let elapsedSecs := u32 (currentMillis - stateStartTime s) / 1000 in
      let w := lcd_print (Lit "   ") w in
      let w := print_dots (Z.to_nat (elapsedSecs mod 3 + 1)) w in
      let remainingSecs :=
        Z.max 0
          (to_int
             (u32 (REFILL_DURATION - u32 (currentMillis - stateStartTime s))
                / 1000 + 1)) in
      (mkStatics (state s) (stateStartTime s) currentMillis,
       lcd_print (Fmt "%d" [ArgInt remainingSecs]) w)
    else (s, w) in
  if REFILL_DURATION <=? u32 (currentMillis - stateStartTime s) then
    let w := relay_write false w in
    let (connected, w) := isWebConnected w in
    let w :=
      if connected then
        emit (NetLogEntry "water_refilled"
                "Water refill completed, entering cooldown")
          (updateWaterStatus "cooldown" (F32.of_Z 100) w)
      else w in
    let w := lcd_print (Lit "Refill complete") w in
    let w := lcd_print (Lit "Cooldown: 5 min") w in
    (mkStatics COOLDOWN currentMillis currentMillis, w)
  else (s, w).

Definition cooldown (currentMillis : Z) (s : WaterStatics) (w : World)
  : WaterStatics * World :=
  let (s, w) :=
    if DISPLAY_UPDATE_INTERVAL <=? u32 (currentMillis - lastDisplayUpdate s)
    then
      let elapsedMs := u32 (currentMillis - stateStartTime s) in
      let remainingSecs := u32 (COOLDOWN_PERIOD - elapsedMs) / 1000 in
      let w := lcd_print (Lit "     ") w in
      (mkStatics (state s) (stateStartTime s) currentMillis,
       if COOLDOWN_PERIOD <? elapsedMs then lcd_print (Lit "00:00") w
       else
         let w := lcd_print (Fmt "%d" [ArgInt (remainingSecs / 60)]) w in
         let w := lcd_print (Lit ":") w in
         let w :=
           if remainingSecs mod 60 <? 10 then lcd_print (Lit "0") w else w in
         lcd_print (Fmt "%d" [ArgInt (remainingSecs mod 60)]) w)
    else (s, w) in
  if COOLDOWN_PERIOD <=? u32 (currentMillis - stateStartTime s) then
    let (connected, w) := isWebConnected w in
    let w :=
      if connected then
        emit (NetLogEntry "water_ready" "Water system ready after cooldown")
          (updateWaterStatus "ready" (F32.of_Z 100) w)
      else w in
    (mkStatics CHECK_WATER (stateStartTime s) (lastDisplayUpdate s), w)
  else (s, w).

Definition checkWaterLevel (fuel : nat) (s : WaterStatics) (w : World)
  : option (WaterStatics * World) :=
  let currentMillis := millis w in
  match state s with
  | CHECK_WATER => check_water fuel currentMillis s w
  | REFILL_RUNNING => Some (refill_running currentMillis s w)
  | COOLDOWN => Some (cooldown currentMillis s w)
  end.

End Water.

(** ** feeding_helpers.h *)
Module Feeding.

(** checkScaleReady: [while (millis() - startCheck < timeout)]. *)
Fixpoint scale_ready_loop (fuel : nat) (startCheck timeout : Z) (w : World)
  : option (bool * World) :=
  match fuel with
  | O => None
  | S fuel' =>
      if u32 (millis w - startCheck) <? timeout then
        let (ready, w1) := is_ready w in
        if ready then Some (true, w1)
        else scale_ready_loop fuel' startCheck timeout (delay 50 w1)
      else Some (false, w)
  end.

Definition checkScaleReady (fuel : nat) (timeout : Z) (w : World)
  : option (bool * World) :=
  scale_ready_loop fuel (millis w) timeout w.

(** [float * 100.0], a double product stored in a float. *)
Definition times_100 (x : F32.t) : F32.t :=
  F64.to_f32 (F64.mul (F64.of_f32 x) (F64.of_Z 100)).

Definition updateFeedingDisplay (dispensedWeight targetWeight : F32.t)
    (w : World) : World :=
  let progressPercent := times_100 (F32.div dispensedWeight targetWeight) in
  let progressPercent :=
    Water.constrain32 progressPercent (F32.of_Z 0) (F32.of_Z 100) in
  let w := lcd_print (Fmt "Feeding: %d%%" [ArgTrunc progressPercent]) w in
  if F32.ltb progressPercent (F32.of_Z 80)
  then lcd_print (Fmt "Target: %.0fg" [ArgFloat targetWeight]) w
  else emit (LcdBar progressPercent) w.

(** measureSettledWeight: the loop, then the average. *)
Fixpoint settle_loop (n : nat) (i samplesPerReading : Z)
    (settledWeight : F32.t) (validReadings : Z) (w : World)
  : F32.t * Z * World :=
  match n with
  | O => (settledWeight, validReadings, w)
  | S n' =>
      let (ready, w1) := is_ready w in
      if ready then
        let (x, w2) := get_units samplesPerReading w1 in
        let w3 := lcd_print (Fmt "%d" [ArgInt (i + 1)]) w2 in
        settle_loop n' (i + 1) samplesPerReading (F32.add settledWeight x)
          (validReadings + 1) (delay 100 w3)
      else
        settle_loop n' (i + 1) samplesPerReading settledWeight validReadings w1
  end.

Definition measureSettledWeight (numReadings samplesPerReading : Z)
    (w : World) : F32.t * World :=
  let '(settledWeight, validReadings, w') :=
    settle_loop (Z.to_nat numReadings) 0 samplesPerReading F32.zero 0 w in
  if 0 <? validReadings
  then (F32.div settledWeight (F32.of_Z validReadings), w')
  else (F32.zero, w').

(** [x - initialWeight], with [if (d < 0) d = 0]. *)
Definition dispensed_since (initialWeight x : F32.t) : F32.t :=
  let d := F32.sub x initialWeight in
  if F32.ltb d (F32.of_Z 0) then F32.zero else d.

(** The local variables of dispenseFoodWithFeedback that the loop changes. *)
Record Locals : Type := mkLocals {
  weightReadings : list F32.t;
  readingIndex : Z;
  currentWeight : F32.t;
  lastDisplayUpdate : Z;
  lastWeightRead : Z;
  targetReached : bool;
  preCloseExecuted : bool;
  dispensedWeight : F32.t;
  retryCount : Z;
  stabilityCounter : Z
}.

Definition movingAvgSize : Z := 3.

Definition locals_init (initialWeight : F32.t) : Locals :=
  mkLocals [initialWeight; initialWeight; initialWeight] 0 initialWeight
    0 0 false false F32.zero 0 0.

(** [weightReadings[readingIndex] = x] *)
Fixpoint store (readings : list F32.t) (index : nat) (x : F32.t)
  : list F32.t :=
  match readings, index with
  | [], _ => []
  | _ :: rest, O => x :: rest
  | r :: rest, S k => r :: store rest k x
  end.

(** [sumWeight / movingAvgSize], summed from index 0 upwards. *)
Definition moving_average (readings : list F32.t) : F32.t :=
  F32.div (fold_left F32.add readings F32.zero) (F32.of_Z movingAvgSize).

(** The five re-polls after a failed scale.is_ready(). *)
Fixpoint recover (n : nat) (w : World) : bool * World :=
  match n with
  | O => (false, w)
  | S n' =>
      let (ready, w1) := is_ready (delay 100 w) in
      if ready then (true, w1) else recover n' w1
  end.

(** What one pass through the loop body does: go round again, or leave the
    function with a value. *)
Inductive Flow : Type :=
| Go (l : Locals) (w : World)
| Ret (v : F32.t) (l : Locals) (w : World).

(** The pre-close block, entered when
    [!preCloseExecuted && dispensedWeight >= targetAmount * FEED_CALIBRATION_FACTOR]. *)
Definition pre_close (fuel : nat) (initialWeight targetAmount : F32.t)
    (l : Locals) (w : World) : option (Locals * World) :=
  let w := servo_write SERVO_CLOSE_ANGLE w in
  let w := lcd_print (Lit "Almost there...") w in
  let w := lcd_print (Lit "Food settling") w in
  let w := delay SETTLE_FINAL_TIME w in
  let (settledWeight, w) := measureSettledWeight 5 2 w in
  let dispensed := dispensed_since initialWeight settledWeight in
  let l :=
    mkLocals [settledWeight; settledWeight; settledWeight] (readingIndex l)
      settledWeight (lastDisplayUpdate l) (lastWeightRead l) (targetReached l)
      true dispensed (retryCount l) (stabilityCounter l) in
  let complete := F32.mul targetAmount FEED_COMPLETE_FACTOR in
  if F32.ltb dispensed complete && (retryCount l <? FEED_RETRY_TIMEOUT) then
    let retry := retryCount l + 1 in
    let w := lcd_print (Lit "Need more food") w in
    let w := lcd_print (Fmt "Retry #%d" [ArgInt retry]) w in
    let w := servo_write SERVO_OPEN_ANGLE w in
    let w := delay 300 w in
    Some (mkLocals (weightReadings l) (readingIndex l) (currentWeight l)
            (lastDisplayUpdate l) (lastWeightRead l) (targetReached l)
            false (dispensedWeight l) retry (stabilityCounter l), w)
  else if F32.geb dispensed complete then
    let w := lcd_print (Lit "Target reached!") w in
    let w := lcd_print (Fmt "Dispensed: %.1fg" [ArgFloat dispensed]) w in
    match nonBlockingWait fuel QUICK_DISPLAY_TIME 0 w with
    | Some w =>
        Some (mkLocals (weightReadings l) (readingIndex l) (currentWeight l)
                (lastDisplayUpdate l) (lastWeightRead l) true
                (preCloseExecuted l) (dispensedWeight l) (retryCount l)
                (stabilityCounter l), w)
    | None => None
    end
  else if FEED_RETRY_TIMEOUT <=? retryCount l then
    let w := lcd_print (Lit "Warning: Only") w in
    let w := lcd_print (Fmt "%.1fg dispensed" [ArgFloat dispensed]) w in
    match nonBlockingWait fuel INFO_DISPLAY_TIME 0 w with
    | Some w =>
        Some (mkLocals (weightReadings l) (readingIndex l) (currentWeight l)
                (lastDisplayUpdate l) (lastWeightRead l) true
                (preCloseExecuted l) (dispensedWeight l) (retryCount l)
                (stabilityCounter l), w)
    | None => None
    end
  else Some (l, w).

(** The block under "Standard target check for when pre-close isn't
    active", entered when [!preCloseExecuted]. *)
Definition standard_check (fuel : nat) (targetAmount : F32.t) (l : Locals)
    (w : World) : option (Locals * World) :=
  let (l, w) :=
    if F32.geb (dispensedWeight l) targetAmount then
      let w := servo_write SERVO_CLOSE_ANGLE w in
      if stabilityCounter l <? 2 then
        (mkLocals (weightReadings l) (readingIndex l) (currentWeight l)
           (lastDisplayUpdate l) (lastWeightRead l) (targetReached l) true
           (dispensedWeight l) (retryCount l) (stabilityCounter l + 1), w)
      else
        (mkLocals (weightReadings l) (readingIndex l) (currentWeight l)
           (lastDisplayUpdate l) (lastWeightRead l) true true
           (dispensedWeight l) (retryCount l) (stabilityCounter l), w)
    else (l, w) in
  if F32.geb (dispensedWeight l) (F32.mul targetAmount (F32.lit 125 100)) then
    let w := servo_write SERVO_CLOSE_ANGLE w in
    let w := lcd_print (Lit "Warning!") w in
    let w := lcd_print (Lit "Excess food!") w in
    match nonBlockingWait fuel QUICK_DISPLAY_TIME 0 w with
    | Some w =>
        Some (mkLocals (weightReadings l) (readingIndex l) (currentWeight l)
                (lastDisplayUpdate l) (lastWeightRead l) true
                (preCloseExecuted l) (dispensedWeight l) (retryCount l)
                (stabilityCounter l), w)
    | None => None
    end
  else Some (l, w).

(** From "Update moving average" to the end of the weight-read block: one
    fast read, the moving average, then the pre-close block and the
    standard check when their conditions hold. *)
Definition update_and_check (fuel : nat) (initialWeight targetAmount : F32.t)
    (l : Locals) (w : World) : option (Locals * World) :=
  let (x, w) := get_units 1 w in
  let readings := store (weightReadings l) (Z.to_nat (readingIndex l)) x in
  let current := moving_average readings in
  let l :=
    mkLocals readings ((readingIndex l + 1) mod movingAvgSize) current
      (lastDisplayUpdate l) (lastWeightRead l) (targetReached l)
      (preCloseExecuted l) (dispensed_since initialWeight current)
      (retryCount l) (stabilityCounter l) in
  let after_pre_close :=
    if negb (preCloseExecuted l) &&
       F32.geb (dispensedWeight l)
         (F32.mul targetAmount FEED_CALIBRATION_FACTOR)
    then pre_close fuel initialWeight targetAmount l w
    else Some (l, w) in
  match after_pre_close with
  | Some (l, w) =>
      if negb (preCloseExecuted l)
      then standard_check fuel targetAmount l w
      else Some (l, w)
  | None => None
  end.

(** The body of [if (now - lastWeightRead >= WEIGHT_READ_INTERVAL)]. *)
Definition poll (fuel : nat) (initialWeight targetAmount : F32.t) (now : Z)
    (l : Locals) (w : World) : option Flow :=
  let l :=
    mkLocals (weightReadings l) (readingIndex l) (currentWeight l)
      (lastDisplayUpdate l) now (targetReached l) (preCloseExecuted l)
      (dispensedWeight l) (retryCount l) (stabilityCounter l) in
  let (ready, w) := is_ready w in
  let (working, w) := if ready then (true, w) else recover 5 w in
  if negb working then
    match lcdMessage fuel (Lit "Scale error!") (Lit "Closing hatch")
            LCD_TIMEOUT w with
    | Some w =>
        let w := servo_write SERVO_CLOSE_ANGLE w in
        match nonBlockingWait fuel LCD_TIMEOUT 0 w with
        | Some w => Some (Ret (dispensedWeight l) l w)
        | None => None
        end
    | None => None
    end
  else
    match update_and_check fuel initialWeight targetAmount l w with
    | Some (l, w) => Some (Go l w)
    | None => None
    end.

(** One pass through the body of the main feeding loop. *)
Definition feed_body (fuel : nat) (initialWeight targetAmount : F32.t)
    (l : Locals) (w : World) : option Flow :=
  let now := millis w in
  let polled :=
    if WEIGHT_READ_INTERVAL <=? u32 (now - lastWeightRead l)
    then poll fuel initialWeight targetAmount now l w
    else Some (Go l w) in
  match polled with
  | Some (Go l w) =>
      let (l, w) :=
        if LCD_UPDATE_INTERVAL <=? u32 (now - lastDisplayUpdate l) then
          (mkLocals (weightReadings l) (readingIndex l) (currentWeight l)
             now (lastWeightRead l) (targetReached l) (preCloseExecuted l)
             (dispensedWeight l) (retryCount l) (stabilityCounter l),
           updateFeedingDisplay (dispensedWeight l) targetAmount w)
        else (l, w) in
      Some (Go l (delay 10 w))
  | other => other
  end.

(** [while (!targetReached && (millis() - startTime < FEED_TIMEOUT))]:
    [Go] when the condition fails, [Ret] when the body returns. *)
Fixpoint feed_loop (rounds fuel : nat) (initialWeight targetAmount : F32.t)
    (startTime : Z) (l : Locals) (w : World) : option Flow :=
  match rounds with
  | O => None
  | S rounds' =>
      if negb (targetReached l) &&
         (u32 (millis w - startTime) <? FEED_TIMEOUT)
      then
        match feed_body fuel initialWeight targetAmount l w with
        | Some (Go l' w') =>
            feed_loop rounds' fuel initialWeight targetAmount startTime l' w'
        | other => other
        end
      else Some (Go l w)
  end.

(** dispenseFoodWithFeedback up to the end of the loop. *)
Definition dispense_loop (fuel : nat) (initialWeight targetAmount : F32.t)
    (w : World) : option Flow :=
  let startTime := millis w in
  let w := servo_write SERVO_OPEN_ANGLE w in
  let w := delay 500 w in
  feed_loop fuel fuel initialWeight targetAmount startTime
    (locals_init initialWeight) w.

Definition dispenseFoodWithFeedback (fuel : nat)
    (initialWeight targetAmount : F32.t) (w : World)
  : option (F32.t * World) :=
  match dispense_loop fuel initialWeight targetAmount w with
  | Some (Go l w) =>
      Some (dispensedWeight l, servo_write SERVO_CLOSE_ANGLE w)
  | Some (Ret v l w) => Some (v, w)
  | None => None
  end.

(** checkExistingFood: [while (digitalRead(MANUAL_FEED_BUTTON_PIN) == LOW)
    { delay(BUTTON_RELEASE_TIME); yield(); }] *)
Fixpoint release_loop (fuel : nat) (w : World) : option World :=
  match fuel with
  | O => None
  | S fuel' =>
      let (low, w1) := button_is_low w in
      if low then release_loop fuel' (delay BUTTON_RELEASE_TIME w1)
      else Some w1
  end.

Definition NOTIFY_TIMEOUT : Z := 20000.

(** The countdown shown once per second while waiting for the button. *)
Definition countdown (notifyStartTime : Z) (w : World) : World :=
  let elapsed := u32 (millis w - notifyStartTime) in
  if negb (elapsed / 1000 =? u32 (elapsed - 100) / 1000) then
    let secondsLeft := to_int (u32 (NOTIFY_TIMEOUT - elapsed) / 1000) in
    lcd_print (Fmt "%d" [ArgInt secondsLeft]) (lcd_print (Lit "  ") w)
  else w.

(** [while (millis() - notifyStartTime < NOTIFY_TIMEOUT)]: the result is
    buttonPressed. *)
Fixpoint notify_loop (rounds fuel : nat) (notifyStartTime : Z) (w : World)
  : option (bool * World) :=
  match rounds with
  | O => None
  | S rounds' =>
      if u32 (millis w - notifyStartTime) <? NOTIFY_TIMEOUT then
        let (low, w1) := button_is_low w in
        let pressed :=
          if low then
            let (still_low, w2) :=
              button_is_low (delay BUTTON_DEBOUNCE_TIME w1) in
            if still_low then
              match release_loop fuel w2 with
              | Some w3 => Some (true, w3)
              | None => None
              end
            else Some (false, w2)
          else Some (false, w1) in
        match pressed with
        | Some (true, w) => Some (true, w)
        | Some (false, w) =>
            notify_loop rounds' fuel notifyStartTime
              (delay 100 (countdown notifyStartTime w))
        | None => None
        end
      else Some (false, w)
  end.

Definition checkExistingFood (fuel : nat) (currentWeight threshold : F32.t)
    (w : World) : option (bool * World) :=
  if F32.geb currentWeight threshold then
    let w := lcd_print (Lit "Food detected!") w in
    let w := lcd_print (Fmt "Weight: %.1fg" [ArgFloat currentWeight]) w in
    match nonBlockingWait fuel INFO_DISPLAY_TIME 0 w with
    | None => None
    | Some w =>
        let w := lcd_print (Lit "Food already >10g") w in
        let w := lcd_print (Lit "Btn:feed / Wait:20s") w in
        match notify_loop fuel fuel (millis w) w with
        | None => None
        | Some (false, w) =>
            let w := lcd_print (Lit "Feeding canceled") w in
            let w := lcd_print (Lit "Bowl already has:") w in
            match nonBlockingWait fuel QUICK_DISPLAY_TIME 0 w with
            | None => None
            | Some w =>
                let w := lcd_print (Lit "Food weight:") w in
                let w :=
                  lcd_print (Fmt "%.1fg in bowl" [ArgFloat currentWeight]) w in
                match nonBlockingWait fuel INFO_DISPLAY_TIME 0 w with
                | None => None
                | Some w => Some (false, w)
                end
            end
        | Some (true, w) =>
            let w := lcd_print (Lit "Continuing...") w in
            let w := lcd_print (Lit "Adding more food") w in
            match nonBlockingWait fuel QUICK_DISPLAY_TIME 0 w with
            | None => None
            | Some w => Some (true, w)
            end
        end
    end
  else Some (true, w).

(** The line showFeedingResults picks for an accuracy of [feedPct] %. *)
Definition quality_message (feedPct : Z) : string :=
  if (95 <=? feedPct) && (feedPct <=? 105) then "Perfect portion!"
  else if feedPct <? 80 then "Underfed - retry?"
  else if 120 <? feedPct then "Overfed - adjust"
  else "Good enough".

Definition showFeedingResults (fuel : nat)
    (initialWeight finalWeight targetAmount : F32.t) (w : World)
  : option World :=
  let dispensed := dispensed_since initialWeight finalWeight in
  let feedPct :=
    float_to_int
      (F32.mul (F32.div dispensed targetAmount) (F32.of_Z 100)) in
  let feedPct := if feedPct <? 0 then 0
                 else if 999 <? feedPct then 999 else feedPct in
  match lcdMessage fuel (Lit "Feeding complete")
          (Fmt "Added: %.1fg" [ArgFloat dispensed]) INFO_DISPLAY_TIME w with
  | None => None
  | Some w =>
      match lcdMessage fuel (Fmt "Accuracy: %d%%" [ArgInt feedPct])
              (Lit (quality_message feedPct)) INFO_DISPLAY_TIME w with
      | None => None
      | Some w =>
          match nonBlockingWait fuel INFO_DISPLAY_TIME 0 w with
          | None => None
          | Some w =>
              lcdMessage fuel (Lit "Bowl now contains")
                (Fmt "Total: %.1fg" [ArgFloat finalWeight])
                INFO_DISPLAY_TIME w
          end
      end
  end.

(** The levels reported at the end of feeding(). *)
Definition food_level (dispensed : F32.t) : F32.t :=
  Water.constrain32
    (times_100
       (F32.div (F32.sub FEED_TOTAL_WEIGHT dispensed) FEED_TOTAL_WEIGHT))
    (F32.of_Z 0) (F32.of_Z 100).

Definition water_level (distanceCm : F32.t) : F32.t :=
  if F32.gtb distanceCm (F32.of_Z 0) then
    let waterHeight :=
      F64.to_f32 (F64.sub DISTANCE_WATER_EMPTY (F64.of_f32 distanceCm)) in
    Water.water_percentage waterHeight
  else F32.of_Z 50.

(** feeding(isScheduled) *)
Definition feeding (fuel : nat) (isScheduled : bool) (w : World)
  : option World :=
  let (connected, w) := Water.wifi_and_web w in
  let w :=
    if connected then
      sendLogEvent "feeding_start"
        (if isScheduled then "Scheduled feeding initiated"
         else "Manual feeding initiated") w
    else w in
  let w := lcd_print (Lit "Feeding time") w in
  let w := lcd_print (Lit "Checking scale") w in
  match nonBlockingWait fuel QUICK_DISPLAY_TIME 0 w with
  | None => None
  | Some w =>
  match checkScaleReady fuel SCALE_TIMEOUT w with
  | None => None
  | Some (false, w) =>
      let w := lcd_print (Lit "Error") w in
      let w := lcd_print (Lit "Scale not ready!") w in
      nonBlockingWait fuel INFO_DISPLAY_TIME 0 w
  | Some (true, w) =>
  let w := lcd_print (Lit "Checking bowl...") w in
  match nonBlockingWait fuel QUICK_DISPLAY_TIME 0 w with
  | None => None
  | Some w =>
  let (weight, w) := getStableWeight 5 2 WEIGHT_STABILITY_THRESHOLD w in
  let currentFoodWeight :=
    if F32.ltb weight (F32.of_Z 0) then F32.zero else weight in
  match checkExistingFood fuel currentFoodWeight FEED_THRESHOLD w with
  | None => None
  | Some (false, w) => Some w
  | Some (true, w) =>
  let initialWeight := currentFoodWeight in
  let w := lcd_print (Lit "Starting feed") w in
  let w := lcd_print (Lit "Opening hatch...") w in
  match nonBlockingWait fuel QUICK_DISPLAY_TIME 0 w with
  | None => None
  | Some w =>
  match dispenseFoodWithFeedback fuel initialWeight FEED_WEIGHT w with
  | None => None
  | Some (dispensedAmount, w) =>
  let w := lcd_print (Lit "Measuring final") w in
  let w := lcd_print (Lit "weight...") w in
  match nonBlockingWait fuel SETTLE_FINAL_TIME 0 w with
  | None => None
  | Some w =>
  let (finalWeight, w) := measureSettledWeight 5 5 w in
  match showFeedingResults fuel initialWeight finalWeight FEED_WEIGHT w with
  | None => None
  | Some w =>
  let dispensed := dispensed_since initialWeight finalWeight in
  let foodLevel := food_level dispensed in
  let (distanceCm, w) := getDistance w in
  let waterLevel := water_level distanceCm in
  let (connected, w) := Water.wifi_and_web w in
  Some
    (if connected then
       sendFeedingComplete isScheduled
         (Fmt "%.1fg dispensed, food: %.0f%%, water: %.0f%%"
            [ArgFloat dispensed; ArgFloat foodLevel; ArgFloat waterLevel])
         foodLevel waterLevel w
     else w)
  end end end end end end end end.

End Feeding.

(** ** Reading a trace *)

(** The levels written to the relay, newest first. *)
Fixpoint relay_writes (tr : list Event) : list bool :=
  match tr with
  | [] => []
  | RelayWrite level :: rest => level :: relay_writes rest
  | _ :: rest => relay_writes rest
  end.

(** The angles commanded to the hatch servo, newest first. *)
Fixpoint servo_writes (tr : list Event) : list Z :=
  match tr with
  | [] => []
  | ServoWrite angle :: rest => angle :: servo_writes rest
  | _ :: rest => servo_writes rest
  end.

(** The literal lines printed on the display, newest first. *)
Fixpoint lcd_lines (tr : list Event) : list string :=
  match tr with
  | [] => []
  | LcdPrint (Lit s) :: rest => s :: lcd_lines rest
  | _ :: rest => lcd_lines rest
  end.

(** ** Sample worlds *)

(** A world at time [t]: scale never ready, no echo, button released,
    network down, relay off, nothing printed yet. *)
Definition quiet_world (t : Z) : World :=
  mkWorld t (fun _ => false) 0 (fun _ => F32.zero) 0 (fun _ => 0) 0
    (fun uS => uS / 57) (fun _ => false) 0 (fun _ => false) 0 false false [].

(** The same with a scale that is always ready and reads [units k] at the
    k-th read. *)
Definition scale_world (t : Z) (units : nat -> F32.t) : World :=
  mkWorld t (fun _ => true) 0 units 0 (fun _ => 0) 0
    (fun uS => uS / 57) (fun _ => false) 0 (fun _ => false) 0 false false [].

(** The same with a sonar whose every echo converts to [cm] centimetres. *)
Definition sonar_world (t cm : Z) : World :=
  mkWorld t (fun _ => false) 0 (fun _ => F32.zero) 0 (fun _ => cm * 57) 0
    (fun uS => uS / 57) (fun _ => false) 0 (fun _ => false) 0 false false [].

(** A bowl on a drifting scale: the five reads are 1, 1, -2, 3 and -3 g. *)
Definition drift_world : World :=
  scale_world 0
    (fun k => F32.of_Z (nth k [1; 1; -2; 3; -3] 0)).

(** ** Repeated calls of checkWaterLevel *)

(** The world a call meets: the environment as it is at that moment, with
    the relay as the previous call left it. *)
Definition with_relay (level : bool) (w : World) : World :=
  mkWorld (clock w) (scale_ready w) (ready_calls w) (scale_units w)
    (units_calls w) (sonar_echo w) (ping_calls w) (sonar_cm w) (button_low w)
    (button_calls w) (wifi_up w) (wifi_calls w) (webConnected w) level
    (trace w).

(** checkWaterLevel called once in each world of [calls], in order; the
    result lists the static variables and the relay level after each call. *)
Fixpoint water_calls (fuel : nat) (s : Water.WaterStatics) (level : bool)
    (calls : list World) : option (list (Water.WaterStatics * bool)) :=
  match calls with
  | [] => Some []
  | w :: rest =>
      match Water.checkWaterLevel fuel s (with_relay level w) with
      | Some (s', w') =>
          match water_calls fuel s' (relay w') rest with
          | Some history => Some ((s', relay w') :: history)
          | None => None
          end
      | None => None
      end
  end.

(** The sensor reads a distance in range whose water height is critical. *)
Definition low_water (w : World) : Prop :=
  Water.out_of_range (fst (getDistance w)) = false /\
  Water.is_critical (Water.water_height (fst (getDistance w))) = true.

(** One call either stays in its state or moves to the next of the cycle. *)
Definition cycle_next (a b : Water.WaterState) : Prop :=
  match a with
  | Water.CHECK_WATER => b = Water.CHECK_WATER \/ b = Water.REFILL_RUNNING
  | Water.REFILL_RUNNING => b = Water.REFILL_RUNNING \/ b = Water.COOLDOWN
  | Water.COOLDOWN => b = Water.COOLDOWN \/ b = Water.CHECK_WATER
  end.

(** The states a run of calls went through. *)
Definition states_of (history : list (Water.WaterStatics * bool))
  : list Water.WaterState :=
  map (fun p => Water.state (fst p)) history.

(** After this call the relay is off if the state is COOLDOWN. *)
Definition off_in_cooldown (p : Water.WaterStatics * bool) : Prop :=
  Water.state (fst p) = Water.COOLDOWN -> snd p = false.

(** ** Running the dispense loop *)

(** [w'] has the scale of [w]: the same answers at every call index. *)
Definition same_scale (w w' : World) : Prop :=
  scale_ready w' = scale_ready w /\ scale_units w' = scale_units w.

(** [w'] is [w] between [lo] and [hi] ms later, with the same scale. *)
Definition evolves (lo hi : Z) (w w' : World) : Prop :=
  clock w + lo <= clock w' <= clock w + hi /\ same_scale w w'.

(** No settled measurement taken on this scale reaches
    [targetAmount * FEED_COMPLETE_FACTOR]. *)
Definition settled_below (initialWeight targetAmount : F32.t) (w : World)
  : Prop :=
  forall w', same_scale w w' ->
    F32.geb
      (Feeding.dispensed_since initialWeight
         (fst (Feeding.measureSettledWeight 5 2 w')))
      (F32.mul targetAmount FEED_COMPLETE_FACTOR) = false.

(** The pre-close and the complete thresholds do not exceed the excess
    threshold. *)
Definition thresholds_ordered (targetAmount : F32.t) : Prop :=
  F32.leb (F32.mul targetAmount FEED_CALIBRATION_FACTOR)
    (F32.mul targetAmount (F32.lit 125 100)) = true /\
  F32.leb (F32.mul targetAmount FEED_COMPLETE_FACTOR)
    (F32.mul targetAmount (F32.lit 125 100)) = true.

(** What holds of the counters at every turn of the loop. *)
Definition feed_invariant (l : Feeding.Locals) : Prop :=
  0 <= Feeding.retryCount l <= FEED_RETRY_TIMEOUT /\
  (Feeding.stabilityCounter l = 0 \/
   (Feeding.stabilityCounter l = 1 /\ Feeding.preCloseExecuted l = true)).

(** The ways the loop can come to set targetReached.  A settled
    measurement on this scale reached the complete threshold: *)
Definition reached_by_settling (initialWeight targetAmount : F32.t)
    (w : World) : Prop :=
  exists w_m, same_scale w w_m /\
    F32.geb
      (Feeding.dispensed_since initialWeight
         (fst (Feeding.measureSettledWeight 5 2 w_m)))
      (F32.mul targetAmount FEED_COMPLETE_FACTOR) = true.

(** the retries were used up and the warning is the last line shown: *)
Definition partial_shown (l : Feeding.Locals) (w : World) : Prop :=
  Feeding.retryCount l = FEED_RETRY_TIMEOUT /\
  hd_error (lcd_lines (trace w)) = Some "Warning: Only"%string.

(** or the emergency stop fired, on an amount that had not triggered the
    pre-close or had just been settled below the complete threshold. *)
Definition reached_by_excess (targetAmount : F32.t) : Prop :=
  exists d,
    F32.geb d (F32.mul targetAmount (F32.lit 125 100)) = true /\
    (F32.geb d (F32.mul targetAmount FEED_CALIBRATION_FACTOR) = false \/
     F32.ltb d (F32.mul targetAmount FEED_COMPLETE_FACTOR) = true).

Definition reached_how (initialWeight targetAmount : F32.t) (w0 : World)
    (l : Feeding.Locals) (w : World) : Prop :=
  reached_by_settling initialWeight targetAmount w0 \/
  partial_shown l w \/
  reached_by_excess targetAmount.

(** [w'] holds no servo command that [w] does not hold. *)
Definition servo_kept (w w' : World) : Prop :=
  servo_writes (trace w') = servo_writes (trace w).

(** The test [weights[i] != 0] of getStableWeight. *)
Definition nonzero (x : F32.t) : bool := F32.neb x F32.zero.

(** The excess warning is on the display record of [w]. *)
Definition excess_shown (w : World) : Prop :=
  In "Excess food!"%string (lcd_lines (trace w)).

(** Between [w] and [w'] no excess warning was printed. *)
Definition no_new_excess (w w' : World) : Prop :=
  excess_shown w' -> excess_shown w.

(** The amount in [dispensedWeight] is not below zero. *)
Definition amount_not_negative (l : Feeding.Locals) : Prop :=
  F32.ltb (Feeding.dispensedWeight l) (F32.of_Z 0) = false.

(** The scale answers "not ready" at each of the next [n] polls of [w]. *)
Definition not_ready_for (n : nat) (w : World) : Prop :=
  forall j : nat, (j < n)%nat -> scale_ready w (ready_calls w + j) = false.

(** What a call of checkScaleReady started in [w] has to answer: [true]
    at the first poll that finds the scale ready, [k] polls and [50 k] ms
    after the start; [false] when every poll before the timeout failed. *)
Definition scale_answer (timeout : Z) (w : World) (ready : bool)
    (w' : World) : Prop :=
  if ready then
    exists k : nat,
      50 * Z.of_nat k < timeout /\
      not_ready_for k w /\
      scale_ready w (ready_calls w + k) = true /\
      clock w' = clock w + 50 * Z.of_nat k /\
      ready_calls w' = S (ready_calls w + k)
  else
    (forall k : nat, 50 * Z.of_nat k < timeout ->
                     scale_ready w (ready_calls w + k) = false) /\
    timeout <= clock w' - clock w < timeout + 50.

(** Nobody touches the feed button: every read finds it released. *)
Definition button_untouched (w : World) : Prop :=
  forall k : nat, button_low w k = false.

(** [w'] is [w] after [d] ms of waiting, printing and talking to the
    network: the scale, the button and the hatch are as they were. *)
Definition idles (d : Z) (w w' : World) : Prop :=
  clock w' = clock w + d /\
  scale_ready w' = scale_ready w /\ ready_calls w' = ready_calls w /\
  scale_units w' = scale_units w /\ units_calls w' = units_calls w /\
  button_low w' = button_low w /\
  servo_writes (trace w') = servo_writes (trace w).

(** The weight feeding() takes for the bowl when it measures it in [w]:
    the stable weight, with [if (currentFoodWeight < 0) ... = 0]. *)
Definition bowl_weight (w : World) : F32.t :=
  let weight := fst (getStableWeight 5 2 WEIGHT_STABILITY_THRESHOLD w) in
  if F32.ltb weight (F32.of_Z 0) then F32.zero else weight.

(** The three ways feeding() ends when nobody is at the button. *)
Inductive FeedingEnd : Type :=
| ScaleNotReady      (* no answer from the scale for SCALE_TIMEOUT *)
| FeedingCanceled    (* the bowl already holds FEED_THRESHOLD or more *)
| FeedingDone.       (* the dispense ran *)

(** The scale answers one of the polls checkScaleReady makes in [w]. *)
Definition scale_answers (w : World) : Prop :=
  exists k : nat,
    50 * Z.of_nat k < SCALE_TIMEOUT /\
    scale_ready w (ready_calls w + k) = true.

(** What holds of a feeding() that went from [w] to [w'] and ended as
    [e]. *)
Definition feeding_ended (e : FeedingEnd) (w w' : World) : Prop :=
  match e with
  | ScaleNotReady =>
      ~ scale_answers w /\
      servo_kept w w' /\
      hd_error (lcd_lines (trace w')) = Some "Scale not ready!"%string /\
      8000 <= clock w' - clock w < 8050
  | FeedingCanceled =>
      scale_answers w /\
      (exists w_b : World,
          same_scale w w_b /\
          F32.geb (bowl_weight w_b) FEED_THRESHOLD = true) /\
      servo_kept w w' /\
      In "Feeding canceled"%string (lcd_lines (trace w')) /\
      clock w' - clock w < 35300
  | FeedingDone =>
      scale_answers w /\
      (exists w_b : World,
          same_scale w w_b /\
          F32.geb (bowl_weight w_b) FEED_THRESHOLD = false) /\
      hd_error (servo_writes (trace w')) = Some SERVO_CLOSE_ANGLE /\
      In "Feeding complete"%string (lcd_lines (trace w')) /\
      clock w' - clock w < 61860
  end.

(** ** main.cpp: checkWaterLevel

    main.cpp carries its own copy of the water state machine, with the
    same states and timing as the header's, no network reports, no wait on
    a sensor error, and the relay driven in both directions. *)
Module MainCpp.

(** [case CHECK_WATER] *)
Definition check_water (currentMillis : Z) (s : Water.WaterStatics)
    (w : World) : Water.WaterStatics * World :=
  let (distanceCm, w) := getDistance w in
  if Water.out_of_range distanceCm then
    let w := lcd_print (Lit "Sensor Error") w in
    let w := lcd_print (Lit "Check ultrasonic") w in
    (s, w)
  else
    let waterHeight := Water.water_height distanceCm in
    let waterPercentage := Water.water_percentage waterHeight in
    let w := lcd_print (Lit "Water Level:") w in
    if Water.is_critical waterHeight then
      let w := lcd_print (Lit "LOW! ") w in
      let w := lcd_print (Fmt "%.1f" [ArgFloat waterHeight]) w in
      let w := lcd_print (Lit "cm (") w in
      let w := lcd_print (Fmt "%d" [ArgTrunc waterPercentage]) w in
      let w := lcd_print (Lit "%)") w in
      let w := relay_write true w in
      let w := lcd_print (Lit "Water low!") w in
      let w := lcd_print (Lit "Refilling...") w in
      (Water.mkStatics Water.REFILL_RUNNING currentMillis currentMillis, w)
    else
      let w := lcd_print (Lit "OK ") w in
      let w := lcd_print (Fmt "%.1f" [ArgFloat waterHeight]) w in
      let w := lcd_print (Lit "cm (") w in
      let w := lcd_print (Fmt "%d" [ArgTrunc waterPercentage]) w in
      let w := lcd_print (Lit "%)") w in
      (s, progressBar waterPercentage w).

(** [case REFILL_RUNNING] *)
Definition refill_running (currentMillis : Z) (s : Water.WaterStatics)
    (w : World) : Water.WaterStatics * World :=
  let (s, w) :=
    if 200 <=? u32 (currentMillis - Water.lastDisplayUpdate s) then
      let elapsedSecs := u32 (currentMillis - Water.stateStartTime s) / 1000 in
      let w := lcd_print (Lit "   ") w in
      let w := Water.print_dots (Z.to_nat (elapsedSecs mod 3 + 1)) w in
      let remainingSecs :=
        Z.max 0
          (to_int
             (u32 (REFILL_DURATION
                   - u32 (currentMillis - Water.stateStartTime s))
                / 1000 + 1)) in
      (Water.mkStatics (Water.state s) (Water.stateStartTime s) currentMillis,
       lcd_print (Fmt "%d" [ArgInt remainingSecs]) w)
    else (s, w) in
  if REFILL_DURATION <=? u32 (currentMillis - Water.stateStartTime s) then
    let w := relay_write false w in
    let w := lcd_print (Lit "Refill complete") w in
    let w := lcd_print (Lit "Cooldown: 5 min") w in
    (Water.mkStatics Water.COOLDOWN currentMillis currentMillis, w)
  else (s, w).

(** [case COOLDOWN] *)
Definition cooldown (currentMillis : Z) (s : Water.WaterStatics) (w : World)
  : Water.WaterStatics * World :=
  let (s, w) :=
    if Water.DISPLAY_UPDATE_INTERVAL
       <=? u32 (currentMillis - Water.lastDisplayUpdate s)
    then
      let elapsedMs := u32 (currentMillis - Water.stateStartTime s) in
      let remainingSecs := u32 (COOLDOWN_PERIOD - elapsedMs) / 1000 in
      let w := lcd_print (Lit "     ") w in
      (Water.mkStatics (Water.state s) (Water.stateStartTime s) currentMillis,
       if COOLDOWN_PERIOD <? elapsedMs then lcd_print (Lit "00:00") w
       else
         let w := lcd_print (Fmt "%d" [ArgInt (remainingSecs / 60)]) w in
         let w := lcd_print (Lit ":") w in
         let w :=
           if remainingSecs mod 60 <? 10 then lcd_print (Lit "0") w else w in
         lcd_print (Fmt "%d" [ArgInt (remainingSecs mod 60)]) w)
    else (s, w) in
  if COOLDOWN_PERIOD <=? u32 (currentMillis - Water.stateStartTime s) then
    (Water.mkStatics Water.CHECK_WATER (Water.stateStartTime s)
       (Water.lastDisplayUpdate s), w)
  else (s, w).

Definition checkWaterLevel (s : Water.WaterStatics) (w : World)
  : Water.WaterStatics * World :=
  let currentMillis := millis w in
  match Water.state s with
  | Water.CHECK_WATER => check_water currentMillis s w
  | Water.REFILL_RUNNING => refill_running currentMillis s w
  | Water.COOLDOWN => cooldown currentMillis s w
  end.

(** checkWaterLevel called once in each world of [calls], in order, the
    relay keeping its level between calls; the result lists the static
    variables and the relay level after each call. *)
Fixpoint water_calls (s : Water.WaterStatics) (level : bool)
    (calls : list World) : list (Water.WaterStatics * bool) :=
  match calls with
  | [] => []
  | w :: rest =>
      let (s', w') := checkWaterLevel s (with_relay level w) in
      (s', relay w') :: water_calls s' (relay w') rest
  end.

(** showSetupStep: the states of its loop. *)
Inductive SetupState : Type :=
| SETUP_START | SETUP_RUNNING | SETUP_COMPLETE | SETUP_TIMEOUT | SETUP_ERROR
| SETUP_FINISHED.

(** One turn of [while (state != SETUP_FINISHED)].  [setupFunction] is the
    function pointer; it answers [None] when it does not return. *)
Definition setup_turn (fuel : nat) (setupName : string)
    (setupFunction : World -> option (bool * World)) (timeout startTime : Z)
    (state : SetupState) (w : World) : option (SetupState * World) :=
  let w := delay 5 w in
  match state with
  | SETUP_START =>
      let w := lcd_print (Lit setupName) w in
      let w := lcd_print (Lit "Initializing...") w in
      match nonBlockingWait fuel LCD_TIMEOUT startTime w with
      | Some w => Some (SETUP_RUNNING, w)
      | None => None
      end
  | SETUP_RUNNING =>
      match setupFunction w with
      | Some (setupSuccess, w) =>
          if timeout <? u32 (millis w - startTime)
          then Some (SETUP_TIMEOUT, w)
          else Some (if setupSuccess then SETUP_COMPLETE else SETUP_ERROR, w)
      | None => None
      end
  | SETUP_COMPLETE =>
      let w := lcd_print (Lit setupName) w in
      let w := lcd_print (Lit "Setup completed!") w in
      match nonBlockingWait fuel LCD_TIMEOUT 0 w with
      | Some w => Some (SETUP_FINISHED, w)
      | None => None
      end
  | SETUP_TIMEOUT =>
      let w := lcd_print (Lit setupName) w in
      let w := lcd_print (Lit "Setup timeout!") w in
      match nonBlockingWait fuel LCD_TIMEOUT 0 w with
      | Some w => Some (SETUP_FINISHED, w)
      | None => None
      end
  | SETUP_ERROR =>
      let w := lcd_print (Lit setupName) w in
      let w := lcd_print (Lit "Setup failed!") w in
      match nonBlockingWait fuel LCD_TIMEOUT 0 w with
      | Some w => Some (SETUP_FINISHED, w)
      | None => None
      end
  | SETUP_FINISHED => Some (SETUP_FINISHED, w)
  end.

Fixpoint setup_loop (rounds fuel : nat) (setupName : string)
    (setupFunction : World -> option (bool * World)) (timeout startTime : Z)
    (state : SetupState) (w : World) : option World :=
  match rounds with
  | O => None
  | S rounds' =>
      match state with
      | SETUP_FINISHED => Some w
      | _ =>
          match setup_turn fuel setupName setupFunction timeout startTime
                  state w with
          | Some (state', w') =>
              setup_loop rounds' fuel setupName setupFunction timeout
                startTime state' w'
          | None => None
          end
      end
  end.

Definition showSetupStep (fuel : nat) (setupName : string)
    (setupFunction : World -> option (bool * World)) (timeout : Z)
    (w : World) : option World :=
  setup_loop fuel fuel setupName setupFunction timeout (millis w)
    SETUP_START w.

(** The world in which showSetupStep, called in [w], calls the setup
    function: after the first turn (5 ms, the two lines, a 3 s wait) and
    the 5 ms of the second. *)
Definition setup_entry (setupName : string) (w : World) : World :=
  delay 5
    (delay 3000
       (lcd_print (Lit "Initializing...")
          (lcd_print (Lit setupName) (delay 5 w)))).

(** The verdict shown for a setup function that answered [setupSuccess]
    [elapsed] ms after showSetupStep was called. *)
Definition setup_verdict (timeout elapsed : Z) (setupSuccess : bool)
  : string :=
  if timeout <? elapsed then "Setup timeout!"
  else if setupSuccess then "Setup completed!"
  else "Setup failed!".

End MainCpp.

(** After this call the pump relay is on exactly in REFILL_RUNNING. *)
Definition pump_follows_state (p : Water.WaterStatics * bool) : Prop :=
  snd p = true <-> Water.state (fst p) = Water.REFILL_RUNNING.

(** The relay levels a run of calls left behind. *)
Definition relays_of (history : list (Water.WaterStatics * bool))
  : list bool :=
  map snd history.

(** ** lcd_helpers.h: clearLineLCD and progressBar *)

(** [uint8_t] wrap-around. *)
Definition u8 (x : Z) : Z := x mod 2 ^ 8.

Definition LCD_X : Z := 16.
Definition LCD_Y : Z := 2.

Module Lcd.

(** What a call of clearLineLCD does to the display. *)
Inductive Cleared : Type :=
| Nothing                         (* returned before touching the display *)
| Spaces (col row count : Z)      (* printed [count] spaces from (col, row) *)
| Overrun (count : Z).            (* memset of [count] bytes, and the
                                     terminator, past the 17-byte buffer *)

(** clearLineLCD with the display dimension [width] its length test uses:
    LCD_X in lcd_helpers.h. *)
Definition clear_line (width col row length : Z) : Cleared :=
  let length :=
    if (length =? 0) || (width <? col + length) then u8 (width - col)
    else length in
  if length <=? 0 then Nothing
  else if 17 <=? length then Overrun length
  else Spaces col row length.

Definition clearLineLCD (col row length : Z) : Cleared :=
  clear_line LCD_X col row length.

(** A cell of the bar row. *)
Inductive Cell : Type :=
| Solid                    (* lcd.write(0xFF) *)
| Partial (pixels : Z)     (* the custom character, [pixels] columns lit *)
| Blank.                   (* lcd.print(" ") *)

(** [bitWrite(value, bit, 1)] *)
Definition bitSet (value bit : Z) : Z := Z.lor value (Z.shiftl 1 bit).

(** One row of the custom character:
    [for (col = 0; col < remainderPixels; col++) bitWrite(row, 4 - col, 1)],
    the remaining [count] turns of the loop from [col] on. *)
Fixpoint partial_row (count : nat) (col value : Z) : Z :=
  match count with
  | O => value
  | S count' => partial_row count' (col + 1) (bitSet value (4 - col))
  end.

(** [int filledPixels = (percent / 100.0) * pixelWidth], with
    [percent = constrain(percentage, 0, 100)] and
    [float pixelWidth = LCD_X * 5.0]. *)
Definition filledPixels (percentage : F32.t) : Z :=
  let percent :=
    Water.constrain32 percentage (F32.of_Z 0) (F32.of_Z 100) in
  let pixelWidth := F64.to_f32 (F64.mul (F64.of_Z LCD_X) (F64.of_Z 5)) in
  float_to_int
    (F64.mul (F64.div (F64.of_f32 percent) (F64.of_Z 100))
       (F64.of_f32 pixelWidth)).

(** The cells progressBar writes on row 1 for a given [filledPixels], from
    "Calculate complete blocks and remainder" to the end. *)
Definition bar_cells (filledPixels : Z) : list Cell :=
  let completeBlocks := u8 (Z.quot filledPixels 5) in
  let remainderPixels := u8 (Z.rem filledPixels 5) in
  let solid := repeat Solid (Z.to_nat (Z.min completeBlocks LCD_X)) in
  let '(partial, completeBlocks) :=
    if (0 <? remainderPixels) && (completeBlocks <? LCD_X)
    then ([Partial remainderPixels], u8 (completeBlocks + 1))
    else ([], completeBlocks) in
  solid ++ partial ++ repeat Blank (Z.to_nat (LCD_X - completeBlocks)).

(** The row progressBar draws. *)
Definition progress_cells (percentage : F32.t) : list Cell :=
  bar_cells (filledPixels percentage).

End Lcd.

(** main.cpp's copy of clearLineLCD tests the length against LCD_Y. *)
Definition main_clearLineLCD (col row length : Z) : Lcd.Cleared :=
  Lcd.clear_line LCD_Y col row length.

(** The echo time of the [k]-th ping made from [w] on, and the distance
    the sonar converts it to. *)
Definition echo_at (w : World) (k : nat) : Z :=
  u32 (sonar_echo w (ping_calls w + k)).

Definition cm_at (w : World) (k : nat) : Z :=
  u32 (sonar_cm w (echo_at w k)).

(** A sonar whose five pings read 17 cm, nothing, 18 cm, 18 cm, nothing. *)
Definition patchy_sonar_world : World :=
  mkWorld 0 (fun _ => false) 0 (fun _ => F32.zero) 0
    (fun k => nth k [969; 0; 1026; 1026; 0] 0) 0
    (fun uS => uS / 57) (fun _ => false) 0 (fun _ => false) 0 false false [].

(** ** web_helpers.h: processSchedules *)
Module Web.

(** One entry of the "data" array, with its "time" string already taken
    apart by [substring(0, 2).toInt()] and [substring(3, 5).toInt()]. *)
Record Schedule : Type := mkSchedule {
  enabled : bool;
  hour : Z;
  minute : Z
}.

Definition MAX_SCHEDULES : Z := 10.

(** The first loop: the minutes since midnight of the enabled schedules,
    the first MAX_SCHEDULES of them. *)
Fixpoint collect (schedules : list Schedule) (enabledSchedules : list Z)
  : list Z :=
  match schedules with
  | [] => enabledSchedules
  | schedule :: rest =>
      if enabled schedule then
        let scheduleMinutes := hour schedule * 60 + minute schedule in
        collect rest
          (if Z.of_nat (List.length enabledSchedules) <? MAX_SCHEDULES
           then enabledSchedules ++ [scheduleMinutes]
           else enabledSchedules)
      else collect rest enabledSchedules
  end.

(** [timeDiff]: the minutes from now to the schedule, today or tomorrow. *)
Definition timeDiff (currentTimeMinutes scheduleMinutes : Z) : Z :=
  if currentTimeMinutes <? scheduleMinutes
  then scheduleMinutes - currentTimeMinutes
  else scheduleMinutes + (24 * 60 - currentTimeMinutes).

(** The second loop, from index [i] on: the result is
    (nextScheduleIndex, minTimeDiff). *)
Fixpoint find_next (currentTimeMinutes : Z) (enabledSchedules : list Z)
    (i nextScheduleIndex minTimeDiff : Z) : Z * Z :=
  match enabledSchedules with
  | [] => (nextScheduleIndex, minTimeDiff)
  | scheduleMinutes :: rest =>
      let d := timeDiff currentTimeMinutes scheduleMinutes in
      if d <? minTimeDiff
      then find_next currentTimeMinutes rest (i + 1) i d
      else find_next currentTimeMinutes rest (i + 1) nextScheduleIndex
             minTimeDiff
  end.

(** What is handed to mktime for nextScheduledFeeding: the broken-down
    current time with [tm_mday] raised by [dayOffset], [tm_hour] and
    [tm_min] replaced and [tm_sec] cleared.  [NoFeeding] is the value 0. *)
Inductive NextFeeding : Type :=
| NoFeeding
| FeedingAt (dayOffset tm_hour tm_min : Z).

(** The two globals processSchedules writes. *)
Record Schedules : Type := mkSchedules {
  nextScheduledFeeding : NextFeeding;
  hasActiveSchedule : bool
}.

(** processSchedules: [data] is [None] when the message has no "data"
    array; [timeSet] is timeClient.isTimeSet(). *)
Definition processSchedules (data : option (list Schedule)) (timeSet : bool)
    (currentTimeMinutes : Z) (globals : Schedules) : Schedules :=
  match data with
  | None => globals
  | Some schedules =>
      if negb timeSet then globals
      else
        let enabledSchedules := collect schedules [] in
        if 0 <? Z.of_nat (List.length enabledSchedules) then
          let (nextScheduleIndex, minTimeDiff) :=
            find_next currentTimeMinutes enabledSchedules 0 (-1)
              (24 * 60 + 1) in
          if 0 <=? nextScheduleIndex then
            let scheduleMinutes :=
              nth (Z.to_nat nextScheduleIndex) enabledSchedules 0 in
            mkSchedules
              (FeedingAt
                 (if scheduleMinutes <=? currentTimeMinutes then 1 else 0)
                 (Z.quot scheduleMinutes 60) (Z.rem scheduleMinutes 60))
              true
          else mkSchedules NoFeeding true
        else mkSchedules NoFeeding false
  end.

End Web.

(** A time of day as "HH:MM" means it. *)
Definition valid_time (s : Web.Schedule) : Prop :=
  0 <= Web.hour s < 24 /\ 0 <= Web.minute s < 60.

(** The minutes from [currentTimeMinutes] to a feeding handed to mktime. *)
Definition minutes_ahead (currentTimeMinutes : Z) (next : Web.NextFeeding)
  : Z :=
  match next with
  | Web.NoFeeding => 0
  | Web.FeedingAt dayOffset tm_hour tm_min =>
      dayOffset * (24 * 60) + tm_hour * 60 + tm_min - currentTimeMinutes
  end.

(** The minutes since midnight of the enabled schedules, in order. *)
Definition enabled_minutes (schedules : list Web.Schedule) : list Z :=
  map (fun s => Web.hour s * 60 + Web.minute s)
    (filter Web.enabled schedules).

(** ** water_helpers.h: nonBlockingMedianPing *)

(** [a[i] = x] on an array held as a list; nothing is written outside it. *)
Fixpoint array_set {A : Type} (a : list A) (i : nat) (x : A) : list A :=
  match a, i with
  | [], _ => []
  | _ :: rest, O => x :: rest
  | y :: rest, S i' => y :: array_set rest i' x
  end.


Module MedianPing.







End MedianPing.



(** ** scale_helpers.h: calculateFilteredWeight *)
Module FilteredWeight.

(** [while (j >= 0 && sortedBuffer[j] > key)
      { sortedBuffer[j + 1] = sortedBuffer[j]; j--; }]
    with [k = j + 1]; the result holds the array and the final [j + 1]. *)
Fixpoint shift_loop (k : nat) (sortedBuffer : list F32.t) (key : F32.t)
  : list F32.t * nat :=
  match k with
  | O => (sortedBuffer, O)
  | S j =>
      if F32.gtb (nth j sortedBuffer F32.zero) key
      then shift_loop j
             (array_set sortedBuffer (S j) (nth j sortedBuffer F32.zero)) key
      else (sortedBuffer, S j)
  end.

(** [for (uint8_t i = 1; i < size; i++)], [count] turns from [i] on. *)
Fixpoint insert_loop (count i : nat) (sortedBuffer : list F32.t)
  : list F32.t :=
  match count with
  | O => sortedBuffer
  | S count' =>
      let key := nth i sortedBuffer F32.zero in
      let (shifted, k) := shift_loop i sortedBuffer key in
      insert_loop count' (S i) (array_set shifted k key)
  end.

Definition insertion_sort (size : nat) (buffer : list F32.t) : list F32.t :=
  insert_loop (size - 1) 1 (firstn size buffer).

(** calculateFilteredWeight(buffer, size), [buffer] being the caller's
    array.  The function has no result here when it reads past the end of
    [buffer], and when [size] exceeds the ten floats of [sortedBuffer]. *)
Definition calculateFilteredWeight (buffer : list F32.t) (size : Z)
  : option F32.t :=
  if size <=? 1 then nth_error buffer 0
  else if (10 <? size) || (Z.of_nat (List.length buffer) <? size) then None
  else
    let sortedBuffer := insertion_sort (Z.to_nat size) buffer in
    if size mod 2 =? 1 then
      Some (nth (Z.to_nat (size / 2)) sortedBuffer F32.zero)
    else
      Some (F32.div
              (F32.add (nth (Z.to_nat (size / 2 - 1)) sortedBuffer F32.zero)
                 (nth (Z.to_nat (size / 2)) sortedBuffer F32.zero))
              (F32.of_Z 2)).

End FilteredWeight.

(** [x <= y] on floats. *)
Definition float_le (x y : F32.t) : Prop := F32.leb x y = true.

Definition is_number (x : F32.t) : Prop := x <> S754_nan.

(** ** lcd_helpers.h: waitForButtonWithTimeout

    The pin read is the one the world's button answers for. *)
Module ButtonWait.

(** [if (secondsLeft != lastSecond)]: the seconds left are printed when
    they differ from the ones printed last; the result is lastSecond. *)
Definition show_seconds (startTime timeout lastSecond : Z) (w : World)
  : Z * World :=
  let secondsLeft :=
    to_int (u32 (timeout - u32 (millis w - startTime)) / 1000) in
  if negb (secondsLeft =? lastSecond)
  then (secondsLeft,
        lcd_print (Fmt "%d" [ArgInt secondsLeft]) (lcd_print (Lit "  ") w))
  else (lastSecond, w).

(** [while (millis() - startTime < timeout)]: [fuel] bounds the turns of
    the loop that waits for the release. *)
Fixpoint wait_rounds (rounds fuel : nat) (startTime timeout lastSecond : Z)
    (w : World) : option (bool * World) :=
  match rounds with
  | O => None
  | S rounds' =>
      if u32 (millis w - startTime) <? timeout then
        let (lastSecond, w0) := show_seconds startTime timeout lastSecond w in
        let (low, w1) := button_is_low w0 in
        if low then
          let (still_low, w2) :=
            button_is_low (delay BUTTON_DEBOUNCE_TIME w1) in
          if still_low then
            match Feeding.release_loop fuel w2 with
            | Some w3 => Some (true, w3)
            | None => None
            end
          else wait_rounds rounds' fuel startTime timeout lastSecond
                 (delay 10 w2)
        else wait_rounds rounds' fuel startTime timeout lastSecond
               (delay 10 w1)
      else Some (false, w)
  end.

Definition waitForButtonWithTimeout (rounds fuel : nat) (timeout : Z)
    (w : World) : option (bool * World) :=
  wait_rounds rounds fuel (millis w) timeout (-1) w.

End ButtonWait.

(** The display shows the number [n] as the thing printed last. *)
Definition shows_number (n : Z) (w : World) : Prop :=
  hd_error (trace w) = Some (LcdPrint (Fmt "%d" [ArgInt n])).

(** The button is held down for its first three reads, then released. *)
Definition pressed_world : World :=
  mkWorld 0 (fun _ => false) 0 (fun _ => F32.zero) 0 (fun _ => 0) 0
    (fun uS => uS / 57) (fun k => Nat.ltb k 3) 0 (fun _ => false) 0 false
    false [].

(** What a call of checkScaleReady that went from [w] to [w'] tells about
    the polls it made.  [true]: the last poll found the scale ready and
    none before it did.  [false]: no poll found it ready, and [timeout]
    ms have passed.  A call with a positive [timeout] polls at least
    once. *)
Definition scale_verdict (timeout : Z) (w : World) (ready : bool)
    (w' : World) : Prop :=
  (0 < timeout -> (ready_calls w < ready_calls w')%nat) /\
  if ready then
    (ready_calls w < ready_calls w')%nat /\
    scale_ready w (ready_calls w' - 1) = true /\
    (forall j : nat, (ready_calls w <= j < ready_calls w' - 1)%nat ->
                     scale_ready w j = false)
  else
    (forall j : nat, (ready_calls w <= j < ready_calls w')%nat ->
                     scale_ready w j = false) /\
    timeout <= clock w' - clock w.

(** How a feeding() that went from [w] to [w'] with nobody at the button
    ended, by what it left on the display and at the hatch. *)
Definition feeding_outcome (e : FeedingEnd) (w w' : World) : Prop :=
  match e with
  | ScaleNotReady =>
      servo_kept w w' /\
      hd_error (lcd_lines (trace w')) = Some "Scale not ready!"%string
  | FeedingCanceled =>
      (exists w_b : World,
          same_scale w w_b /\
          F32.geb (bowl_weight w_b) FEED_THRESHOLD = true) /\
      servo_kept w w' /\
      In "Feeding canceled"%string (lcd_lines (trace w'))
  | FeedingDone =>
      (exists w_b : World,
          same_scale w w_b /\
          F32.geb (bowl_weight w_b) FEED_THRESHOLD = false) /\
      hd_error (servo_writes (trace w')) = Some SERVO_CLOSE_ANGLE /\
      In "Feeding complete"%string (lcd_lines (trace w'))
  end.

(** A scale that is ready from its third poll on. *)
Definition slow_scale_world : World :=
  mkWorld 0 (fun k => Nat.leb 2 k) 0 (fun _ => F32.zero) 0 (fun _ => 0) 0
    (fun uS => uS / 57) (fun _ => false) 0 (fun _ => false) 0 false false [].

(** The distances getDistance adds up: those of the pings [start],
    [start + 1], ... ([n] of them) made from [w] on that have an echo, in
    order. *)
Fixpoint echo_distances (start n : nat) (w : World) : list Z :=
  match n with
  | O => []
  | S n' =>
      (if 0 <? echo_at w start then [cm_at w start] else [])
      ++ echo_distances (S start) n' w
  end.

Definition sum_of (l : list Z) : Z := fold_right Z.add 0 l.

(** The average in whole numbers, rounded down; 0 for no number at all. *)
Definition whole_average (l : list Z) : Z :=
  match l with
  | [] => 0
  | _ :: _ => sum_of l / Z.of_nat (List.length l)
  end.

(** * Properties *)

(** ** Unsigned 32-bit arithmetic *)

Lemma u32_small (x : Z) : 0 <= x < 2 ^ 32 -> u32 x = x.
Proof. intros H. unfold u32. apply Z.mod_small. exact H. Qed.

Lemma u32_range (x : Z) : 0 <= u32 x < 2 ^ 32.
Proof. unfold u32. apply Z.mod_pos_bound. reflexivity. Qed.

Lemma u32_sub (a b : Z) : u32 (u32 a - u32 b) = u32 (a - b).
Proof. unfold u32. symmetry. apply Zminus_mod. Qed.

Lemma u32_sub_l (a b : Z) : u32 (u32 a - b) = u32 (a - b).
Proof. unfold u32. apply Zminus_mod_idemp_l. Qed.

(** Elapsed time measured with wrapped clocks is exact below 2^32 ms. *)
Lemma elapsed_exact (w : World) (since : Z) :
  0 <= clock w - since < 2 ^ 32 ->
  u32 (millis w - u32 since) = clock w - since.
Proof.
  intros H. unfold millis. rewrite u32_sub. apply u32_small. exact H.
Qed.

(** ** The clock and the frame of [delay] and [emit] *)

Lemma delay_delay (a b : Z) (w : World) :
  delay b (delay a w) = delay (a + b) w.
Proof. unfold delay. simpl. f_equal. lia. Qed.

Lemma delay_zero (w : World) : delay 0 w = w.
Proof. destruct w. unfold delay. simpl. f_equal. lia. Qed.

(** ** nonBlockingWait *)

(** The loop leaves at the first multiple of 10 ms that reaches the
    requested time. *)
Lemma wait_loop_exact (fuel : nat) :
  forall (since actualWaitTime : Z) (w : World),
    0 <= actualWaitTime <= 2 ^ 32 - 10 ->
    0 <= clock w - since < actualWaitTime + 10 ->
    actualWaitTime - (clock w - since) + 10 <= 10 * Z.of_nat fuel ->
    wait_loop fuel (u32 since) actualWaitTime w =
    Some (delay (10 * ((actualWaitTime - (clock w - since) + 9) / 10)) w).
Proof.
  induction fuel as [|fuel IH]; intros since a w Ha He Hfuel.
  - simpl in Hfuel. lia.
  - cbn [wait_loop]. rewrite elapsed_exact by lia.
    destruct (Z.ltb_spec (clock w - since) a) as [Hlt|Hge].
    + rewrite IH; cbn [clock delay]; try lia.
      rewrite delay_delay. do 2 f_equal.
      replace (a - (clock w - since) + 9)
        with (a - (clock w + 10 - since) + 9 + 1 * 10) by lia.
      rewrite Z.div_add by lia. lia.
    + replace ((a - (clock w - since) + 9) / 10) with 0.
      * rewrite delay_zero. reflexivity.
      * symmetry. apply Z.div_small. lia.
Qed.

(** Without a display timestamp the wait is the requested time rounded up
    to the 10 ms slice. *)
Lemma nonBlockingWait_plain (fuel : nat) (waitTime : Z) (w : World) :
  0 <= waitTime <= 2 ^ 32 - 10 ->
  waitTime + 10 <= 10 * Z.of_nat fuel ->
  nonBlockingWait fuel waitTime 0 w =
  Some (delay (10 * ((waitTime + 9) / 10)) w).
Proof.
  intros Hw Hfuel. unfold nonBlockingWait. cbn [Z.ltb Z.compare andb].
  rewrite Bool.andb_false_r. unfold millis.
  rewrite wait_loop_exact by lia.
  replace (clock w - clock w) with 0 by lia.
  rewrite Z.sub_0_r. reflexivity.
Qed.

Lemma round_up_10 (a : Z) : a <= 10 * ((a + 9) / 10) < a + 10.
Proof.
  pose proof (Z.div_mod (a + 9) 10 ltac:(lia)) as Hdm.
  pose proof (Z.mod_pos_bound (a + 9) 10 ltac:(lia)) as Hm.
  lia.
Qed.

(** C8, as stated, fails: with a display timestamp older than LCD_TIMEOUT
    the function returns at once, whatever [waitTime] is.  Here the call
    happens at 5000 ms with [waitTime = 3000] and a message shown since
    1000 ms: no time passes. *)
Lemma nonBlockingWait_returns_early :
  exists w' : World,
    nonBlockingWait 1000 3000 1000 (quiet_world 5000) = Some w' /\
    clock w' - clock (quiet_world 5000) < 3000.
Proof.
  exists (quiet_world 5000). split.
  - reflexivity.
  - simpl. lia.
Qed.

(** C8 (amended): for a waitTime of at most 2^32 - 10 ms,
    nonBlockingWait(waitTime, 0) returns, and not before waitTime has
    passed since the call.  With a nonzero startDisplayTime it returns at
    once, without waiting at all, when LCD_TIMEOUT has already passed
    since startDisplayTime; otherwise it returns not before the larger of
    waitTime and the rest of LCD_TIMEOUT has passed.  Nothing is printed
    and no device is touched. *)
Theorem nonBlockingWait_dwell
    (fuel : nat) (waitTime startDisplayTime : Z) (w : World) :
  0 <= waitTime <= 2 ^ 32 - 10 ->
  0 <= startDisplayTime < 2 ^ 32 ->
  Z.max waitTime LCD_TIMEOUT + 10 <= 10 * Z.of_nat fuel ->
  let elapsedDisplayTime := u32 (millis w - startDisplayTime) in
  exists waited : Z,
    nonBlockingWait fuel waitTime startDisplayTime w = Some (delay waited w) /\
    if startDisplayTime =? 0 then waitTime <= waited
    else if LCD_TIMEOUT <=? elapsedDisplayTime then waited = 0
    else Z.max waitTime (LCD_TIMEOUT - elapsedDisplayTime) <= waited.
Proof.
  intros Hw Hs Hfuel elapsed.
  destruct (Z.eqb_spec startDisplayTime 0) as [->|Hnz].
  - exists (10 * ((waitTime + 9) / 10)). split.
    + apply nonBlockingWait_plain; lia.
    + apply round_up_10.
  - unfold nonBlockingWait. fold elapsed.
    replace (0 <? LCD_TIMEOUT) with true by reflexivity.
    replace (0 <? startDisplayTime) with true by (symmetry; apply Z.ltb_lt; lia).
    cbn [andb].
    pose proof (u32_range (millis w - startDisplayTime)) as Hel.
    fold elapsed in Hel.
    destruct (Z.leb_spec LCD_TIMEOUT elapsed) as [Hold|Hnew].
    + exists 0. rewrite delay_zero. split; reflexivity.
    + unfold LCD_TIMEOUT in *.
      rewrite (u32_small (3000 - elapsed)) by lia.
      set (actual := Z.max waitTime (3000 - elapsed)).
      exists (10 * ((actual + 9) / 10)). split.
      * unfold millis. rewrite wait_loop_exact; try (unfold actual; lia).
        replace (clock w - clock w) with 0 by lia.
        rewrite Z.sub_0_r. reflexivity.
      * apply round_up_10.
Qed.

(** C8 at a concrete call: 1000 ms requested, message on screen since
    4000 ms, called at 5000 ms: 2000 ms of LCD_TIMEOUT are left, and the
    wait is extended to them. *)
Lemma nonBlockingWait_dwell_witness :
  exists waited : Z,
    nonBlockingWait 400 1000 4000 (quiet_world 5000)
    = Some (delay waited (quiet_world 5000)) /\
    2000 <= waited.
Proof.
  destruct (nonBlockingWait_dwell 400 1000 4000 (quiet_world 5000))
    as [waited [Hrun Hwait]].
  - lia.
  - lia.
  - unfold LCD_TIMEOUT. simpl. lia.
  - exists waited. split; [exact Hrun | exact Hwait].
Defined.

(** ** getStableWeight and getDistance *)

Lemma stats_step_zero (st : WeightStats) (x : F32.t) :
  nonzero x = false -> stats_step st x = st.
Proof. intros H. unfold stats_step. fold (nonzero x). rewrite H. reflexivity. Qed.

Lemma fold_stats_filter (weights : list F32.t) :
  forall st : WeightStats,
    fold_left stats_step weights st
    = fold_left stats_step (filter nonzero weights) st.
Proof.
  induction weights as [|x rest IH]; intros st.
  - reflexivity.
  - cbn [filter fold_left]. destruct (nonzero x) eqn:Hx.
    + cbn [fold_left]. apply IH.
    + rewrite stats_step_zero by exact Hx. apply IH.
Qed.

Lemma filter_all_zero (weights : list F32.t) :
  Forall (fun x => F32.eqb x F32.zero = true) weights ->
  filter nonzero weights = [].
Proof.
  induction 1 as [|x rest Hx _ IH].
  - reflexivity.
  - cbn [filter]. unfold nonzero, F32.neb at 1. unfold F32.eqb in Hx.
    rewrite Hx. exact IH.
Qed.

(** A scale that is never ready fills [weights] with the failure mark 0. *)
Lemma take_readings_failed (n : nat) (samples : Z) :
  forall w : World,
    (forall k, scale_ready w k = false) ->
    fst (take_readings n samples w) = repeat F32.zero n.
Proof.
  induction n as [|n IH]; intros w Hfail.
  - reflexivity.
  - cbn [take_readings is_ready]. rewrite Hfail.
    destruct (take_readings n samples _) as [xs w3] eqn:Hrest.
    cbn [fst repeat]. f_equal.
    change xs with (fst (xs, w3)). rewrite <- Hrest.
    apply IH. intros k. cbn. apply Hfail.
Qed.

(** A scale that reads exactly 0 g fills [weights] with zeros, ready or not. *)
Lemma take_readings_zero_mass (n : nat) (samples : Z) :
  forall w : World,
    (forall k, F32.eqb (scale_units w k) F32.zero = true) ->
    Forall (fun x => F32.eqb x F32.zero = true)
      (fst (take_readings n samples w)).
Proof.
  induction n as [|n IH]; intros w Hzero.
  - constructor.
  - cbn [take_readings is_ready].
    destruct (scale_ready w (ready_calls w)); cbn [get_units].
    + destruct (take_readings n samples _) as [xs w3] eqn:Hrest.
      cbn [fst]. constructor.
      * apply Hzero.
      * change xs with (fst (xs, w3)). rewrite <- Hrest.
        apply IH. intros k. cbn. apply Hzero.
    + destruct (take_readings n samples _) as [xs w3] eqn:Hrest.
      cbn [fst]. constructor.
      * reflexivity.
      * change xs with (fst (xs, w3)). rewrite <- Hrest.
        apply IH. intros k. cbn. apply Hzero.
Qed.

Lemma repeat_zero_all_zero (n : nat) :
  Forall (fun x => F32.eqb x F32.zero = true) (repeat F32.zero n).
Proof. induction n; cbn [repeat]; constructor; [reflexivity | assumption]. Qed.

(** With only zeros in [weights] the function leaves through
    [if (validReadings == 0) return 0]. *)
Lemma getStableWeight_all_zero
    (numReadings samples : Z) (threshold : F32.t) (w : World) :
  Forall (fun x => F32.eqb x F32.zero = true)
    (fst (take_readings
            (Z.to_nat (if 10 <? numReadings then 10 else numReadings))
            samples w)) ->
  fst (getStableWeight numReadings samples threshold w) = F32.zero.
Proof.
  intros Hall. unfold getStableWeight.
  destruct (take_readings _ samples w) as [weights w'].
  cbn [fst] in Hall. unfold weight_stats.
  rewrite fold_stats_filter, (filter_all_zero _ Hall).
  reflexivity.
Qed.

(** C10: a reading of exactly 0, a failed read included, takes no part in
    min, max, total or the count of valid readings; a scale that reads
    exactly 0 g on every sample therefore leaves through the
    all-readings-failed branch and returns the same 0 as a scale that never
    answers. *)
Theorem getStableWeight_zero_mass_is_failure
    (numReadings samples : Z) (threshold : F32.t) (w w_failed : World) :
  (forall k, F32.eqb (scale_units w k) F32.zero = true) ->
  (forall k, scale_ready w_failed k = false) ->
  let n := Z.to_nat (if 10 <? numReadings then 10 else numReadings) in
  (forall weights,
      weight_stats weights = weight_stats (filter nonzero weights)) /\
  fst (take_readings n samples w_failed) = repeat F32.zero n /\
  validReadings (weight_stats (fst (take_readings n samples w))) = 0 /\
  fst (getStableWeight numReadings samples threshold w) = F32.zero /\
  fst (getStableWeight numReadings samples threshold w_failed)
  = fst (getStableWeight numReadings samples threshold w).
Proof.
  intros Hzero Hfail n.
  assert (Hw : fst (getStableWeight numReadings samples threshold w)
               = F32.zero).
  { apply getStableWeight_all_zero. apply take_readings_zero_mass.
    exact Hzero. }
  split; [|split; [|split; [|split]]].
  - intros weights. apply fold_stats_filter.
  - apply take_readings_failed. exact Hfail.
  - unfold weight_stats. rewrite fold_stats_filter.
    rewrite (filter_all_zero _ (take_readings_zero_mass n samples w Hzero)).
    reflexivity.
  - exact Hw.
  - rewrite Hw. apply getStableWeight_all_zero.
    fold n. rewrite (take_readings_failed n samples w_failed Hfail).
    apply repeat_zero_all_zero.
Qed.

(** C10 on an empty bowl (ready scale, 0 g at every read) against a dead
    scale, with the arguments feeding() passes. *)
Lemma getStableWeight_zero_mass_is_failure_witness :
  validReadings
    (weight_stats
       (fst (take_readings 5 2 (scale_world 0 (fun _ => F32.zero))))) = 0 /\
  fst (getStableWeight 5 2 WEIGHT_STABILITY_THRESHOLD (quiet_world 0))
  = fst (getStableWeight 5 2 WEIGHT_STABILITY_THRESHOLD
           (scale_world 0 (fun _ => F32.zero))).
Proof.
  pose proof (getStableWeight_zero_mass_is_failure 5 2
                WEIGHT_STABILITY_THRESHOLD
                (scale_world 0 (fun _ => F32.zero)) (quiet_world 0)
                (fun _ => eq_refl) (fun _ => eq_refl)) as H.
  cbv zeta in H. destruct H as [_ [_ [Hvalid [_ Hsame]]]].
  split; [exact Hvalid | exact Hsame].
Defined.

Lemma ping_loop_no_echo (n : nat) :
  forall (total valid : Z) (w : World),
    (forall k, u32 (sonar_echo w k) = 0) ->
    fst (ping_loop n total valid w) = (total, valid).
Proof.
  induction n as [|n IH]; intros total valid w Hsilent.
  - reflexivity.
  - cbn [ping_loop ping]. rewrite Hsilent. cbn [Z.ltb Z.compare].
    apply IH. intros k. cbn. apply Hsilent.
Qed.

Lemma getDistance_no_echo (w : World) :
  (forall k, u32 (sonar_echo w k) = 0) ->
  fst (getDistance w) = F32.zero.
Proof.
  intros Hsilent. unfold getDistance.
  pose proof (ping_loop_no_echo PING_SAMPLES 0 0 w Hsilent) as H.
  destruct (ping_loop PING_SAMPLES 0 0 w) as [[total valid] w'].
  cbn [fst] in H. injection H as -> ->. reflexivity.
Qed.

(** C3, as stated, fails: with no valid read both filters return the plain
    number 0.  For getStableWeight that is also what an empty bowl on a
    working scale gives, and what five valid reads of 1, 1, -2, 3 and -3 g
    average to. *)
Lemma failure_is_a_plain_zero :
  (forall k, scale_ready (quiet_world 0) k = false) /\
  fst (getStableWeight 5 2 WEIGHT_STABILITY_THRESHOLD (quiet_world 0))
  = F32.zero /\
  fst (getStableWeight 5 2 WEIGHT_STABILITY_THRESHOLD
         (scale_world 0 (fun _ => F32.zero))) = F32.zero /\
  validReadings (weight_stats (fst (take_readings 5 2 drift_world))) = 5 /\
  fst (getStableWeight 5 2 WEIGHT_STABILITY_THRESHOLD drift_world)
  = F32.zero /\
  fst (getDistance (quiet_world 0)) = F32.zero.
Proof.
  split; [intros k; reflexivity|].
  repeat split; vm_compute; reflexivity.
Qed.

(** C3 (amended): with zero valid reads getStableWeight and getDistance
    return the number 0 as their failure mark.  checkWaterLevel's range test
    rejects a distance of 0 as a sensor error; the 0 of getStableWeight is
    the value a bowl of 0 g gives as well. *)
Theorem zero_valid_reads_return_zero
    (numReadings samples : Z) (threshold : F32.t) (w : World) :
  (forall k, scale_ready w k = false) ->
  (forall k, u32 (sonar_echo w k) = 0) ->
  fst (getStableWeight numReadings samples threshold w) = F32.zero /\
  fst (getDistance w) = F32.zero /\
  Water.out_of_range (fst (getDistance w)) = true.
Proof.
  intros Hscale Hsonar. split; [|split].
  - apply getStableWeight_all_zero.
    rewrite (take_readings_failed _ samples w Hscale).
    apply repeat_zero_all_zero.
  - apply getDistance_no_echo. exact Hsonar.
  - rewrite (getDistance_no_echo w Hsonar). reflexivity.
Qed.

(** C3 (amended) on a world whose scale and sonar never answer. *)
Lemma zero_valid_reads_return_zero_witness :
  fst (getStableWeight 5 2 WEIGHT_STABILITY_THRESHOLD (quiet_world 0))
  = F32.zero /\
  fst (getDistance (quiet_world 0)) = F32.zero /\
  Water.out_of_range (fst (getDistance (quiet_world 0))) = true.
Proof.
  apply (zero_valid_reads_return_zero 5 2 WEIGHT_STABILITY_THRESHOLD
           (quiet_world 0)).
  - intros k. reflexivity.
  - intros k. reflexivity.
Defined.

(** ** checkWaterLevel *)

(** What the getDistance loop leaves behind: 10 ms and one ping per sample. *)
Lemma ping_loop_world (n : nat) :
  forall (total valid : Z) (w : World),
    snd (ping_loop n total valid w)
    = mkWorld (clock w + 10 * Z.of_nat n) (scale_ready w) (ready_calls w)
        (scale_units w) (units_calls w) (sonar_echo w) (ping_calls w + n)
        (sonar_cm w) (button_low w) (button_calls w) (wifi_up w)
        (wifi_calls w) (webConnected w) (relay w) (trace w).
Proof.
  induction n as [|n IH]; intros total valid w.
  - destruct w. cbn -[Z.mul Z.add Z.of_nat Nat.add]. f_equal; lia.
  - cbn [ping_loop ping].
    destruct (0 <? u32 (sonar_echo w (ping_calls w))); rewrite IH;
      cbn -[Z.mul Z.add Z.of_nat Nat.add]; f_equal; lia.
Qed.

Lemma getDistance_world (w : World) :
  snd (getDistance w)
  = mkWorld (clock w + 50) (scale_ready w) (ready_calls w)
      (scale_units w) (units_calls w) (sonar_echo w) (ping_calls w + 5)
      (sonar_cm w) (button_low w) (button_calls w) (wifi_up w)
      (wifi_calls w) (webConnected w) (relay w) (trace w).
Proof.
  unfold getDistance.
  pose proof (ping_loop_world PING_SAMPLES 0 0 w) as H.
  destruct (ping_loop PING_SAMPLES 0 0 w) as [[total valid] w'].
  cbn [snd] in H. destruct (valid =? 0); cbn [snd]; exact H.
Qed.

Lemma ping_loop_with_relay (n : nat) (level : bool) :
  forall (total valid : Z) (w : World),
    fst (ping_loop n total valid (with_relay level w))
    = fst (ping_loop n total valid w).
Proof.
  induction n as [|n IH]; intros total valid w.
  - reflexivity.
  - cbn [ping_loop ping with_relay sonar_echo ping_calls sonar_cm].
    destruct (0 <? u32 (sonar_echo w (ping_calls w))); apply (IH _ _ (delay 10 (snd (ping w)))).
Qed.

Lemma getDistance_with_relay (level : bool) (w : World) :
  fst (getDistance (with_relay level w)) = fst (getDistance w).
Proof.
  unfold getDistance.
  pose proof (ping_loop_with_relay PING_SAMPLES level 0 0 w) as H.
  destruct (ping_loop PING_SAMPLES 0 0 (with_relay level w))
    as [[total valid] w1].
  destruct (ping_loop PING_SAMPLES 0 0 w) as [[total' valid'] w2].
  cbn [fst] in H. injection H as -> ->.
  destruct (valid' =? 0); reflexivity.
Qed.

Lemma nonBlockingWait_3000 (fuel : nat) (w : World) :
  (301 <= fuel)%nat -> nonBlockingWait fuel 3000 0 w = Some (delay 3000 w).
Proof. intros H. rewrite nonBlockingWait_plain by lia. reflexivity. Qed.

Lemma nonBlockingWait_2000 (fuel : nat) (w : World) :
  (301 <= fuel)%nat -> nonBlockingWait fuel 2000 0 w = Some (delay 2000 w).
Proof. intros H. rewrite nonBlockingWait_plain by lia. reflexivity. Qed.

Ltac split_ifs :=
  repeat match goal with
         | |- context [if ?b then _ else _] => destruct b eqn:?
         end.

(** The sensor-error path of CHECK_WATER. *)
Lemma check_water_error
    (fuel : nat) (now : Z) (s : Water.WaterStatics) (w : World) :
  (301 <= fuel)%nat ->
  Water.out_of_range (fst (getDistance w)) = true ->
  Water.check_water fuel now s w
  = Some (s, delay 3000
               (lcd_print (Lit "Check ultrasonic")
                  (lcd_print (Lit "Sensor Error") (snd (getDistance w))))).
Proof.
  intros Hfuel Hout. unfold Water.check_water.
  destruct (getDistance w) as [d w1]. cbn [fst snd] in *.
  rewrite Hout. unfold INFO_DISPLAY_TIME.
  rewrite nonBlockingWait_3000 by exact Hfuel. reflexivity.
Qed.

(** *** Frame of the network and display helpers *)

Lemma wifi_connected_frame (w : World) :
  relay (snd (wifi_connected w)) = relay w /\
  trace (snd (wifi_connected w)) = trace w /\
  webConnected (snd (wifi_connected w)) = webConnected w.
Proof. repeat split. Qed.

Lemma isWebConnected_frame (w : World) :
  relay (snd (isWebConnected w)) = relay w /\
  trace (snd (isWebConnected w)) = trace w /\
  webConnected (snd (isWebConnected w)) = webConnected w /\
  (fst (isWebConnected w) = true -> webConnected w = true).
Proof.
  unfold isWebConnected. destruct (webConnected w) eqn:H.
  - repeat split; assumption.
  - repeat split; try assumption. cbn. discriminate.
Qed.

Lemma wifi_and_web_frame (w : World) :
  relay (snd (Water.wifi_and_web w)) = relay w /\
  trace (snd (Water.wifi_and_web w)) = trace w /\
  webConnected (snd (Water.wifi_and_web w)) = webConnected w /\
  (fst (Water.wifi_and_web w) = true -> webConnected w = true).
Proof.
  unfold Water.wifi_and_web.
  destruct (wifi_connected w) as [up w1] eqn:E.
  pose proof (wifi_connected_frame w) as (R1 & T1 & C1).
  rewrite E in R1, T1, C1. cbn [snd] in R1, T1, C1.
  destruct up.
  - pose proof (isWebConnected_frame w1) as (R2 & T2 & C2 & F2).
    repeat split; try congruence. intros H. rewrite <- C1. auto.
  - repeat split; try assumption. cbn. discriminate.
Qed.

Lemma updateWaterStatus_frame (status : string) (level : F32.t) (w : World) :
  relay (updateWaterStatus status level w) = relay w /\
  relay_writes (trace (updateWaterStatus status level w))
  = relay_writes (trace w) /\
  (webConnected w = true ->
   trace (updateWaterStatus status level w)
   = NetWaterStatus status level :: trace w).
Proof.
  unfold updateWaterStatus. destruct (webConnected w).
  - repeat split.
  - repeat split. discriminate.
Qed.

(** The low-water path of CHECK_WATER: the state and both timestamps
    change; nothing is written to the relay. *)
Lemma check_water_low
    (fuel : nat) (now : Z) (s : Water.WaterStatics) (w : World) :
  low_water w ->
  exists w',
    Water.check_water fuel now s w
    = Some (Water.mkStatics Water.REFILL_RUNNING now now, w') /\
    relay w' = relay w /\
    relay_writes (trace w') = relay_writes (trace w).
Proof.
  intros [Hin Hlow]. unfold Water.check_water.
  pose proof (getDistance_world w) as Hw1.
  destruct (getDistance w) as [d w1]. cbn [fst snd] in *.
  rewrite Hin, Hlow.
  assert (R1 : relay w1 = relay w) by (rewrite Hw1; reflexivity).
  assert (T1 : trace w1 = trace w) by (rewrite Hw1; reflexivity).
  clear Hw1.
  pose proof (wifi_and_web_frame w1) as (R2 & T2 & _).
  destruct (Water.wifi_and_web w1) as [c w2]. cbn [snd] in R2, T2.
  set (w3 := if c then updateWaterStatus _ _ w2 else w2).
  assert (H3 : relay w3 = relay w /\
               relay_writes (trace w3) = relay_writes (trace w)).
  { subst w3. destruct c.
    - pose proof (updateWaterStatus_frame "low" (Water.water_percentage
                    (Water.water_height d)) w2) as (R & T & _).
      split; congruence.
    - split; congruence. }
  destruct H3 as [R3 T3]. clearbody w3.
  set (w4 := lcd_print _ (lcd_print _ (emit _ w3))).
  assert (H4 : relay w4 = relay w /\
               relay_writes (trace w4) = relay_writes (trace w)).
  { subst w4. split; [exact R3 | exact T3]. }
  destruct H4 as [R4 T4]. clearbody w4.
  pose proof (wifi_and_web_frame w4) as (R5 & T5 & _).
  destruct (Water.wifi_and_web w4) as [c' w5]. cbn [snd] in R5, T5.
  eexists. split; [reflexivity|].
  destruct c'.
  - pose proof (updateWaterStatus_frame "refilling"
                  (Water.water_percentage (Water.water_height d)) w5)
      as (R & T & _).
    cbn [lcd_print emit relay trace relay_writes]. split; congruence.
  - cbn [lcd_print emit relay trace relay_writes]. split; congruence.
Qed.

(** The water-ok path of CHECK_WATER: the static variables stay, the relay
    is not written, the level is shown, and the "ok" status goes out when
    the link is up. *)
Lemma check_water_ok
    (fuel : nat) (now : Z) (s : Water.WaterStatics) (w : World) :
  Water.out_of_range (fst (getDistance w)) = false ->
  Water.is_critical (Water.water_height (fst (getDistance w))) = false ->
  exists w',
    Water.check_water fuel now s w = Some (s, w') /\
    relay w' = relay w /\
    relay_writes (trace w') = relay_writes (trace w) /\
    In (LcdPrint
          (Fmt "OK %.1fcm (%d%%)"
             [ArgFloat (Water.water_height (fst (getDistance w)));
              ArgTrunc (Water.water_percentage
                          (Water.water_height (fst (getDistance w))))]))
       (trace w') /\
    (fst (Water.wifi_and_web (snd (getDistance w))) = true ->
     In (NetWaterStatus "ok"
           (Water.water_percentage
              (Water.water_height (fst (getDistance w))))) (trace w')).
Proof.
  intros Hin Hok. unfold Water.check_water.
  pose proof (getDistance_world w) as Hw1.
  destruct (getDistance w) as [d w1]. cbn [fst snd] in *.
  rewrite Hin, Hok.
  assert (R1 : relay w1 = relay w) by (rewrite Hw1; reflexivity).
  assert (T1 : trace w1 = trace w) by (rewrite Hw1; reflexivity).
  clear Hw1.
  pose proof (wifi_and_web_frame w1) as (R2 & T2 & C2 & F2).
  destruct (Water.wifi_and_web w1) as [c w2]. cbn [fst snd] in R2, T2, C2, F2.
  eexists. split; [reflexivity|].
  pose proof (updateWaterStatus_frame "ok"
                (Water.water_percentage (Water.water_height d)) w2)
    as (R & T & E).
  unfold progressBar, lcd_print.
  cbn [emit relay trace relay_writes In].
  destruct c.
  - rewrite E by (rewrite C2; auto). cbn [relay_writes In].
    split; [congruence|]. split; [congruence|].
    split; [right; left; reflexivity|].
    intros _. do 4 right. left. reflexivity.
  - split; [congruence|]. split; [congruence|].
    split; [right; left; reflexivity|].
    cbn. discriminate.
Qed.

Lemma print_dots_frame (n : nat) :
  forall w : World,
    relay (Water.print_dots n w) = relay w /\
    relay_writes (trace (Water.print_dots n w)) = relay_writes (trace w).
Proof.
  induction n as [|n IH]; intros w.
  - split; reflexivity.
  - cbn [Water.print_dots]. destruct (IH (lcd_print (Lit ".") w)) as [R T].
    rewrite R, T. split; reflexivity.
Qed.

(** REFILL_RUNNING: nothing but the display changes before REFILL_DURATION
    has passed; then the relay is switched off and COOLDOWN entered. *)
Lemma refill_running_spec (now : Z) (s : Water.WaterStatics) (w : World) :
  let (s', w') := Water.refill_running now s w in
  if REFILL_DURATION <=? u32 (now - Water.stateStartTime s) then
    Water.state s' = Water.COOLDOWN /\ Water.stateStartTime s' = now /\
    relay w' = false /\
    relay_writes (trace w') = false :: relay_writes (trace w)
  else
    Water.state s' = Water.state s /\
    Water.stateStartTime s' = Water.stateStartTime s /\
    relay w' = relay w /\
    relay_writes (trace w') = relay_writes (trace w).
Proof.
  unfold Water.refill_running.
  set (shown := if 200 <=? u32 (now - Water.lastDisplayUpdate s)
                then _ else (s, w)).
  assert (H : Water.state (fst shown) = Water.state s /\
              Water.stateStartTime (fst shown) = Water.stateStartTime s /\
              relay (snd shown) = relay w /\
              relay_writes (trace (snd shown)) = relay_writes (trace w)).
  { subst shown. destruct (200 <=? u32 (now - Water.lastDisplayUpdate s));
      [|repeat split].
    cbn [fst snd Water.state Water.stateStartTime lcd_print emit relay trace
         relay_writes].
    destruct (print_dots_frame
                (Z.to_nat (u32 (now - Water.stateStartTime s) / 1000 mod 3 + 1))
                (lcd_print (Lit "   ") w)) as [R T].
    rewrite R, T. repeat split. }
  destruct shown as [s1 w1]. cbn [fst snd] in H.
  destruct H as (H1 & H2 & H3 & H4). rewrite H2.
  destruct (REFILL_DURATION <=? u32 (now - Water.stateStartTime s)).
  - pose proof (isWebConnected_frame (relay_write false w1))
      as (R & T & _).
    destruct (isWebConnected (relay_write false w1)) as [c w2].
    cbn [snd] in R, T.
    pose proof (updateWaterStatus_frame "cooldown" (F32.of_Z 100) w2)
      as (R' & T' & _).
    cbn [relay_write relay trace] in R, T.
    destruct c;
      cbn [lcd_print emit relay trace relay_writes Water.state
           Water.stateStartTime];
      repeat split; try congruence.
    + rewrite T', T. cbn [relay_writes]. congruence.
    + rewrite T. cbn [relay_writes]. congruence.
  - repeat split; assumption.
Qed.

(** COOLDOWN: the sensor is not read and the relay not written; the state
    changes only once COOLDOWN_PERIOD has passed. *)
Lemma cooldown_spec (now : Z) (s : Water.WaterStatics) (w : World) :
  let (s', w') := Water.cooldown now s w in
  relay w' = relay w /\
  relay_writes (trace w') = relay_writes (trace w) /\
  ping_calls w' = ping_calls w /\
  if COOLDOWN_PERIOD <=? u32 (now - Water.stateStartTime s) then
    Water.state s' = Water.CHECK_WATER
  else
    Water.state s' = Water.state s /\
    Water.stateStartTime s' = Water.stateStartTime s.
Proof.
  unfold Water.cooldown.
  set (shown := if Water.DISPLAY_UPDATE_INTERVAL <=?
                   u32 (now - Water.lastDisplayUpdate s)
                then _ else (s, w)).
  assert (H : Water.state (fst shown) = Water.state s /\
              Water.stateStartTime (fst shown) = Water.stateStartTime s /\
              relay (snd shown) = relay w /\
              relay_writes (trace (snd shown)) = relay_writes (trace w) /\
              ping_calls (snd shown) = ping_calls w).
  { subst shown.
    destruct (Water.DISPLAY_UPDATE_INTERVAL <=?
                u32 (now - Water.lastDisplayUpdate s)).
    - cbn [fst snd Water.state Water.stateStartTime].
      destruct (COOLDOWN_PERIOD <? u32 (now - Water.stateStartTime s));
        [repeat split|].
      destruct (_ <? 10); repeat split.
    - repeat split. }
  destruct shown as [s1 w1]. cbn [fst snd] in H.
  destruct H as (H1 & H2 & H3 & H4 & H5). rewrite H2.
  destruct (COOLDOWN_PERIOD <=? u32 (now - Water.stateStartTime s)).
  - pose proof (isWebConnected_frame w1) as (R & T & _).
    assert (P : ping_calls (snd (isWebConnected w1)) = ping_calls w1).
    { unfold isWebConnected. destruct (webConnected w1); reflexivity. }
    destruct (isWebConnected w1) as [c w2]. cbn [snd] in R, T, P.
    pose proof (updateWaterStatus_frame "ready" (F32.of_Z 100) w2)
      as (R' & T' & _).
    assert (P' : ping_calls (updateWaterStatus "ready" (F32.of_Z 100) w2)
                 = ping_calls w2).
    { unfold updateWaterStatus. destruct (webConnected w2); reflexivity. }
    destruct c;
      cbn [emit relay trace relay_writes ping_calls Water.state];
      repeat split; congruence.
  - repeat split; assumption.
Qed.

(** One call in REFILL_RUNNING, [entered] being the time the state was
    entered. *)
Lemma call_refill_running
    (fuel : nat) (s : Water.WaterStatics) (level : bool) (w : World)
    (entered : Z) :
  Water.state s = Water.REFILL_RUNNING ->
  Water.stateStartTime s = u32 entered ->
  0 <= clock w - entered < 2 ^ 32 ->
  exists s' w',
    Water.checkWaterLevel fuel s (with_relay level w) = Some (s', w') /\
    if REFILL_DURATION <=? clock w - entered then
      Water.state s' = Water.COOLDOWN /\
      Water.stateStartTime s' = u32 (clock w) /\ relay w' = false
    else
      Water.state s' = Water.REFILL_RUNNING /\
      Water.stateStartTime s' = u32 entered /\ relay w' = level.
Proof.
  intros Hstate Hstart Htime. unfold Water.checkWaterLevel. rewrite Hstate.
  pose proof (refill_running_spec (millis (with_relay level w)) s
                (with_relay level w)) as H.
  destruct (Water.refill_running _ s _) as [s' w'].
  exists s', w'. split; [reflexivity|].
  rewrite Hstart in H.
  change (millis (with_relay level w)) with (millis w) in H.
  rewrite elapsed_exact in H by exact Htime.
  destruct (REFILL_DURATION <=? clock w - entered).
  - destruct H as (H1 & H2 & H3 & _). auto.
  - destruct H as (H1 & H2 & H3 & _). rewrite H1, H2, H3. auto.
Qed.

(** One call in COOLDOWN. *)
Lemma call_cooldown
    (fuel : nat) (s : Water.WaterStatics) (level : bool) (w : World)
    (entered : Z) :
  Water.state s = Water.COOLDOWN ->
  Water.stateStartTime s = u32 entered ->
  0 <= clock w - entered < 2 ^ 32 ->
  exists s' w',
    Water.checkWaterLevel fuel s (with_relay level w) = Some (s', w') /\
    relay w' = level /\
    ping_calls w' = ping_calls w /\
    if COOLDOWN_PERIOD <=? clock w - entered then
      Water.state s' = Water.CHECK_WATER
    else
      Water.state s' = Water.COOLDOWN /\
      Water.stateStartTime s' = u32 entered.
Proof.
  intros Hstate Hstart Htime. unfold Water.checkWaterLevel. rewrite Hstate.
  pose proof (cooldown_spec (millis (with_relay level w)) s
                (with_relay level w)) as H.
  destruct (Water.cooldown _ s _) as [s' w'].
  exists s', w'. split; [reflexivity|].
  rewrite Hstart in H.
  change (millis (with_relay level w)) with (millis w) in H.
  rewrite elapsed_exact in H by exact Htime.
  destruct H as (H1 & _ & H3 & H4).
  split; [exact H1|]. split; [exact H3|].
  destruct (COOLDOWN_PERIOD <=? clock w - entered).
  - exact H4.
  - destruct H4 as [H4 H5]. rewrite H4, H5. auto.
Qed.

(** One call in CHECK_WATER on low water. *)
Lemma call_check_low
    (fuel : nat) (s : Water.WaterStatics) (level : bool) (w : World) :
  Water.state s = Water.CHECK_WATER ->
  low_water w ->
  exists w',
    Water.checkWaterLevel fuel s (with_relay level w)
    = Some (Water.mkStatics Water.REFILL_RUNNING (millis w) (millis w), w') /\
    relay w' = level.
Proof.
  intros Hstate [Hin Hlow]. unfold Water.checkWaterLevel. rewrite Hstate.
  destruct (check_water_low fuel (millis (with_relay level w)) s
              (with_relay level w)) as (w' & Hrun & Hrelay & _).
  - split; rewrite getDistance_with_relay; assumption.
  - exists w'. split; [exact Hrun | exact Hrelay].
Qed.

(** Any number of calls before REFILL_DURATION has passed stay in
    REFILL_RUNNING. *)
Lemma calls_while_refilling (fuel : nat) (entered : Z) (rest : list World) :
  forall (refilling : list World) (s : Water.WaterStatics) (level : bool),
    Water.state s = Water.REFILL_RUNNING ->
    Water.stateStartTime s = u32 entered ->
    Forall (fun w => 0 <= clock w - entered < REFILL_DURATION) refilling ->
    exists history s',
      water_calls fuel s level (refilling ++ rest)
      = option_map (app history) (water_calls fuel s' level rest) /\
      states_of history
      = repeat Water.REFILL_RUNNING (List.length refilling) /\
      Water.state s' = Water.REFILL_RUNNING /\
      Water.stateStartTime s' = u32 entered.
Proof.
  induction refilling as [|w refilling IH]; intros s level Hstate Hstart Hall.
  - exists [], s. cbn [app]. split; [|auto].
    destruct (water_calls fuel s level rest); reflexivity.
  - inversion Hall as [|? ? Hw Hrest]; subst.
    destruct (call_refill_running fuel s level w entered Hstate Hstart)
      as (s1 & w1 & Hcall & Hafter).
    { unfold REFILL_DURATION in Hw. lia. }
    replace (REFILL_DURATION <=? clock w - entered) with false in Hafter
      by (symmetry; apply Z.leb_gt; lia).
    destruct Hafter as (Hs1 & Ht1 & Hr1).
    destruct (IH s1 level Hs1 Ht1 Hrest) as (history & s' & Hrun & Hh & Hs').
    exists ((s1, level) :: history), s'.
    cbn [app water_calls]. rewrite Hcall, Hr1, Hrun.
    split; [|split; [|exact Hs']].
    + destruct (water_calls fuel s' level rest); reflexivity.
    + cbn. rewrite Hs1. f_equal. exact Hh.
Qed.

(** Any number of calls before COOLDOWN_PERIOD has passed stay in COOLDOWN
    and leave the relay as it is, whatever the sensors would say. *)
Lemma calls_while_cooling (fuel : nat) (entered : Z) (rest : list World) :
  forall (cooling : list World) (s : Water.WaterStatics) (level : bool),
    Water.state s = Water.COOLDOWN ->
    Water.stateStartTime s = u32 entered ->
    Forall (fun w => 0 <= clock w - entered < COOLDOWN_PERIOD) cooling ->
    exists history s',
      water_calls fuel s level (cooling ++ rest)
      = option_map (app history) (water_calls fuel s' level rest) /\
      history = map (fun p => (fst p, level)) history /\
      states_of history = repeat Water.COOLDOWN (List.length cooling) /\
      Water.state s' = Water.COOLDOWN /\
      Water.stateStartTime s' = u32 entered.
Proof.
  induction cooling as [|w cooling IH]; intros s level Hstate Hstart Hall.
  - exists [], s. cbn [app]. split; [|auto].
    destruct (water_calls fuel s level rest); reflexivity.
  - inversion Hall as [|? ? Hw Hrest]; subst.
    destruct (call_cooldown fuel s level w entered Hstate Hstart)
      as (s1 & w1 & Hcall & Hr1 & _ & Hafter).
    { unfold COOLDOWN_PERIOD in Hw. lia. }
    replace (COOLDOWN_PERIOD <=? clock w - entered) with false in Hafter
      by (symmetry; apply Z.leb_gt; lia).
    destruct Hafter as (Hs1 & Ht1).
    destruct (IH s1 level Hs1 Ht1 Hrest)
      as (history & s' & Hrun & Hlevel & Hh & Hs').
    exists ((s1, level) :: history), s'.
    cbn [app water_calls]. rewrite Hcall, Hr1, Hrun.
    split; [|split; [|split; [|exact Hs']]].
    + destruct (water_calls fuel s' level rest); reflexivity.
    + cbn [map fst]. f_equal. exact Hlevel.
    + cbn. rewrite Hs1. f_equal. exact Hh.
Qed.

Lemma refilling_is_not_cooldown (n : nat) :
  forall history : list (Water.WaterStatics * bool),
    states_of history = repeat Water.REFILL_RUNNING n ->
    Forall off_in_cooldown history.
Proof.
  induction n as [|n IH]; intros [|p history] H; try discriminate.
  - constructor.
  - cbn in H. injection H as Hp Hrest. constructor.
    + unfold off_in_cooldown. rewrite Hp. discriminate.
    + apply IH. exact Hrest.
Qed.

Lemma level_off_in_cooldown (history : list (Water.WaterStatics * bool)) :
  history = map (fun p => (fst p, false)) history ->
  Forall off_in_cooldown history.
Proof.
  induction history as [|p history IH]; intros H.
  - constructor.
  - cbn [map] in H. injection H as Hp Hrest. constructor.
    + unfold off_in_cooldown. intros _. rewrite Hp. reflexivity.
    + apply IH. exact Hrest.
Qed.

(** Every call keeps the state or moves it one step round the cycle. *)
Lemma checkWaterLevel_cycle_next
    (fuel : nat) (s s' : Water.WaterStatics) (w w' : World) :
  Water.checkWaterLevel fuel s w = Some (s', w') ->
  cycle_next (Water.state s) (Water.state s').
Proof.
  unfold Water.checkWaterLevel.
  destruct (Water.state s) eqn:Hstate; cbn [cycle_next].
  - unfold Water.check_water. destruct (getDistance w) as [d w1].
    destruct (Water.out_of_range d).
    + destruct (nonBlockingWait fuel INFO_DISPLAY_TIME 0 _); [|discriminate].
      intros H. injection H as <- _. left. exact Hstate.
    + destruct (Water.wifi_and_web w1) as [c w2].
      destruct (Water.is_critical (Water.water_height d)).
      * destruct (Water.wifi_and_web _) as [c' w3].
        intros H. injection H as <- _. right. reflexivity.
      * intros H. injection H as <- _. left. exact Hstate.
  - pose proof (refill_running_spec (millis w) s w) as H.
    destruct (Water.refill_running (millis w) s w) as [s1 w1].
    intros E. injection E as <- _.
    destruct (REFILL_DURATION <=? _).
    + right. apply H.
    + left. destruct H as [H _]. rewrite H. exact Hstate.
  - pose proof (cooldown_spec (millis w) s w) as H.
    destruct (Water.cooldown (millis w) s w) as [s1 w1].
    intros E. injection E as <- _.
    destruct H as (_ & _ & _ & H). destruct (COOLDOWN_PERIOD <=? _).
    + right. exact H.
    + left. destruct H as [H _]. rewrite H. exact Hstate.
Qed.

(** C6: from CHECK_WATER on low water the machine enters REFILL_RUNNING;
    calls made before REFILL_DURATION has passed stay there; the first call
    after it switches the relay off and enters COOLDOWN; calls made before
    COOLDOWN_PERIOD has passed stay in COOLDOWN with the relay off, whatever
    the sensor would report; the first call after it returns to CHECK_WATER,
    and a low reading then starts REFILL_RUNNING again.  No call ever moves
    the state other than one step round CHECK_WATER, REFILL_RUNNING,
    COOLDOWN. *)
Theorem water_cycle
    (fuel : nat) (s0 : Water.WaterStatics) (level0 : bool)
    (w0 : World) (refilling : list World) (w1 : World)
    (cooling : list World) (w2 w3 : World) :
  Water.state s0 = Water.CHECK_WATER ->
  low_water w0 ->
  Forall (fun w => 0 <= clock w - clock w0 < REFILL_DURATION) refilling ->
  REFILL_DURATION <= clock w1 - clock w0 < 2 ^ 32 ->
  Forall (fun w => 0 <= clock w - clock w1 < COOLDOWN_PERIOD) cooling ->
  COOLDOWN_PERIOD <= clock w2 - clock w1 < 2 ^ 32 ->
  low_water w3 ->
  (exists history,
      water_calls fuel s0 level0
        (w0 :: refilling ++ w1 :: cooling ++ [w2; w3]) = Some history /\
      states_of history
      = Water.REFILL_RUNNING
          :: repeat Water.REFILL_RUNNING (List.length refilling)
          ++ Water.COOLDOWN
          :: repeat Water.COOLDOWN (List.length cooling)
          ++ [Water.CHECK_WATER; Water.REFILL_RUNNING] /\
      Forall off_in_cooldown history) /\
  (forall f s s' w w',
      Water.checkWaterLevel f s w = Some (s', w') ->
      cycle_next (Water.state s) (Water.state s')).
Proof.
  intros Hs0 Hlow0 Hrefilling Hw1 Hcooling Hw2 Hlow3.
  split; [|intros; eapply checkWaterLevel_cycle_next; eassumption].
  destruct (call_check_low fuel s0 level0 w0 Hs0 Hlow0) as (w0' & Hc0 & Hr0).
  set (s1 := Water.mkStatics Water.REFILL_RUNNING (millis w0) (millis w0))
    in Hc0.
  destruct (calls_while_refilling fuel (clock w0)
              (w1 :: cooling ++ [w2; w3]) refilling s1 level0
              eq_refl eq_refl Hrefilling)
    as (h1 & s1' & Hrun1 & Hh1 & Hs1' & Ht1').
  destruct (call_refill_running fuel s1' level0 w1 (clock w0) Hs1' Ht1')
    as (s2 & w1' & Hc1 & Hafter1).
  { unfold REFILL_DURATION in Hw1. lia. }
  replace (REFILL_DURATION <=? clock w1 - clock w0) with true in Hafter1
    by (symmetry; apply Z.leb_le; lia).
  destruct Hafter1 as (Hs2 & Ht2 & Hr1).
  destruct (calls_while_cooling fuel (clock w1) [w2; w3] cooling s2 false
              Hs2 Ht2 Hcooling)
    as (h2 & s2' & Hrun2 & Hlevel2 & Hh2 & Hs2' & Ht2').
  destruct (call_cooldown fuel s2' false w2 (clock w1) Hs2' Ht2')
    as (s3 & w2' & Hc2 & Hr2 & _ & Hafter2).
  { unfold COOLDOWN_PERIOD in Hw2. lia. }
  replace (COOLDOWN_PERIOD <=? clock w2 - clock w1) with true in Hafter2
    by (symmetry; apply Z.leb_le; lia).
  destruct (call_check_low fuel s3 false w3 Hafter2 Hlow3)
    as (w3' & Hc3 & Hr3).
  set (s4 := Water.mkStatics Water.REFILL_RUNNING (millis w3) (millis w3))
    in Hc3.
  exists ((s1, level0) :: h1 ++ (s2, false) :: h2
          ++ [(s3, false); (s4, false)]).
  split; [|split].
  - cbn [water_calls]. rewrite Hc0, Hr0, Hrun1.
    cbn [water_calls]. rewrite Hc1, Hr1, Hrun2.
    cbn [water_calls]. rewrite Hc2, Hr2, Hc3, Hr3.
    reflexivity.
  - unfold states_of in *. cbn [map fst Water.state].
    rewrite map_app. cbn [map fst]. rewrite map_app.
    cbn [map fst]. rewrite Hh1, Hh2, Hs2, Hafter2. reflexivity.
  - constructor; [unfold off_in_cooldown; cbn; discriminate|].
    apply Forall_app. split.
    + eapply refilling_is_not_cooldown. exact Hh1.
    + constructor; [intros _; reflexivity|].
      apply Forall_app. split.
      * apply level_off_in_cooldown. exact Hlevel2.
      * repeat constructor.
Qed.

(** C6 on a run of seven calls with the sonar reading 18 cm (1 cm of water)
    all along: low water at 1 s, a call at 6 s, the end of the refill at
    11.05 s, two calls during the cooldown, its end at 311.05 s and a new
    refill at 321.05 s. *)
Lemma water_cycle_witness :
  (exists history,
      water_calls 0 Water.water_init false
        (sonar_world 1000 18
           :: [sonar_world 6000 18]
           ++ sonar_world 11050 18
           :: [sonar_world 21050 18; sonar_world 300000 18]
           ++ [sonar_world 311050 18; sonar_world 321050 18])
      = Some history /\
      states_of history
      = Water.REFILL_RUNNING
          :: repeat Water.REFILL_RUNNING 1
          ++ Water.COOLDOWN
          :: repeat Water.COOLDOWN 2
          ++ [Water.CHECK_WATER; Water.REFILL_RUNNING] /\
      Forall off_in_cooldown history) /\
  (forall f s s' w w',
      Water.checkWaterLevel f s w = Some (s', w') ->
      cycle_next (Water.state s) (Water.state s')).
Proof.
  apply (water_cycle 0 Water.water_init false
           (sonar_world 1000 18) [sonar_world 6000 18]
           (sonar_world 11050 18)
           [sonar_world 21050 18; sonar_world 300000 18]
           (sonar_world 311050 18) (sonar_world 321050 18)).
  - reflexivity.
  - split; vm_compute; reflexivity.
  - repeat constructor; unfold REFILL_DURATION; cbn [clock sonar_world]; lia.
  - unfold REFILL_DURATION; cbn [clock sonar_world]; lia.
  - repeat constructor; unfold COOLDOWN_PERIOD; cbn [clock sonar_world]; lia.
  - unfold COOLDOWN_PERIOD; cbn [clock sonar_world]; lia.
  - split; vm_compute; reflexivity.
Defined.

(** C9: in CHECK_WATER a distance that is <= 0 or > 400 makes the call
    print the sensor error and return with the static variables (state,
    stateStartTime, lastDisplayUpdate) and the relay as they were; nothing
    is written to the relay. *)
Theorem sensor_error_changes_nothing
    (fuel : nat) (s : Water.WaterStatics) (w : World) :
  Water.state s = Water.CHECK_WATER ->
  F32.leb (fst (getDistance w)) (F32.of_Z 0) = true \/
  F32.gtb (fst (getDistance w)) (F32.of_Z 400) = true ->
  (301 <= fuel)%nat ->
  exists w',
    Water.checkWaterLevel fuel s w = Some (s, w') /\
    relay w' = relay w /\
    relay_writes (trace w') = relay_writes (trace w) /\
    trace w'
    = LcdPrint (Lit "Check ultrasonic") :: LcdPrint (Lit "Sensor Error")
        :: trace w.
Proof.
  intros Hstate Hrange Hfuel.
  assert (Hout : Water.out_of_range (fst (getDistance w)) = true).
  { unfold Water.out_of_range. apply Bool.orb_true_iff. exact Hrange. }
  unfold Water.checkWaterLevel. rewrite Hstate.
  rewrite (check_water_error fuel (millis w) s w Hfuel Hout).
  eexists. split; [reflexivity|].
  rewrite getDistance_world. cbn. repeat split; reflexivity.
Qed.

(** C9 on a sonar without echo (distance 0), from the initial state. *)
Lemma sensor_error_changes_nothing_witness :
  exists w',
    Water.checkWaterLevel 301 Water.water_init (quiet_world 0)
    = Some (Water.water_init, w') /\
    relay w' = relay (quiet_world 0) /\
    relay_writes (trace w') = relay_writes (trace (quiet_world 0)) /\
    trace w'
    = LcdPrint (Lit "Check ultrasonic") :: LcdPrint (Lit "Sensor Error")
        :: trace (quiet_world 0).
Proof.
  apply (sensor_error_changes_nothing 301 Water.water_init (quiet_world 0)).
  - reflexivity.
  - left. vm_compute. reflexivity.
  - lia.
Defined.

(** C7, the worked example: 17.5 cm measured gives 1.5 cm of water, which
    is critical. *)
Lemma water_height_example :
  Water.water_height (F32.lit 35 2) = F32.lit 3 2 /\
  Water.is_critical (F32.lit 3 2) = true.
Proof. split; vm_compute; reflexivity. Qed.

(** C7, what the header does on low water: in CHECK_WATER with the sonar
    at 18 cm (1 cm of water) the call enters REFILL_RUNNING and records the
    time, but the relay stays off and nothing is written to it. *)
Lemma low_water_does_not_drive_relay :
  exists w',
    Water.checkWaterLevel 0 Water.water_init (sonar_world 1000 18)
    = Some (Water.mkStatics Water.REFILL_RUNNING 1000 1000, w') /\
    Water.water_height (fst (getDistance (sonar_world 1000 18)))
    = F32.of_Z 1 /\
    relay w' = false /\
    relay_writes (trace w') = [].
Proof.
  eexists. split; [vm_compute; reflexivity|].
  repeat split; vm_compute; reflexivity.
Qed.

(** ** Ordering of floats *)

Ltac compare_cases :=
  repeat match goal with
         | H : context [Z.compare ?a ?b] |- _ =>
             destruct (Z.compare_spec a b); try discriminate
         | H : context [Pos.compare ?a ?b] |- _ =>
             destruct (Pos.compare_spec a b); try discriminate
         | |- context [Z.compare ?a ?b] =>
             destruct (Z.compare_spec a b)
         | |- context [Pos.compare ?a ?b] =>
             destruct (Pos.compare_spec a b)
         end.

Lemma SFleb_trans (a b c : spec_float) :
  SFleb a b = true -> SFleb b c = true -> SFleb a c = true.
Proof.
  unfold SFleb, SFcompare.
  destruct a as [sa|sa| |sa ma ea], b as [sb|sb| |sb mb eb],
    c as [sc|sc| |sc mc ec];
    try destruct sa; try destruct sb; try destruct sc;
    try reflexivity; try discriminate;
    intros H1 H2; change (Pos.compare_cont Eq) with Pos.compare in *;
    cbn [CompOpp] in *; compare_cases; cbn [CompOpp];
    try reflexivity; try discriminate; try lia.
Qed.

Lemma SFltb_not_leb (a b : spec_float) :
  SFltb a b = true -> SFleb b a = false.
Proof.
  unfold SFltb, SFleb, SFcompare.
  destruct a as [sa|sa| |sa ma ea], b as [sb|sb| |sb mb eb];
    try destruct sa; try destruct sb;
    try reflexivity; try discriminate;
    intros H1; change (Pos.compare_cont Eq) with Pos.compare in *;
    cbn [CompOpp] in *; compare_cases; cbn [CompOpp];
    try reflexivity; try discriminate; try lia.
Qed.

(** [x >= big] fails when [x >= small] fails and [small <= big]. *)
Lemma geb_false_mono (x small big : F32.t) :
  F32.geb x small = false -> F32.leb small big = true ->
  F32.geb x big = false.
Proof.
  unfold F32.geb, F32.leb. intros Hx Hle.
  destruct (SFleb big x) eqn:Hbig; [|reflexivity].
  rewrite (SFleb_trans small big x Hle Hbig) in Hx. discriminate.
Qed.

(** [x >= big] fails when [x < small] and [small <= big]. *)
Lemma ltb_geb_false (x small big : F32.t) :
  F32.ltb x small = true -> F32.leb small big = true ->
  F32.geb x big = false.
Proof.
  intros Hx Hle. apply geb_false_mono with (small := small); [|exact Hle].
  unfold F32.geb. apply SFltb_not_leb. exact Hx.
Qed.

(** ** The clock and the scale along the dispense loop *)

Lemma evolves_refl (w : World) : evolves 0 0 w w.
Proof. unfold evolves, same_scale. repeat split; lia. Qed.

Lemma evolves_trans (a b c d : Z) (w1 w2 w3 : World) :
  evolves a b w1 w2 -> evolves c d w2 w3 -> evolves (a + c) (b + d) w1 w3.
Proof.
  unfold evolves, same_scale.
  intros [H1 [R1 U1]] [H2 [R2 U2]].
  repeat split; try lia; congruence.
Qed.

Lemma evolves_weaken (a b a' b' : Z) (w w' : World) :
  evolves a b w w' -> a' <= a -> b <= b' -> evolves a' b' w w'.
Proof. unfold evolves. intros [H S] Ha Hb. split; [lia | exact S]. Qed.

Lemma same_scale_trans (w1 w2 w3 : World) :
  same_scale w1 w2 -> same_scale w2 w3 -> same_scale w1 w3.
Proof. unfold same_scale. intros [A B] [C D]. split; congruence. Qed.

Lemma settle_loop_evolves (n : nat) :
  forall (i samples : Z) (acc : F32.t) (valid : Z) (w : World),
    evolves 0 (100 * Z.of_nat n) w
      (snd (Feeding.settle_loop n i samples acc valid w)).
Proof.
  induction n as [|n IH]; intros i samples acc valid w.
  - apply evolves_refl.
  - cbn [Feeding.settle_loop is_ready].
    destruct (scale_ready w (ready_calls w)).
    + cbn [get_units]. eapply evolves_weaken.
      * eapply evolves_trans; [|apply IH].
        instantiate (2 := 100). instantiate (1 := 100).
        unfold evolves, same_scale. cbn. repeat split; lia.
      * lia.
      * lia.
    + eapply evolves_weaken.
      * eapply evolves_trans; [|apply IH].
        instantiate (2 := 0). instantiate (1 := 0).
        unfold evolves, same_scale. cbn. repeat split; lia.
      * lia.
      * lia.
Qed.

Lemma measureSettledWeight_evolves (w : World) :
  evolves 0 500 w (snd (Feeding.measureSettledWeight 5 2 w)).
Proof.
  unfold Feeding.measureSettledWeight.
  pose proof (settle_loop_evolves 5 0 2 F32.zero 0 w) as H.
  change (Z.to_nat 5) with 5%nat.
  destruct (Feeding.settle_loop 5 0 2 F32.zero 0 w) as [[acc valid] w'].
  cbn [snd] in H. destruct (0 <? valid); exact H.
Qed.

Lemma recover_evolves (n : nat) :
  forall w : World, evolves 0 (100 * Z.of_nat n) w (snd (Feeding.recover n w)).
Proof.
  induction n as [|n IH]; intros w.
  - apply evolves_refl.
  - cbn [Feeding.recover is_ready delay scale_ready ready_calls].
    destruct (scale_ready w (ready_calls w)).
    + unfold evolves, same_scale. cbn -[Z.mul Z.of_nat]. repeat split; lia.
    + eapply evolves_weaken.
      * eapply evolves_trans; [|apply IH].
        instantiate (2 := 100). instantiate (1 := 100).
        unfold evolves, same_scale. cbn. repeat split; lia.
      * lia.
      * lia.
Qed.

(** ** The blocks of the loop body *)

Ltac world_simpl :=
  cbn [clock scale_ready scale_units ready_calls units_calls trace relay
       delay emit lcd_print servo_write is_ready get_units fst snd
       servo_writes lcd_lines hd_error
       Feeding.retryCount Feeding.weightReadings Feeding.readingIndex
       Feeding.currentWeight Feeding.lastDisplayUpdate Feeding.lastWeightRead
       Feeding.targetReached Feeding.preCloseExecuted Feeding.dispensedWeight
       Feeding.stabilityCounter] in *.

Ltac solve_evolves :=
  unfold evolves, same_scale in *; world_simpl;
  repeat match goal with
         | H : _ /\ _ |- _ => destruct H
         end;
  repeat split; try lia; try congruence.

(** The pre-close block: it takes 2 to 5.5 s, leaves stabilityCounter
    alone, raises retryCount by at most one and never past
    FEED_RETRY_TIMEOUT, clears the pre-close flag only on a retry (and then
    the settled amount is below the complete threshold), and sets
    targetReached only on a settled amount that reaches the complete
    threshold or with the retries used up. *)
Lemma pre_close_spec
    (fuel : nat) (initialWeight targetAmount : F32.t)
    (l : Feeding.Locals) (w : World) :
  (301 <= fuel)%nat ->
  exists l' w',
    Feeding.pre_close fuel initialWeight targetAmount l w = Some (l', w') /\
    evolves 2000 5500 w w' /\
    Feeding.stabilityCounter l' = Feeding.stabilityCounter l /\
    Feeding.retryCount l <= Feeding.retryCount l'
      <= Z.max (Feeding.retryCount l) FEED_RETRY_TIMEOUT /\
    (Feeding.preCloseExecuted l' = false ->
     F32.ltb (Feeding.dispensedWeight l')
       (F32.mul targetAmount FEED_COMPLETE_FACTOR) = true /\
     Feeding.targetReached l' = Feeding.targetReached l) /\
    (Feeding.targetReached l' = true ->
     Feeding.targetReached l = true \/
     (exists w_m, same_scale w w_m /\
        F32.geb
          (Feeding.dispensed_since initialWeight
             (fst (Feeding.measureSettledWeight 5 2 w_m)))
          (F32.mul targetAmount FEED_COMPLETE_FACTOR) = true) \/
     (FEED_RETRY_TIMEOUT <= Feeding.retryCount l /\
      Feeding.retryCount l' = Feeding.retryCount l /\
      hd_error (lcd_lines (trace w')) = Some "Warning: Only"%string)).
Proof.
  intros Hfuel. unfold Feeding.pre_close.
  set (w_m := delay SETTLE_FINAL_TIME _).
  assert (Hm : evolves 2000 2000 w w_m).
  { subst w_m. unfold SETTLE_FINAL_TIME. solve_evolves. }
  pose proof (measureSettledWeight_evolves w_m) as Hev.
  destruct (Feeding.measureSettledWeight 5 2 w_m) as [settled w1] eqn:Hmeas.
  cbn [snd] in Hev. clearbody w_m.
  cbn [Feeding.retryCount Feeding.weightReadings Feeding.readingIndex
       Feeding.currentWeight Feeding.lastDisplayUpdate Feeding.lastWeightRead
       Feeding.targetReached Feeding.preCloseExecuted Feeding.dispensedWeight
       Feeding.stabilityCounter].
  unfold QUICK_DISPLAY_TIME, INFO_DISPLAY_TIME.
  rewrite !nonBlockingWait_2000, !nonBlockingWait_3000 by exact Hfuel.
  unfold FEED_RETRY_TIMEOUT.
  destruct (F32.ltb _ _) eqn:Hlt;
    destruct (Feeding.retryCount l <? 2) eqn:Hretry; cbn [andb];
    [ | destruct (F32.geb _ _) eqn:Hge;
        [ | destruct (2 <=? Feeding.retryCount l) eqn:Hmax ] ..];
    try apply Z.ltb_lt in Hretry; try apply Z.ltb_ge in Hretry;
    try apply Z.leb_le in Hmax; try apply Z.leb_gt in Hmax;
    do 2 eexists; (split; [reflexivity|]);
    (split; [solve_evolves|]);
    world_simpl;
    (split; [reflexivity|]); (split; [lia|]);
    (split; [try discriminate; try (intros _; split; [exact Hlt|reflexivity])|]);
    try discriminate; intros Hreached;
    try (left; exact Hreached);
    try (right; left; exists w_m; split;
         [apply Hm | rewrite Hmeas; exact Hge]);
    try (right; right; repeat split; try lia; reflexivity).
Qed.

(** The standard target check: at most the 2 s of the excess message pass;
    retryCount and dispensedWeight stay; from a stabilityCounter of 0 it
    can only go to 1, with the pre-close flag set; targetReached is set
    only with a stabilityCounter of 2 or more, or by the emergency stop. *)
Lemma standard_check_spec
    (fuel : nat) (targetAmount : F32.t) (l : Feeding.Locals) (w : World) :
  (301 <= fuel)%nat ->
  exists l' w',
    Feeding.standard_check fuel targetAmount l w = Some (l', w') /\
    evolves 0 2000 w w' /\
    Feeding.retryCount l' = Feeding.retryCount l /\
    Feeding.dispensedWeight l' = Feeding.dispensedWeight l /\
    (Feeding.stabilityCounter l = 0 ->
     Feeding.stabilityCounter l' = 0 \/
     (Feeding.stabilityCounter l' = 1 /\
      Feeding.preCloseExecuted l' = true)) /\
    (Feeding.targetReached l' = true ->
     Feeding.targetReached l = true \/
     2 <= Feeding.stabilityCounter l \/
     F32.geb (Feeding.dispensedWeight l)
       (F32.mul targetAmount (F32.lit 125 100)) = true).
Proof.
  intros Hfuel. unfold Feeding.standard_check.
  unfold QUICK_DISPLAY_TIME.
  destruct (F32.geb (Feeding.dispensedWeight l) targetAmount) eqn:Hreach;
    [destruct (Feeding.stabilityCounter l <? 2) eqn:Hstable|];
    cbv beta iota; world_simpl;
    rewrite ?nonBlockingWait_2000 by exact Hfuel;
    destruct (F32.geb (Feeding.dispensedWeight l)
                (F32.mul targetAmount (F32.lit 125 100))) eqn:Hexcess;
    try apply Z.ltb_lt in Hstable; try apply Z.ltb_ge in Hstable;
    do 2 eexists; (split; [reflexivity|]);
    (split; [solve_evolves|]);
    world_simpl;
    (split; [reflexivity|]); (split; [reflexivity|]);
    (split; [intros Hzero; try lia; auto|]);
    intros Hreached; auto.
Qed.

Lemma excess_impossible (targetAmount : F32.t) :
  thresholds_ordered targetAmount -> ~ reached_by_excess targetAmount.
Proof.
  intros [Hcal Hcomplete] (d & Hexcess & [Hbelow | Hbelow]).
  - rewrite (geb_false_mono d _ _ Hbelow Hcal) in Hexcess. discriminate.
  - rewrite (ltb_geb_false d _ _ Hbelow Hcomplete) in Hexcess. discriminate.
Qed.

(** One read of the scale and the decisions taken on it. *)
Lemma update_and_check_spec
    (fuel : nat) (initialWeight targetAmount : F32.t)
    (l : Feeding.Locals) (w : World) :
  (301 <= fuel)%nat ->
  feed_invariant l ->
  exists l' w',
    Feeding.update_and_check fuel initialWeight targetAmount l w
    = Some (l', w') /\
    evolves 0 7500 w w' /\
    feed_invariant l' /\
    Feeding.retryCount l <= Feeding.retryCount l' /\
    (Feeding.targetReached l' = true ->
     Feeding.targetReached l = true \/
     reached_how initialWeight targetAmount w l' w').
Proof.
  intros Hfuel [Hretry Hstable]. unfold Feeding.update_and_check.
  cbn [get_units].
  set (w1 := mkWorld _ _ _ _ _ _ _ _ _ _ _ _ _ _ _).
  assert (Hw1 : evolves 0 0 w w1) by (subst w1; solve_evolves).
  clearbody w1.
  set (l1 := Feeding.mkLocals _ _ _ _ _ _ _ _ _ _).
  assert (Hl1 : Feeding.retryCount l1 = Feeding.retryCount l /\
                Feeding.stabilityCounter l1 = Feeding.stabilityCounter l /\
                Feeding.preCloseExecuted l1 = Feeding.preCloseExecuted l /\
                Feeding.targetReached l1 = Feeding.targetReached l)
    by (subst l1; repeat split).
  destruct Hl1 as (Hr1 & Hs1 & Hp1 & Ht1). clearbody l1.
  destruct (Feeding.preCloseExecuted l1) eqn:Hpre; cbn [negb andb].
  - (* pre-close already executed: nothing more happens *)
    rewrite Hpre. cbn [negb].
    do 2 eexists. split; [reflexivity|].
    split; [eapply evolves_weaken; [exact Hw1|lia|lia]|].
    split; [split; [lia|];
            rewrite Hs1; destruct Hstable as [H|[H _]];
            [left; exact H | right; split; [exact H | exact Hpre]]|].
    split; [lia|]. intros H. left. congruence.
  - assert (Hzero : Feeding.stabilityCounter l1 = 0).
    { destruct Hstable as [H|[_ H]]; [congruence|]. congruence. }
    destruct (F32.geb (Feeding.dispensedWeight l1) _) eqn:Hcal.
    + (* the pre-close block runs *)
      destruct (pre_close_spec fuel initialWeight targetAmount l1 w1 Hfuel)
        as (l2 & w2 & Hrun & Hev & Hs2 & Hr2 & Hflag & Hreach).
      rewrite Hrun.
      destruct (Feeding.preCloseExecuted l2) eqn:Hpre2; cbn [negb].
      * do 2 eexists. split; [reflexivity|].
        split; [eapply evolves_weaken;
                [eapply evolves_trans; [exact Hw1 | exact Hev]|lia|lia]|].
        split; [split; [unfold FEED_RETRY_TIMEOUT in *; lia
                       | left; congruence]|].
        split; [lia|]. intros H.
        destruct (Hreach H) as [H'|[H'|H']].
        -- left. congruence.
        -- right. left. destruct H' as (w_m & Hsame & Hge).
           exists w_m. split; [|exact Hge].
           eapply same_scale_trans; [apply Hw1 | exact Hsame].
        -- right. right. left. destruct H' as (Hmax & Hsame & Hshown).
           split; [unfold FEED_RETRY_TIMEOUT in *; lia | exact Hshown].
      * (* a retry: the standard check runs on the settled amount *)
        destruct (standard_check_spec fuel targetAmount l2 w2 Hfuel)
          as (l3 & w3 & Hrun3 & Hev3 & Hr3 & Hd3 & Hs3 & Hreach3).
        rewrite Hrun3. do 2 eexists. split; [reflexivity|].
        split; [eapply evolves_weaken;
                [eapply evolves_trans;
                 [eapply evolves_trans; [exact Hw1 | exact Hev]
                 | exact Hev3]|lia|lia]|].
        split; [split; [unfold FEED_RETRY_TIMEOUT in *; lia
                       | apply Hs3; congruence]|].
        split; [lia|]. intros H.
        destruct (Hreach3 H) as [H'|[H'|H']].
        -- left. destruct (Hflag eq_refl) as [_ Hsame]. congruence.
        -- lia.
        -- right. right. right. exists (Feeding.dispensedWeight l2).
           split; [exact H' | right; apply Hflag; reflexivity].
    + (* below the pre-close threshold: the standard check runs *)
      rewrite Hpre. cbn [negb].
      destruct (standard_check_spec fuel targetAmount l1 w1 Hfuel)
        as (l3 & w3 & Hrun3 & Hev3 & Hr3 & Hd3 & Hs3 & Hreach3).
      rewrite Hrun3. do 2 eexists. split; [reflexivity|].
      split; [eapply evolves_weaken;
              [eapply evolves_trans; [exact Hw1 | exact Hev3]|lia|lia]|].
      split; [split; [lia | apply Hs3; exact Hzero]|].
      split; [lia|]. intros H.
      destruct (Hreach3 H) as [H'|[H'|H']].
      * left. congruence.
      * lia.
      * right. right. right. exists (Feeding.dispensedWeight l1).
        split; [exact H' | left; exact Hcal].
Qed.

(** The weight-read block: either the scale stays dead and the function
    returns with the hatch commanded closed, or one read is taken. *)
Lemma poll_spec
    (fuel : nat) (initialWeight targetAmount : F32.t) (now : Z)
    (l : Feeding.Locals) (w : World) :
  (301 <= fuel)%nat ->
  feed_invariant l ->
  exists flow,
    Feeding.poll fuel initialWeight targetAmount now l w = Some flow /\
    match flow with
    | Feeding.Go l' w' =>
        evolves 0 8000 w w' /\
        feed_invariant l' /\
        Feeding.retryCount l <= Feeding.retryCount l' /\
        (Feeding.targetReached l' = true ->
         Feeding.targetReached l = true \/
         reached_how initialWeight targetAmount w l' w')
    | Feeding.Ret v l' w' =>
        evolves 0 6500 w w' /\
        feed_invariant l' /\
        hd_error (servo_writes (trace w')) = Some SERVO_CLOSE_ANGLE /\
        hd_error (lcd_lines (trace w')) = Some "Closing hatch"%string /\
        v = Feeding.dispensedWeight l
    end.
Proof.
  intros Hfuel Hinv. unfold Feeding.poll.
  set (l0 := Feeding.mkLocals _ _ _ _ now _ _ _ _ _).
  assert (Hinv0 : feed_invariant l0) by exact Hinv.
  assert (Hl0 : Feeding.retryCount l0 = Feeding.retryCount l /\
                Feeding.targetReached l0 = Feeding.targetReached l /\
                Feeding.dispensedWeight l0 = Feeding.dispensedWeight l)
    by (repeat split).
  destruct Hl0 as (Hr0 & Ht0 & Hd0). clearbody l0.
  destruct (is_ready w) as [ready w1] eqn:Hready.
  assert (Hw1 : evolves 0 0 w w1).
  { replace w1 with (snd (is_ready w)) by (rewrite Hready; reflexivity).
    solve_evolves. }
  clear Hready.
  set (checked := if ready then (true, w1) else Feeding.recover 5 w1).
  assert (Hw2 : evolves 0 500 w (snd checked)).
  { subst checked. destruct ready.
    - eapply evolves_weaken; [exact Hw1|lia|lia].
    - eapply evolves_weaken;
        [eapply evolves_trans; [exact Hw1 | apply (recover_evolves 5)]
        |lia|cbn; lia]. }
  destruct checked as [working w2]. cbn [snd] in Hw2.
  destruct working; cbn [negb].
  - destruct (update_and_check_spec fuel initialWeight targetAmount l0 w2
                Hfuel Hinv0)
      as (l' & w' & Hrun & Hev & Hinv' & Hmono & Hreach).
    rewrite Hrun. eexists. split; [reflexivity|].
    split; [eapply evolves_weaken;
            [eapply evolves_trans; [exact Hw2 | exact Hev]|lia|lia]|].
    split; [exact Hinv'|]. split; [lia|].
    intros H. destruct (Hreach H) as [H'|[H'|[H'|H']]].
    + left. congruence.
    + right. left. destruct H' as (w_m & Hsame & Hge).
      exists w_m. split; [|exact Hge].
      eapply same_scale_trans; [apply Hw2 | exact Hsame].
    + right. right. left. exact H'.
    + right. right. right. exact H'.
  - unfold lcdMessage, LCD_TIMEOUT. cbn [Z.ltb Z.compare].
    rewrite nonBlockingWait_3000 by exact Hfuel. cbv beta iota zeta.
    rewrite nonBlockingWait_3000 by exact Hfuel.
    eexists. split; [reflexivity|].
    split; [solve_evolves|].
    split; [exact Hinv0|].
    split; [reflexivity|]. split; [reflexivity | exact Hd0].
Qed.

Lemma updateFeedingDisplay_frame (d target : F32.t) (w : World) :
  evolves 0 0 w (Feeding.updateFeedingDisplay d target w) /\
  lcd_lines (trace (Feeding.updateFeedingDisplay d target w))
  = lcd_lines (trace w) /\
  servo_writes (trace (Feeding.updateFeedingDisplay d target w))
  = servo_writes (trace w).
Proof.
  unfold Feeding.updateFeedingDisplay.
  destruct (F32.ltb _ _); repeat split; solve_evolves.
Qed.

(** One pass through the loop body: at least the 10 ms of its final delay
    and at most 8.01 s pass. *)
Lemma feed_body_spec
    (fuel : nat) (initialWeight targetAmount : F32.t)
    (l : Feeding.Locals) (w : World) :
  (301 <= fuel)%nat ->
  feed_invariant l ->
  exists flow,
    Feeding.feed_body fuel initialWeight targetAmount l w = Some flow /\
    match flow with
    | Feeding.Go l' w' =>
        evolves 10 8010 w w' /\
        feed_invariant l' /\
        Feeding.retryCount l <= Feeding.retryCount l' /\
        (Feeding.targetReached l' = true ->
         Feeding.targetReached l = true \/
         reached_how initialWeight targetAmount w l' w')
    | Feeding.Ret v l' w' =>
        evolves 0 6500 w w' /\
        feed_invariant l' /\
        hd_error (servo_writes (trace w')) = Some SERVO_CLOSE_ANGLE /\
        hd_error (lcd_lines (trace w')) = Some "Closing hatch"%string /\
        v = Feeding.dispensedWeight l
    end.
Proof.
  intros Hfuel Hinv. unfold Feeding.feed_body.
  set (polled := if WEIGHT_READ_INTERVAL <=? _ then _ else _).
  assert (Hpolled : exists flow, polled = Some flow /\
            match flow with
            | Feeding.Go l' w' =>
                evolves 0 8000 w w' /\
                feed_invariant l' /\
                Feeding.retryCount l <= Feeding.retryCount l' /\
                (Feeding.targetReached l' = true ->
                 Feeding.targetReached l = true \/
                 reached_how initialWeight targetAmount w l' w')
            | Feeding.Ret v l' w' =>
                evolves 0 6500 w w' /\
                feed_invariant l' /\
                hd_error (servo_writes (trace w')) = Some SERVO_CLOSE_ANGLE /\
                hd_error (lcd_lines (trace w'))
                = Some "Closing hatch"%string /\
                v = Feeding.dispensedWeight l
            end).
  { subst polled. destruct (WEIGHT_READ_INTERVAL <=? _).
    - apply poll_spec; assumption.
    - eexists. split; [reflexivity|].
      split; [eapply evolves_weaken; [apply evolves_refl|lia|lia]|].
      split; [exact Hinv|]. split; [lia|]. auto. }
  destruct Hpolled as (flow & -> & Hflow).
  destruct flow as [l1 w1 | v l1 w1].
  - destruct Hflow as (Hev & Hinv1 & Hmono & Hreach).
    destruct (LCD_UPDATE_INTERVAL <=? _).
    + pose proof (updateFeedingDisplay_frame (Feeding.dispensedWeight l1)
                    targetAmount w1) as (Hd & Hlines & _).
      eexists. split; [reflexivity|].
      split; [solve_evolves|]. split; [exact Hinv1|]. split; [exact Hmono|].
      cbn [Feeding.targetReached]. intros H.
      destruct (Hreach H) as [H'|[H'|[[Hmax Hshown]|H']]];
        [left; exact H' | right; left; exact H' |
        | right; right; right; exact H'].
      right. right. left. split; [exact Hmax|].
      world_simpl. rewrite Hlines. exact Hshown.
    + eexists. split; [reflexivity|].
      split; [solve_evolves|]. split; [exact Hinv1|]. split; [exact Hmono|].
      intros H.
      destruct (Hreach H) as [H'|[H'|[[Hmax Hshown]|H']]];
        [left; exact H' | right; left; exact H' |
        | right; right; right; exact H'].
      right. right. left. split; [exact Hmax | exact Hshown].
  - eexists. split; [reflexivity | exact Hflow].
Qed.

(** ** The loop *)

Lemma reached_how_base
    (initialWeight targetAmount : F32.t) (w0 w : World)
    (l' : Feeding.Locals) (w' : World) :
  same_scale w0 w ->
  reached_how initialWeight targetAmount w l' w' ->
  reached_how initialWeight targetAmount w0 l' w'.
Proof.
  intros Hsame [(w_m & Hm & Hge)|[H|H]].
  - left. exists w_m. split; [|exact Hge].
    eapply same_scale_trans; eassumption.
  - right. left. exact H.
  - right. right. exact H.
Qed.

(** The loop ends: with [rounds] turns for every 10 ms left of
    FEED_TIMEOUT it leaves either through its condition or through the
    return of the scale-error path, and the counters stay within the
    invariant. *)
Lemma feed_loop_spec
    (fuel : nat) (initialWeight targetAmount : F32.t) (since : Z)
    (w0 : World) (rounds : nat) :
  forall (l : Feeding.Locals) (w : World),
    (301 <= fuel)%nat ->
    feed_invariant l ->
    same_scale w0 w ->
    0 <= clock w - since < FEED_TIMEOUT + 8010 ->
    Z.max 0 (FEED_TIMEOUT - (clock w - since)) + 10 <= 10 * Z.of_nat rounds ->
    exists flow,
      Feeding.feed_loop rounds fuel initialWeight targetAmount (u32 since) l w
      = Some flow /\
      match flow with
      | Feeding.Go l' w' =>
          same_scale w0 w' /\
          clock w <= clock w' /\
          clock w' - since < FEED_TIMEOUT + 8010 /\
          feed_invariant l' /\
          Feeding.retryCount l <= Feeding.retryCount l' /\
          (Feeding.targetReached l = true -> l' = l /\ w' = w) /\
          (Feeding.targetReached l' = false ->
           FEED_TIMEOUT <= clock w' - since) /\
          (Feeding.targetReached l' = true ->
           Feeding.targetReached l = true \/
           reached_how initialWeight targetAmount w0 l' w')
      | Feeding.Ret v l' w' =>
          same_scale w0 w' /\
          clock w <= clock w' /\
          clock w' - since < FEED_TIMEOUT + 6500 /\
          feed_invariant l' /\
          hd_error (servo_writes (trace w')) = Some SERVO_CLOSE_ANGLE /\
          hd_error (lcd_lines (trace w')) = Some "Closing hatch"%string
      end.
Proof.
  unfold FEED_TIMEOUT.
  induction rounds as [|rounds IH]; intros l w Hfuel Hinv Hsame Htime Hrounds.
  - cbn in Hrounds. lia.
  - cbn [Feeding.feed_loop]. unfold FEED_TIMEOUT.
    rewrite elapsed_exact by lia.
    destruct (Feeding.targetReached l) eqn:Hreached; cbn [negb andb].
    + eexists. split; [reflexivity|].
      split; [exact Hsame|]. split; [lia|]. split; [lia|].
      split; [exact Hinv|]. split; [lia|]. split; [auto|].
      split; [congruence|]. intros _. left. reflexivity.
    + destruct (Z.ltb_spec (clock w - since) 30000) as [Hlt|Hge].
      * destruct (feed_body_spec fuel initialWeight targetAmount l w
                    Hfuel Hinv) as (flow1 & Hbody & Hflow1).
        rewrite Hbody. destruct flow1 as [l1 w1 | v l1 w1].
        -- destruct Hflow1 as ([Hclock Hscale] & Hinv1 & Hmono & Hhow).
           destruct (IH l1 w1 Hfuel Hinv1) as (flow & Hloop & Hflow).
           { eapply same_scale_trans; eassumption. }
           { lia. }
           { lia. }
           rewrite Hloop. exists flow. split; [reflexivity|].
           destruct flow as [l' w' | v l' w'].
           ++ destruct Hflow
                as (Hs & Hc & Hbound & Hinv' & Hmono' & Hstay & Hout & Hhow').
              split; [exact Hs|]. split; [lia|]. split; [lia|].
              split; [exact Hinv'|]. split; [lia|].
              split; [intros Habs; congruence|]. split; [exact Hout|].
              intros Hl'. right.
              destruct (Hhow' Hl') as [Hl1|Hev]; [|exact Hev].
              destruct (Hstay Hl1) as [-> ->].
              destruct (Hhow Hl1) as [Habs|Hev]; [congruence|].
              apply (reached_how_base _ _ w0 w); assumption.
           ++ destruct Hflow as (Hs & Hc & Hbound & Hinv' & Hservo & Hlcd).
              split; [exact Hs|]. split; [lia|]. split; [lia|].
              split; [exact Hinv'|]. split; assumption.
        -- exists (Feeding.Ret v l1 w1). split; [reflexivity|].
           destruct Hflow1 as ([Hclock Hscale] & Hinv1 & Hservo & Hlcd & _).
           split; [eapply same_scale_trans; eassumption|].
           split; [lia|]. split; [lia|].
           split; [exact Hinv1|]. split; assumption.
      * eexists. split; [reflexivity|].
        split; [exact Hsame|]. split; [lia|]. split; [lia|].
        split; [exact Hinv|]. split; [lia|]. split; [congruence|].
        split; [intros _; lia|]. congruence.
Qed.

Lemma feed_invariant_init (initialWeight : F32.t) :
  feed_invariant (Feeding.locals_init initialWeight).
Proof. unfold feed_invariant, FEED_RETRY_TIMEOUT. cbn. split; [lia | left; reflexivity]. Qed.

(** dispenseFoodWithFeedback up to the end of its loop, for any scale,
    weights and target: it gets there, in bounded time, with the counters
    within the invariant. *)
Lemma dispense_loop_spec
    (fuel : nat) (initialWeight targetAmount : F32.t) (w : World) :
  (2951 <= fuel)%nat ->
  exists flow,
    Feeding.dispense_loop fuel initialWeight targetAmount w = Some flow /\
    match flow with
    | Feeding.Go l' w' =>
        same_scale w w' /\
        clock w' - clock w < FEED_TIMEOUT + 8010 /\
        feed_invariant l' /\
        (Feeding.targetReached l' = false ->
         FEED_TIMEOUT <= clock w' - clock w) /\
        (Feeding.targetReached l' = true ->
         reached_how initialWeight targetAmount w l' w')
    | Feeding.Ret v l' w' =>
        same_scale w w' /\
        clock w' - clock w < FEED_TIMEOUT + 6500 /\
        feed_invariant l' /\
        hd_error (servo_writes (trace w')) = Some SERVO_CLOSE_ANGLE /\
        hd_error (lcd_lines (trace w')) = Some "Closing hatch"%string
    end.
Proof.
  intros Hfuel. unfold Feeding.dispense_loop, millis.
  set (w1 := delay 500 (servo_write SERVO_OPEN_ANGLE w)).
  assert (Hw1 : evolves 500 500 w w1) by (subst w1; solve_evolves).
  destruct Hw1 as [Hclock Hscale]. clearbody w1.
  destruct (feed_loop_spec fuel initialWeight targetAmount (clock w) w fuel
              (Feeding.locals_init initialWeight) w1)
    as (flow & Hrun & Hflow).
  - lia.
  - apply feed_invariant_init.
  - exact Hscale.
  - unfold FEED_TIMEOUT. lia.
  - unfold FEED_TIMEOUT. lia.
  - exists flow. split; [exact Hrun|].
    destruct flow as [l' w' | v l' w'].
    + destruct Hflow as (Hs & Hc & Hbound & Hinv & _ & _ & Hout & Hhow).
      split; [exact Hs|]. split; [exact Hbound|]. split; [exact Hinv|].
      split; [exact Hout|]. intros H.
      destruct (Hhow H) as [Habs|Hev]; [discriminate Habs | exact Hev].
    + destruct Hflow as (Hs & Hc & Hbound & Hinv & Hservo & Hlcd).
      split; [exact Hs|]. split; [exact Hbound|]. split; [exact Hinv|].
      split; assumption.
Qed.

(** C4: the invariant, which bounds retryCount by FEED_RETRY_TIMEOUT, holds
    of the initial counters and is kept by every pass through the loop
    body.  When no settled measurement reaches
    targetAmount * FEED_COMPLETE_FACTOR the function leaves its loop in
    less than FEED_TIMEOUT + 8.01 s: with the retries used up and the
    "Warning: Only" message shown, or with FEED_TIMEOUT passed, or through
    the scale-error return. *)
Theorem retries_bounded_and_loop_ends
    (fuel : nat) (initialWeight targetAmount : F32.t) (w : World) :
  (2951 <= fuel)%nat ->
  settled_below initialWeight targetAmount w ->
  thresholds_ordered targetAmount ->
  feed_invariant (Feeding.locals_init initialWeight) /\
  (forall l w1 l' w1',
      feed_invariant l ->
      Feeding.feed_body fuel initialWeight targetAmount l w1
      = Some (Feeding.Go l' w1') ->
      feed_invariant l') /\
  exists flow,
    Feeding.dispense_loop fuel initialWeight targetAmount w = Some flow /\
    match flow with
    | Feeding.Go l' w' =>
        clock w' - clock w < FEED_TIMEOUT + 8010 /\
        0 <= Feeding.retryCount l' <= FEED_RETRY_TIMEOUT /\
        if Feeding.targetReached l' then partial_shown l' w'
        else FEED_TIMEOUT <= clock w' - clock w
    | Feeding.Ret v l' w' =>
        clock w' - clock w < FEED_TIMEOUT + 6500 /\
        0 <= Feeding.retryCount l' <= FEED_RETRY_TIMEOUT /\
        hd_error (lcd_lines (trace w')) = Some "Closing hatch"%string
    end.
Proof.
  intros Hfuel Hbelow Hordered.
  split; [apply feed_invariant_init|]. split.
  - intros l w1 l' w1' Hinv Hbody.
    destruct (feed_body_spec fuel initialWeight targetAmount l w1)
      as (flow & Hrun & Hflow); [lia | exact Hinv |].
    rewrite Hbody in Hrun. injection Hrun as <-. apply Hflow.
  - destruct (dispense_loop_spec fuel initialWeight targetAmount w Hfuel)
      as (flow & Hrun & Hflow).
    exists flow. split; [exact Hrun|].
    destruct flow as [l' w' | v l' w'].
    + destruct Hflow as (_ & Hbound & Hinv & Hout & Hhow).
      split; [exact Hbound|]. split; [apply Hinv|].
      destruct (Feeding.targetReached l') eqn:Hreached.
      * destruct (Hhow eq_refl) as [(w_m & Hsame & Hge)|[Hpartial|Hexcess]].
        -- rewrite (Hbelow w_m Hsame) in Hge. discriminate.
        -- exact Hpartial.
        -- destruct (excess_impossible targetAmount Hordered Hexcess).
      * apply Hout. reflexivity.
    + destruct Hflow as (_ & Hbound & Hinv & _ & Hlcd).
      split; [exact Hbound|]. split; [apply Hinv | exact Hlcd].
Qed.

Lemma thresholds_ordered_FEED_WEIGHT : thresholds_ordered FEED_WEIGHT.
Proof. split; vm_compute; reflexivity. Qed.

(** A scale that reads 60 g at every call never settles at 61.75 g. *)
Lemma settled_below_60 :
  settled_below F32.zero FEED_WEIGHT (scale_world 0 (fun _ => F32.of_Z 60)).
Proof.
  intros w' [Hready Hunits]. destruct w'. cbn in Hready, Hunits. subst.
  vm_compute. reflexivity.
Qed.

(** C4 at a scale that reads 60 g all along (58.5 g triggers the
    pre-close, 61.75 g would complete): two retries, then the partial
    outcome. *)
Lemma retries_bounded_and_loop_ends_witness :
  exists l' w',
    Feeding.dispense_loop 2951 F32.zero FEED_WEIGHT
      (scale_world 0 (fun _ => F32.of_Z 60))
    = Some (Feeding.Go l' w') /\
    Feeding.targetReached l' = true /\
    Feeding.retryCount l' = 2 /\
    partial_shown l' w'.
Proof.
  destruct (retries_bounded_and_loop_ends 2951 F32.zero FEED_WEIGHT
              (scale_world 0 (fun _ => F32.of_Z 60)))
    as (_ & _ & flow & Hrun & Hflow).
  - lia.
  - exact settled_below_60.
  - exact thresholds_ordered_FEED_WEIGHT.
  - assert (Hgo : exists l' w',
               flow = Feeding.Go l' w' /\ Feeding.targetReached l' = true /\
               Feeding.retryCount l' = 2).
    { assert (E : Feeding.dispense_loop 2951 F32.zero FEED_WEIGHT
                    (scale_world 0 (fun _ => F32.of_Z 60)) = Some flow)
        by exact Hrun.
      vm_compute in E. injection E as <-.
      do 2 eexists. repeat split. }
    destruct Hgo as (l' & w' & -> & Hreached & Hcount).
    exists l', w'. split; [exact Hrun|].
    split; [exact Hreached|]. split; [exact Hcount|].
    destruct Hflow as (_ & _ & Hshown). rewrite Hreached in Hshown.
    exact Hshown.
Defined.

(** C2, the run the claim describes: an empty bowl, target 65 g, and a
    scale that reads 300 g from the first poll on.  The moving average
    gives 100 g dispensed, past the excess threshold of 81.25 g, but the
    pre-close block runs first, settles at 300 g and ends the dispense as
    "Target reached!"; the excess message is never shown. *)
Lemma excess_jump_ends_as_target_reached :
  F32.geb
    (Feeding.dispensed_since F32.zero
       (Feeding.moving_average [F32.of_Z 300; F32.zero; F32.zero]))
    (F32.mul FEED_WEIGHT (F32.lit 125 100)) = true /\
  exists w',
    Feeding.dispenseFoodWithFeedback 2951 F32.zero FEED_WEIGHT
      (scale_world 0 (fun _ => F32.of_Z 300))
    = Some (F32.of_Z 300, w') /\
    lcd_lines (trace w')
    = ["Target reached!"; "Food settling"; "Almost there..."]%string /\
    ~ In "Excess food!"%string (lcd_lines (trace w')) /\
    servo_writes (trace w')
    = [SERVO_CLOSE_ANGLE; SERVO_CLOSE_ANGLE; SERVO_OPEN_ANGLE].
Proof.
  split; [vm_compute; reflexivity|].
  eexists. split; [vm_compute; reflexivity|].
  cbn [trace lcd_lines servo_writes].
  split; [reflexivity|]. split; [|reflexivity].
  cbn [In]. intros [H|[H|[H|[]]]]; discriminate H.
Qed.

(** C5, a run that reaches the target with the pre-close flag clear: an
    empty bowl, target 65 g, a first fast read of 195 g (moving average
    65 g) and 65 g at every later read.  The dispense is declared complete
    within that one poll, after the settled measurement; stabilityCounter
    is never raised. *)
Lemma target_reached_without_confirmations :
  F32.geb
    (Feeding.dispensed_since F32.zero
       (Feeding.moving_average [F32.of_Z 195; F32.zero; F32.zero]))
    FEED_WEIGHT = true /\
  exists l' w',
    Feeding.dispense_loop 2951 F32.zero FEED_WEIGHT
      (scale_world 0
         (fun k => if Nat.eqb k 0 then F32.of_Z 195 else F32.of_Z 65))
    = Some (Feeding.Go l' w') /\
    Feeding.targetReached l' = true /\
    Feeding.stabilityCounter l' = 0 /\
    units_calls w' = 6%nat /\
    lcd_lines (trace w')
    = ["Target reached!"; "Food settling"; "Almost there..."]%string.
Proof.
  split; [vm_compute; reflexivity|].
  do 2 eexists. split; [vm_compute; reflexivity|].
  repeat split.
Qed.

(** ** feeding(): nothing but the dispense moves the hatch *)

Lemma servo_kept_refl (w : World) : servo_kept w w.
Proof. reflexivity. Qed.

Lemma servo_kept_trans (w1 w2 w3 : World) :
  servo_kept w1 w2 -> servo_kept w2 w3 -> servo_kept w1 w3.
Proof. unfold servo_kept. congruence. Qed.

Lemma wait_loop_trace (fuel : nat) :
  forall (startWait actual : Z) (w w' : World),
    wait_loop fuel startWait actual w = Some w' -> trace w' = trace w.
Proof.
  induction fuel as [|fuel IH]; intros startWait actual w w' H.
  - discriminate H.
  - cbn [wait_loop] in H. destruct (_ <? actual).
    + apply IH in H. exact H.
    + injection H as <-. reflexivity.
Qed.

Lemma nonBlockingWait_trace
    (fuel : nat) (waitTime startDisplayTime : Z) (w w' : World) :
  nonBlockingWait fuel waitTime startDisplayTime w = Some w' ->
  trace w' = trace w.
Proof.
  unfold nonBlockingWait. intros H.
  destruct ((0 <? LCD_TIMEOUT) && (0 <? startDisplayTime)).
  - destruct (LCD_TIMEOUT <=? _).
    + injection H as <-. reflexivity.
    + eapply wait_loop_trace. exact H.
  - eapply wait_loop_trace. exact H.
Qed.

Lemma nonBlockingWait_servo
    (fuel : nat) (waitTime startDisplayTime : Z) (w w' : World) :
  nonBlockingWait fuel waitTime startDisplayTime w = Some w' ->
  servo_kept w w'.
Proof.
  intros H. unfold servo_kept.
  rewrite (nonBlockingWait_trace _ _ _ _ _ H). reflexivity.
Qed.

Lemma lcdMessage_servo
    (fuel : nat) (line1 line2 : Text) (waitTime : Z) (w w' : World) :
  lcdMessage fuel line1 line2 waitTime w = Some w' -> servo_kept w w'.
Proof.
  unfold lcdMessage. intros H. destruct (0 <? waitTime).
  - apply nonBlockingWait_servo in H. exact H.
  - injection H as <-. reflexivity.
Qed.

Lemma scale_ready_loop_trace (fuel : nat) :
  forall (startCheck timeout : Z) (w w' : World) (ready : bool),
    Feeding.scale_ready_loop fuel startCheck timeout w = Some (ready, w') ->
    trace w' = trace w.
Proof.
  induction fuel as [|fuel IH]; intros startCheck timeout w w' ready H.
  - discriminate H.
  - cbn [Feeding.scale_ready_loop is_ready] in H.
    destruct (_ <? timeout).
    + destruct (scale_ready w (ready_calls w)).
      * injection H as _ <-. reflexivity.
      * apply IH in H. exact H.
    + injection H as _ <-. reflexivity.
Qed.

Lemma take_readings_trace (n : nat) (samples : Z) :
  forall w : World, trace (snd (take_readings n samples w)) = trace w.
Proof.
  induction n as [|n IH]; intros w.
  - reflexivity.
  - cbn [take_readings is_ready].
    destruct (scale_ready w (ready_calls w)); cbn [get_units];
      match goal with
      | |- context [take_readings n samples ?w1] =>
          specialize (IH w1); destruct (take_readings n samples w1)
      end; cbn [snd] in *; exact IH.
Qed.

Lemma getStableWeight_trace
    (numReadings samples : Z) (threshold : F32.t) (w : World) :
  trace (snd (getStableWeight numReadings samples threshold w)) = trace w.
Proof.
  unfold getStableWeight.
  pose proof (take_readings_trace
                (Z.to_nat (if 10 <? numReadings then 10 else numReadings))
                samples w) as H.
  destruct (take_readings _ samples w) as [weights w'].
  cbn [snd] in H. destruct (_ =? 0); exact H.
Qed.

Lemma settle_loop_servo (n : nat) :
  forall (i samples : Z) (acc : F32.t) (valid : Z) (w : World),
    servo_kept w (snd (Feeding.settle_loop n i samples acc valid w)).
Proof.
  induction n as [|n IH]; intros i samples acc valid w.
  - reflexivity.
  - cbn [Feeding.settle_loop is_ready].
    destruct (scale_ready w (ready_calls w)); cbn [get_units];
      (eapply servo_kept_trans; [|apply IH]); reflexivity.
Qed.

Lemma measureSettledWeight_servo (numReadings samples : Z) (w : World) :
  servo_kept w (snd (Feeding.measureSettledWeight numReadings samples w)).
Proof.
  unfold Feeding.measureSettledWeight.
  pose proof (settle_loop_servo (Z.to_nat numReadings) 0 samples F32.zero 0 w)
    as H.
  destruct (Feeding.settle_loop _ 0 samples F32.zero 0 w) as [[acc valid] w'].
  cbn [snd] in H. destruct (0 <? valid); exact H.
Qed.

Lemma release_loop_trace (fuel : nat) :
  forall w w' : World,
    Feeding.release_loop fuel w = Some w' -> trace w' = trace w.
Proof.
  induction fuel as [|fuel IH]; intros w w' H.
  - discriminate H.
  - cbn [Feeding.release_loop button_is_low] in H.
    destruct (button_low w (button_calls w)).
    + apply IH in H. exact H.
    + injection H as <-. reflexivity.
Qed.

Lemma countdown_servo (notifyStartTime : Z) (w : World) :
  servo_kept w (Feeding.countdown notifyStartTime w).
Proof. unfold Feeding.countdown. destruct (negb _); reflexivity. Qed.

Lemma notify_loop_servo (fuel rounds : nat) :
  forall (notifyStartTime : Z) (w w' : World) (pressed : bool),
    Feeding.notify_loop rounds fuel notifyStartTime w = Some (pressed, w') ->
    servo_kept w w'.
Proof.
  induction rounds as [|rounds IH]; intros start w w' pressed H.
  - discriminate H.
  - cbn [Feeding.notify_loop button_is_low] in H.
    destruct (_ <? Feeding.NOTIFY_TIMEOUT).
    + destruct (button_low w (button_calls w)).
      * cbn [delay button_low button_calls] in H.
        destruct (button_low w (S (button_calls w))).
        -- destruct (Feeding.release_loop fuel _) as [w3|] eqn:Hrel;
             [|discriminate H].
           injection H as _ <-. apply release_loop_trace in Hrel.
           unfold servo_kept. rewrite Hrel. reflexivity.
        -- apply IH in H. eapply servo_kept_trans; [|exact H].
           eapply servo_kept_trans; [|apply (countdown_servo start)].
           reflexivity.
      * apply IH in H. eapply servo_kept_trans; [|exact H].
        eapply servo_kept_trans; [|apply (countdown_servo start)].
        reflexivity.
    + injection H as _ <-. reflexivity.
Qed.

Lemma checkExistingFood_servo
    (fuel : nat) (currentWeight threshold : F32.t) (w w' : World)
    (go : bool) :
  Feeding.checkExistingFood fuel currentWeight threshold w = Some (go, w') ->
  servo_kept w w'.
Proof.
  unfold Feeding.checkExistingFood. intros H.
  destruct (F32.geb currentWeight threshold).
  - destruct (nonBlockingWait fuel INFO_DISPLAY_TIME 0 _) as [w1|] eqn:W1;
      [|discriminate H].
    apply nonBlockingWait_servo in W1.
    destruct (Feeding.notify_loop fuel fuel _ _) as [[pressed w2]|] eqn:N;
      [|discriminate H].
    apply notify_loop_servo in N.
    assert (servo_kept w w2) as K2.
    { eapply servo_kept_trans; [|exact N].
      eapply servo_kept_trans; [exact W1|]. reflexivity. }
    destruct pressed.
    + destruct (nonBlockingWait fuel QUICK_DISPLAY_TIME 0 _) as [w3|] eqn:W3;
        [|discriminate H].
      apply nonBlockingWait_servo in W3. injection H as _ <-.
      eapply servo_kept_trans; [exact K2|].
      eapply servo_kept_trans; [|exact W3]. reflexivity.
    + destruct (nonBlockingWait fuel QUICK_DISPLAY_TIME 0 _) as [w3|] eqn:W3;
        [|discriminate H].
      apply nonBlockingWait_servo in W3.
      destruct (nonBlockingWait fuel INFO_DISPLAY_TIME 0 _) as [w4|] eqn:W4;
        [|discriminate H].
      apply nonBlockingWait_servo in W4. injection H as _ <-.
      eapply servo_kept_trans; [exact K2|].
      eapply servo_kept_trans; [|exact W4].
      eapply servo_kept_trans; [|exact W3]. reflexivity.
  - injection H as _ <-. reflexivity.
Qed.

Lemma showFeedingResults_servo
    (fuel : nat) (initialWeight finalWeight targetAmount : F32.t)
    (w w' : World) :
  Feeding.showFeedingResults fuel initialWeight finalWeight targetAmount w
  = Some w' ->
  servo_kept w w'.
Proof.
  unfold Feeding.showFeedingResults. intros H.
  destruct (lcdMessage fuel (Lit "Feeding complete") _ _ w) as [w1|] eqn:M1;
    [|discriminate H].
  apply lcdMessage_servo in M1.
  destruct (lcdMessage fuel (Fmt "Accuracy: %d%%" _) _ _ w1) as [w2|] eqn:M2;
    [|discriminate H].
  apply lcdMessage_servo in M2.
  destruct (nonBlockingWait fuel INFO_DISPLAY_TIME 0 w2) as [w3|] eqn:W3;
    [|discriminate H].
  apply nonBlockingWait_servo in W3.
  apply lcdMessage_servo in H.
  eapply servo_kept_trans; [exact M1|].
  eapply servo_kept_trans; [exact M2|].
  eapply servo_kept_trans; [exact W3|exact H].
Qed.

Lemma sendLogEvent_servo (eventType details : string) (w : World) :
  servo_kept w (sendLogEvent eventType details w).
Proof. unfold sendLogEvent. destruct (webConnected w); reflexivity. Qed.

Lemma sendFeedingComplete_servo
    (isScheduled : bool) (details : Text) (foodLevel waterLevel : F32.t)
    (w : World) :
  servo_kept w
    (sendFeedingComplete isScheduled details foodLevel waterLevel w).
Proof. unfold sendFeedingComplete. destruct (webConnected w); reflexivity. Qed.

Lemma wifi_and_web_servo (w : World) :
  servo_kept w (snd (Water.wifi_and_web w)).
Proof.
  unfold servo_kept.
  destruct (wifi_and_web_frame w) as (_ & T & _). rewrite T. reflexivity.
Qed.

Lemma getDistance_servo (w : World) : servo_kept w (snd (getDistance w)).
Proof. unfold servo_kept. rewrite getDistance_world. reflexivity. Qed.

(** ** Every return of the dispense leaves the hatch commanded shut *)

Lemma poll_ret_closes
    (fuel : nat) (initialWeight targetAmount : F32.t) (now : Z)
    (l l' : Feeding.Locals) (w w' : World) (v : F32.t) :
  Feeding.poll fuel initialWeight targetAmount now l w
  = Some (Feeding.Ret v l' w') ->
  hd_error (servo_writes (trace w')) = Some SERVO_CLOSE_ANGLE.
Proof.
  unfold Feeding.poll. intros H.
  destruct (is_ready w) as [ready w1].
  destruct (if ready then (true, w1) else Feeding.recover 5 w1)
    as [working w2].
  destruct working; cbn [negb] in H; cbv beta iota in H.
  - destruct (Feeding.update_and_check _ _ _ _ _) as [[l1 w3]|];
      discriminate H.
  - destruct (lcdMessage fuel _ _ LCD_TIMEOUT w2) as [w3|];
      [|discriminate H].
    destruct (nonBlockingWait fuel LCD_TIMEOUT 0 _) as [w4|] eqn:W4;
      [|discriminate H].
    apply nonBlockingWait_trace in W4.
    injection H as _ _ <-. rewrite W4. reflexivity.
Qed.

Lemma feed_body_ret_closes
    (fuel : nat) (initialWeight targetAmount : F32.t)
    (l l' : Feeding.Locals) (w w' : World) (v : F32.t) :
  Feeding.feed_body fuel initialWeight targetAmount l w
  = Some (Feeding.Ret v l' w') ->
  hd_error (servo_writes (trace w')) = Some SERVO_CLOSE_ANGLE.
Proof.
  unfold Feeding.feed_body. intros H.
  destruct (WEIGHT_READ_INTERVAL <=? _).
  - destruct (Feeding.poll _ _ _ _ _ _) as [[l1 w1|v1 l1 w1]|] eqn:P.
    + destruct (LCD_UPDATE_INTERVAL <=? _); discriminate H.
    + injection H as -> -> ->. eapply poll_ret_closes. exact P.
    + discriminate H.
  - destruct (LCD_UPDATE_INTERVAL <=? _); discriminate H.
Qed.

Lemma feed_loop_ret_closes (rounds fuel : nat)
    (initialWeight targetAmount : F32.t) (startTime : Z) :
  forall (l l' : Feeding.Locals) (w w' : World) (v : F32.t),
    Feeding.feed_loop rounds fuel initialWeight targetAmount startTime l w
    = Some (Feeding.Ret v l' w') ->
    hd_error (servo_writes (trace w')) = Some SERVO_CLOSE_ANGLE.
Proof.
  induction rounds as [|rounds IH]; intros l l' w w' v H.
  - discriminate H.
  - cbn [Feeding.feed_loop] in H.
    destruct (negb (Feeding.targetReached l) && _).
    + destruct (Feeding.feed_body _ _ _ _ _) as [[l1 w1|v1 l1 w1]|] eqn:B.
      * eapply IH. exact H.
      * injection H as -> -> ->. eapply feed_body_ret_closes. exact B.
      * discriminate H.
    + discriminate H.
Qed.

Lemma dispense_returns_closed
    (fuel : nat) (initialWeight targetAmount : F32.t) (w w' : World)
    (v : F32.t) :
  Feeding.dispenseFoodWithFeedback fuel initialWeight targetAmount w
  = Some (v, w') ->
  hd_error (servo_writes (trace w')) = Some SERVO_CLOSE_ANGLE.
Proof.
  unfold Feeding.dispenseFoodWithFeedback, Feeding.dispense_loop. intros H.
  destruct (Feeding.feed_loop _ _ _ _ _ _ _) as [[l1 w1|v1 l1 w1]|] eqn:L.
  - injection H as _ <-. reflexivity.
  - injection H as _ <-. eapply feed_loop_ret_closes. exact L.
  - discriminate H.
Qed.

(** ** feeding(): the hatch is untouched or commanded shut *)

Lemma feeding_servo (fuel : nat) (isScheduled : bool) (w w' : World) :
  Feeding.feeding fuel isScheduled w = Some w' ->
  servo_kept w w' \/
  hd_error (servo_writes (trace w')) = Some SERVO_CLOSE_ANGLE.
Proof.
  unfold Feeding.feeding. intros H.
  pose proof (wifi_and_web_servo w) as K0.
  destruct (Water.wifi_and_web w) as [connected w0]. cbn [snd] in K0.
  assert (servo_kept w
            (if connected
             then sendLogEvent "feeding_start"
                    (if isScheduled then "Scheduled feeding initiated"
                     else "Manual feeding initiated") w0
             else w0)) as K1.
  { destruct connected; [|exact K0].
    eapply servo_kept_trans; [exact K0|apply sendLogEvent_servo]. }
  revert H K1.
  generalize (if connected
              then sendLogEvent "feeding_start"
                     (if isScheduled then "Scheduled feeding initiated"
                      else "Manual feeding initiated") w0
              else w0).
  clear w0 K0 connected. intros w1 H K1.
  destruct (nonBlockingWait fuel QUICK_DISPLAY_TIME 0 _) as [w2|] eqn:W2;
    [|discriminate H].
  apply nonBlockingWait_servo in W2.
  assert (servo_kept w w2) as K2.
  { eapply servo_kept_trans; [exact K1|].
    eapply servo_kept_trans; [|exact W2]. reflexivity. }
  clear W2 K1 w1.
  destruct (Feeding.checkScaleReady fuel SCALE_TIMEOUT w2)
    as [[ready w3]|] eqn:R3; [|discriminate H].
  unfold Feeding.checkScaleReady in R3. apply scale_ready_loop_trace in R3.
  assert (servo_kept w w3) as K3.
  { unfold servo_kept in *. rewrite R3. exact K2. }
  clear R3 K2 w2.
  destruct ready.
  2:{ apply nonBlockingWait_servo in H. left.
      eapply servo_kept_trans; [exact K3|].
      eapply servo_kept_trans; [|exact H]. reflexivity. }
  destruct (nonBlockingWait fuel QUICK_DISPLAY_TIME 0 _) as [w4|] eqn:W4;
    [|discriminate H].
  apply nonBlockingWait_servo in W4.
  assert (servo_kept w w4) as K4.
  { eapply servo_kept_trans; [exact K3|].
    eapply servo_kept_trans; [|exact W4]. reflexivity. }
  clear W4 K3 w3.
  pose proof (getStableWeight_trace 5 2 WEIGHT_STABILITY_THRESHOLD w4) as G5.
  destruct (getStableWeight 5 2 WEIGHT_STABILITY_THRESHOLD w4)
    as [weight w5]. cbn [snd] in G5.
  assert (servo_kept w w5) as K5.
  { unfold servo_kept in *. rewrite G5. exact K4. }
  clear G5 K4 w4.
  destruct (Feeding.checkExistingFood fuel _ FEED_THRESHOLD w5)
    as [[go w6]|] eqn:C6; [|discriminate H].
  apply checkExistingFood_servo in C6.
  assert (servo_kept w w6) as K6.
  { eapply servo_kept_trans; [exact K5|exact C6]. }
  clear C6 K5 w5.
  destruct go.
  2:{ injection H as <-. left. exact K6. }
  right. clear K6.
  destruct (nonBlockingWait fuel QUICK_DISPLAY_TIME 0 _) as [w7|];
    [|discriminate H].
  destruct (Feeding.dispenseFoodWithFeedback fuel _ FEED_WEIGHT w7)
    as [[dispensedAmount w8]|] eqn:D8; [|discriminate H].
  apply dispense_returns_closed in D8.
  destruct (nonBlockingWait fuel SETTLE_FINAL_TIME 0 _) as [w9|] eqn:W9;
    [|discriminate H].
  apply nonBlockingWait_servo in W9.
  pose proof (measureSettledWeight_servo 5 5 w9) as M10.
  destruct (Feeding.measureSettledWeight 5 5 w9) as [finalWeight w10].
  cbn [snd] in M10.
  destruct (Feeding.showFeedingResults fuel _ finalWeight FEED_WEIGHT w10)
    as [w11|] eqn:S11; [|discriminate H].
  apply showFeedingResults_servo in S11.
  pose proof (getDistance_servo w11) as G12.
  destruct (getDistance w11) as [distanceCm w12]. cbn [snd] in G12.
  pose proof (wifi_and_web_servo w12) as N13.
  destruct (Water.wifi_and_web w12) as [connected w13]. cbn [snd] in N13.
  injection H as <-.
  assert (servo_writes (trace w13) = servo_writes (trace w8)) as K13.
  { unfold servo_kept in *.
    rewrite N13, G12, S11, M10, W9. reflexivity. }
  destruct connected.
  - rewrite sendFeedingComplete_servo, K13. exact D8.
  - rewrite K13. exact D8.
Qed.

(** ** The excess warning is never printed *)

Ltac no_excess :=
  unfold no_new_excess, excess_shown;
  cbn [trace emit lcd_print servo_write delay lcd_lines In];
  let H := fresh "H" in
  intros H; repeat (destruct H as [H|H]; [discriminate H|]); exact H.

Lemma no_new_excess_refl (w : World) : no_new_excess w w.
Proof. intros H. exact H. Qed.

Lemma no_new_excess_trans (w1 w2 w3 : World) :
  no_new_excess w1 w2 -> no_new_excess w2 w3 -> no_new_excess w1 w3.
Proof. unfold no_new_excess. auto. Qed.

Lemma same_trace_no_new_excess (w w' : World) :
  trace w' = trace w -> no_new_excess w w'.
Proof. unfold no_new_excess, excess_shown. intros ->. auto. Qed.

Lemma settle_loop_no_excess (n : nat) :
  forall (i samples : Z) (acc : F32.t) (valid : Z) (w : World),
    no_new_excess w (snd (Feeding.settle_loop n i samples acc valid w)).
Proof.
  induction n as [|n IH]; intros i samples acc valid w.
  - apply no_new_excess_refl.
  - cbn [Feeding.settle_loop is_ready].
    destruct (scale_ready w (ready_calls w)); cbn [get_units];
      (eapply no_new_excess_trans; [|apply IH]); no_excess.
Qed.

Lemma measureSettledWeight_no_excess
    (numReadings samples : Z) (w : World) :
  no_new_excess w (snd (Feeding.measureSettledWeight numReadings samples w)).
Proof.
  unfold Feeding.measureSettledWeight.
  pose proof (settle_loop_no_excess (Z.to_nat numReadings) 0 samples
                F32.zero 0 w) as H.
  destruct (Feeding.settle_loop _ 0 samples F32.zero 0 w) as [[acc valid] w'].
  cbn [snd] in H. destruct (0 <? valid); exact H.
Qed.

Lemma recover_trace (n : nat) :
  forall w : World, trace (snd (Feeding.recover n w)) = trace w.
Proof.
  induction n as [|n IH]; intros w.
  - reflexivity.
  - cbn [Feeding.recover is_ready delay scale_ready ready_calls].
    destruct (scale_ready w (ready_calls w)).
    + reflexivity.
    + rewrite IH. reflexivity.
Qed.

Lemma updateFeedingDisplay_no_excess
    (dispensedWeight targetWeight : F32.t) (w : World) :
  no_new_excess w
    (Feeding.updateFeedingDisplay dispensedWeight targetWeight w).
Proof.
  unfold Feeding.updateFeedingDisplay. destruct (F32.ltb _ _); no_excess.
Qed.

(** The pre-close block prints no excess warning, and when it leaves the
    pre-close flag clear the settled amount is below the complete
    threshold. *)
Lemma pre_close_no_excess
    (fuel : nat) (initialWeight targetAmount : F32.t)
    (l l' : Feeding.Locals) (w w' : World) :
  Feeding.pre_close fuel initialWeight targetAmount l w = Some (l', w') ->
  no_new_excess w w' /\
  (Feeding.preCloseExecuted l' = false ->
   F32.ltb (Feeding.dispensedWeight l')
     (F32.mul targetAmount FEED_COMPLETE_FACTOR) = true).
Proof.
  unfold Feeding.pre_close.
  set (w_m := delay SETTLE_FINAL_TIME _).
  assert (Hm : no_new_excess w w_m) by (subst w_m; no_excess).
  clearbody w_m.
  pose proof (measureSettledWeight_no_excess 5 2 w_m) as Hs.
  destruct (Feeding.measureSettledWeight 5 2 w_m) as [settled w1].
  cbn [snd] in Hs.
  assert (H1 : no_new_excess w w1)
    by (eapply no_new_excess_trans; eassumption).
  clear Hm Hs w_m.
  cbn [Feeding.retryCount Feeding.dispensedWeight Feeding.preCloseExecuted
       Feeding.weightReadings Feeding.readingIndex Feeding.currentWeight
       Feeding.lastDisplayUpdate Feeding.lastWeightRead
       Feeding.targetReached Feeding.stabilityCounter].
  destruct (F32.ltb (Feeding.dispensed_since initialWeight settled) _)
    eqn:Hbelow; cbn [andb].
  - destruct (Feeding.retryCount l <? FEED_RETRY_TIMEOUT).
    + intros H. injection H as <- <-. split.
      * eapply no_new_excess_trans; [exact H1|]. no_excess.
      * intros _. exact Hbelow.
    + destruct (F32.geb _ _).
      * destruct (nonBlockingWait fuel QUICK_DISPLAY_TIME 0 _) as [w2|] eqn:W;
          [|discriminate].
        intros H. injection H as <- <-. split; [|discriminate].
        apply nonBlockingWait_trace in W.
        eapply no_new_excess_trans; [exact H1|].
        eapply no_new_excess_trans;
          [|apply same_trace_no_new_excess; exact W].
        no_excess.
      * destruct (FEED_RETRY_TIMEOUT <=? Feeding.retryCount l).
        -- destruct (nonBlockingWait fuel INFO_DISPLAY_TIME 0 _)
             as [w2|] eqn:W; [|discriminate].
           intros H. injection H as <- <-. split; [|discriminate].
           apply nonBlockingWait_trace in W.
           eapply no_new_excess_trans; [exact H1|].
           eapply no_new_excess_trans;
             [|apply same_trace_no_new_excess; exact W].
           no_excess.
        -- intros H. injection H as <- <-. split; [exact H1|discriminate].
  - destruct (F32.geb _ _).
    + destruct (nonBlockingWait fuel QUICK_DISPLAY_TIME 0 _) as [w2|] eqn:W;
        [|discriminate].
      intros H. injection H as <- <-. split; [|discriminate].
      apply nonBlockingWait_trace in W.
      eapply no_new_excess_trans; [exact H1|].
      eapply no_new_excess_trans;
        [|apply same_trace_no_new_excess; exact W].
      no_excess.
    + destruct (FEED_RETRY_TIMEOUT <=? Feeding.retryCount l).
      * destruct (nonBlockingWait fuel INFO_DISPLAY_TIME 0 _)
          as [w2|] eqn:W; [|discriminate].
        intros H. injection H as <- <-. split; [|discriminate].
        apply nonBlockingWait_trace in W.
        eapply no_new_excess_trans; [exact H1|].
        eapply no_new_excess_trans;
          [|apply same_trace_no_new_excess; exact W].
        no_excess.
      * intros H. injection H as <- <-. split; [exact H1|discriminate].
Qed.

(** Below the excess threshold the standard check prints nothing. *)
Lemma standard_check_no_excess
    (fuel : nat) (targetAmount : F32.t) (l l' : Feeding.Locals)
    (w w' : World) :
  F32.geb (Feeding.dispensedWeight l)
    (F32.mul targetAmount (F32.lit 125 100)) = false ->
  Feeding.standard_check fuel targetAmount l w = Some (l', w') ->
  no_new_excess w w'.
Proof.
  intros Hbelow. unfold Feeding.standard_check.
  destruct (F32.geb (Feeding.dispensedWeight l) targetAmount);
    [destruct (Feeding.stabilityCounter l <? 2)|];
    cbn [Feeding.dispensedWeight]; rewrite Hbelow;
    intros H; injection H as _ <-; no_excess.
Qed.

Lemma update_and_check_no_excess
    (fuel : nat) (initialWeight targetAmount : F32.t)
    (l l' : Feeding.Locals) (w w' : World) :
  thresholds_ordered targetAmount ->
  Feeding.update_and_check fuel initialWeight targetAmount l w
  = Some (l', w') ->
  no_new_excess w w'.
Proof.
  intros [Hcal Hcomplete]. unfold Feeding.update_and_check.
  cbn [get_units].
  set (w1 := mkWorld _ _ _ _ _ _ _ _ _ _ _ _ _ _ _).
  assert (Hw1 : no_new_excess w w1)
    by (subst w1; apply same_trace_no_new_excess; reflexivity).
  clearbody w1.
  set (l1 := Feeding.mkLocals _ _ _ _ _ _ _ _ _ _). clearbody l1.
  destruct (Feeding.preCloseExecuted l1) eqn:Hpre; cbn [negb andb].
  - rewrite Hpre. cbn [negb]. intros H. injection H as _ <-. exact Hw1.
  - destruct (F32.geb (Feeding.dispensedWeight l1) _) eqn:Hnear.
    + destruct (Feeding.pre_close fuel initialWeight targetAmount l1 w1)
        as [[l2 w2]|] eqn:Hblock; [|discriminate].
      apply pre_close_no_excess in Hblock. destruct Hblock as [H2 Hclear].
      destruct (Feeding.preCloseExecuted l2); cbn [negb].
      * intros H. injection H as _ <-.
        eapply no_new_excess_trans; eassumption.
      * intros H. apply standard_check_no_excess in H.
        -- eapply no_new_excess_trans; [|exact H].
           eapply no_new_excess_trans; eassumption.
        -- eapply ltb_geb_false; [apply Hclear; reflexivity|exact Hcomplete].
    + rewrite Hpre. cbn [negb]. intros H.
      apply standard_check_no_excess in H.
      * eapply no_new_excess_trans; eassumption.
      * eapply geb_false_mono; [exact Hnear|exact Hcal].
Qed.

Lemma poll_no_excess
    (fuel : nat) (initialWeight targetAmount : F32.t) (now : Z)
    (l : Feeding.Locals) (w : World) (flow : Feeding.Flow) :
  thresholds_ordered targetAmount ->
  Feeding.poll fuel initialWeight targetAmount now l w = Some flow ->
  match flow with
  | Feeding.Go _ w' => no_new_excess w w'
  | Feeding.Ret _ _ w' => no_new_excess w w'
  end.
Proof.
  intros Hord. unfold Feeding.poll. cbn [is_ready].
  set (w1 := mkWorld _ _ _ _ _ _ _ _ _ _ _ _ _ _ _).
  assert (Hw1 : no_new_excess w w1)
    by (subst w1; apply same_trace_no_new_excess; reflexivity).
  clearbody w1.
  assert (Hw2 : no_new_excess w
                  (snd (if scale_ready w (ready_calls w) then (true, w1)
                        else Feeding.recover 5 w1))).
  { destruct (scale_ready w (ready_calls w)); [exact Hw1|].
    eapply no_new_excess_trans; [exact Hw1|].
    apply same_trace_no_new_excess. apply recover_trace. }
  destruct (if scale_ready w (ready_calls w) then (true, w1)
            else Feeding.recover 5 w1) as [working w2].
  cbn [snd] in Hw2. clear Hw1 w1.
  destruct working; cbn [negb]; cbv beta iota.
  - destruct (Feeding.update_and_check _ _ _ _ _) as [[l3 w3]|] eqn:U;
      [|discriminate].
    intros H. injection H as <-.
    apply update_and_check_no_excess in U; [|exact Hord].
    eapply no_new_excess_trans; eassumption.
  - unfold lcdMessage. cbn [Z.ltb LCD_TIMEOUT Z.compare Pos.compare].
    destruct (nonBlockingWait fuel _ 0 _) as [w3|] eqn:W3; [|discriminate].
    destruct (nonBlockingWait fuel _ 0 (servo_write _ w3)) as [w4|] eqn:W4;
      [|discriminate].
    intros H. injection H as <-.
    apply nonBlockingWait_trace in W3. apply nonBlockingWait_trace in W4.
    eapply no_new_excess_trans; [exact Hw2|].
    unfold no_new_excess, excess_shown. rewrite W4.
    cbn [trace servo_write emit lcd_lines]. rewrite W3. no_excess.
Qed.

(** C1: every call of dispenseFoodWithFeedback returns (a fuel of 2951
    passes is enough for any scale), and whenever it returns the last
    command it gave to the hatch servo is SERVO_CLOSE_ANGLE, whether the
    loop ended (target reached, retries used up, excess or timeout) or the
    scale-error path returned from inside it.  Hence feeding(): when it
    returns, either it has given the servo no command at all (scale not
    ready, or feeding cancelled at the bowl check) or the last command it
    gave is SERVO_CLOSE_ANGLE. *)
Theorem hatch_closed_on_return
    (initialWeight targetAmount : F32.t) (isScheduled : bool) (w : World)
    (fuel : nat) :
  ((2951 <= fuel)%nat ->
   exists (v : F32.t) (w' : World),
     Feeding.dispenseFoodWithFeedback fuel initialWeight targetAmount w
     = Some (v, w')) /\
  (forall (v : F32.t) (w' : World),
     Feeding.dispenseFoodWithFeedback fuel initialWeight targetAmount w
     = Some (v, w') ->
     hd_error (servo_writes (trace w')) = Some SERVO_CLOSE_ANGLE) /\
  (forall w' : World,
     Feeding.feeding fuel isScheduled w = Some w' ->
     servo_kept w w' \/
     hd_error (servo_writes (trace w')) = Some SERVO_CLOSE_ANGLE).
Proof.
  split; [|split].
  - intros Hfuel. unfold Feeding.dispenseFoodWithFeedback.
    destruct (dispense_loop_spec fuel initialWeight targetAmount w Hfuel)
      as (flow & Hrun & _).
    rewrite Hrun. destruct flow as [l' w' | v l' w'];
      do 2 eexists; reflexivity.
  - intros v w' H. eapply dispense_returns_closed. exact H.
  - intros w' H. eapply feeding_servo. exact H.
Qed.

(** C1 at a bowl that holds 5 g and a hopper that gives nothing: the
    dispense returns, and feeding() returns after the dispense has timed
    out, both with the hatch commanded shut. *)
Lemma hatch_closed_on_return_witness :
  (exists (v : F32.t) (w' : World),
     Feeding.dispenseFoodWithFeedback 2951 F32.zero FEED_WEIGHT
       (scale_world 0 (fun _ => F32.of_Z 5))
     = Some (v, w') /\
     hd_error (servo_writes (trace w')) = Some SERVO_CLOSE_ANGLE) /\
  (exists w' : World,
     Feeding.feeding 2951 false (scale_world 0 (fun _ => F32.of_Z 5))
     = Some w' /\
     hd_error (servo_writes (trace w')) = Some SERVO_CLOSE_ANGLE).
Proof.
  destruct (hatch_closed_on_return F32.zero FEED_WEIGHT false
              (scale_world 0 (fun _ => F32.of_Z 5)) 2951)
    as (Hret & Hclosed & Hfeeding).
  split.
  - destruct Hret as (v & w' & Hrun); [lia|].
    exists v, w'. split; [exact Hrun|]. apply (Hclosed v w' Hrun).
  - destruct (Feeding.feeding 2951 false
                (scale_world 0 (fun _ => F32.of_Z 5))) as [w'|] eqn:E.
    + exists w'. split; [reflexivity|].
      destruct (Hfeeding w' eq_refl) as [Hkept|Hshut]; [|exact Hshut].
      vm_compute in E. injection E as <-.
      vm_compute in Hkept. discriminate Hkept.
    + vm_compute in E. discriminate E.
Defined.

Lemma feed_body_no_excess
    (fuel : nat) (initialWeight targetAmount : F32.t)
    (l : Feeding.Locals) (w : World) (flow : Feeding.Flow) :
  thresholds_ordered targetAmount ->
  Feeding.feed_body fuel initialWeight targetAmount l w = Some flow ->
  match flow with
  | Feeding.Go _ w' => no_new_excess w w'
  | Feeding.Ret _ _ w' => no_new_excess w w'
  end.
Proof.
  intros Hord. unfold Feeding.feed_body.
  assert (Hshow : forall (l1 : Feeding.Locals) (w1 : World) b,
             no_new_excess w w1 ->
             no_new_excess w
               (delay 10
                  (if b : bool
                   then Feeding.updateFeedingDisplay
                          (Feeding.dispensedWeight l1) targetAmount w1
                   else w1))).
  { intros l1 w1 b H1. destruct b.
    - eapply no_new_excess_trans; [exact H1|].
      eapply no_new_excess_trans; [apply updateFeedingDisplay_no_excess|].
      no_excess.
    - eapply no_new_excess_trans; [exact H1|]. no_excess. }
  destruct (WEIGHT_READ_INTERVAL <=? _).
  - destruct (Feeding.poll _ _ _ _ _ _) as [[l1 w1|v1 l1 w1]|] eqn:P;
      [| |discriminate]; apply poll_no_excess in P; try exact Hord.
    + destruct (LCD_UPDATE_INTERVAL <=? _) eqn:D;
        intros H; injection H as <-.
      * apply (Hshow l1 w1 true P).
      * apply (Hshow l1 w1 false P).
    + intros H. injection H as <-. exact P.
  - destruct (LCD_UPDATE_INTERVAL <=? _) eqn:D;
      intros H; injection H as <-.
    + apply (Hshow l w true (no_new_excess_refl w)).
    + apply (Hshow l w false (no_new_excess_refl w)).
Qed.

Lemma feed_loop_no_excess (rounds fuel : nat)
    (initialWeight targetAmount : F32.t) (startTime : Z) :
  thresholds_ordered targetAmount ->
  forall (l : Feeding.Locals) (w : World) (flow : Feeding.Flow),
    Feeding.feed_loop rounds fuel initialWeight targetAmount startTime l w
    = Some flow ->
    match flow with
    | Feeding.Go _ w' => no_new_excess w w'
    | Feeding.Ret _ _ w' => no_new_excess w w'
    end.
Proof.
  intros Hord.
  induction rounds as [|rounds IH]; intros l w flow H.
  - discriminate H.
  - cbn [Feeding.feed_loop] in H.
    destruct (negb (Feeding.targetReached l) && _).
    + destruct (Feeding.feed_body _ _ _ _ _) as [[l1 w1|v1 l1 w1]|] eqn:B;
        [| |discriminate H];
        apply feed_body_no_excess in B; try exact Hord.
      * apply IH in H.
        destruct flow; eapply no_new_excess_trans; eassumption.
      * injection H as <-. exact B.
    + injection H as <-. apply no_new_excess_refl.
Qed.

Lemma dispense_no_excess
    (fuel : nat) (initialWeight targetAmount : F32.t) (w w' : World)
    (v : F32.t) :
  thresholds_ordered targetAmount ->
  Feeding.dispenseFoodWithFeedback fuel initialWeight targetAmount w
  = Some (v, w') ->
  no_new_excess w w'.
Proof.
  intros Hord.
  unfold Feeding.dispenseFoodWithFeedback, Feeding.dispense_loop.
  destruct (Feeding.feed_loop _ _ _ _ _ _ _) as [[l1 w1|v1 l1 w1]|] eqn:L;
    [| |discriminate]; apply feed_loop_no_excess in L; try exact Hord;
    intros H; injection H as _ <-.
  - eapply no_new_excess_trans; [|eapply no_new_excess_trans; [exact L|]];
      no_excess.
  - eapply no_new_excess_trans; [|exact L]. no_excess.
Qed.

(** The emergency stop of dispenseFoodWithFeedback is dead code: for a
    target whose pre-close and complete thresholds do not exceed its excess
    threshold (as for FEED_WEIGHT), the dispense returns, on any scale,
    without printing the excess warning. *)
Theorem excess_warning_never_shown
    (fuel : nat) (initialWeight targetAmount : F32.t) (w : World) :
  thresholds_ordered targetAmount ->
  (2951 <= fuel)%nat ->
  exists (v : F32.t) (w' : World),
    Feeding.dispenseFoodWithFeedback fuel initialWeight targetAmount w
    = Some (v, w') /\
    no_new_excess w w'.
Proof.
  intros Hord Hfuel.
  destruct (Feeding.dispenseFoodWithFeedback fuel initialWeight targetAmount w)
    as [[v w']|] eqn:E.
  - exists v, w'. split; [reflexivity|].
    eapply dispense_no_excess; eassumption.
  - exfalso. unfold Feeding.dispenseFoodWithFeedback in E.
    destruct (dispense_loop_spec fuel initialWeight targetAmount w Hfuel)
      as (flow & Hrun & _).
    rewrite Hrun in E. destruct flow; discriminate E.
Qed.

(** The same at the target of config.h and a scale that reads 300 g, far
    past the excess threshold of 81.25 g. *)
Lemma excess_warning_never_shown_witness :
  thresholds_ordered FEED_WEIGHT /\
  exists (v : F32.t) (w' : World),
    Feeding.dispenseFoodWithFeedback 2951 F32.zero FEED_WEIGHT
      (scale_world 0 (fun _ => F32.of_Z 300))
    = Some (v, w') /\
    no_new_excess (scale_world 0 (fun _ => F32.of_Z 300)) w'.
Proof.
  assert (H : thresholds_ordered FEED_WEIGHT)
    by (split; vm_compute; reflexivity).
  split; [exact H|].
  apply (excess_warning_never_shown 2951 F32.zero FEED_WEIGHT
           (scale_world 0 (fun _ => F32.of_Z 300)) H).
  lia.
Defined.

(** ** The dispense: the sign of its result *)

Lemma dispensed_since_not_negative (initialWeight x : F32.t) :
  F32.ltb (Feeding.dispensed_since initialWeight x) (F32.of_Z 0) = false.
Proof.
  unfold Feeding.dispensed_since.
  destruct (F32.ltb (F32.sub x initialWeight) (F32.of_Z 0)) eqn:H.
  - reflexivity.
  - exact H.
Qed.

Lemma pre_close_amount
    (fuel : nat) (initialWeight targetAmount : F32.t)
    (l l' : Feeding.Locals) (w w' : World) :
  Feeding.pre_close fuel initialWeight targetAmount l w = Some (l', w') ->
  amount_not_negative l'.
Proof.
  unfold Feeding.pre_close, amount_not_negative.
  destruct (Feeding.measureSettledWeight 5 2 _) as [settled w1].
  cbn [Feeding.retryCount Feeding.dispensedWeight Feeding.preCloseExecuted
       Feeding.weightReadings Feeding.readingIndex Feeding.currentWeight
       Feeding.lastDisplayUpdate Feeding.lastWeightRead
       Feeding.targetReached Feeding.stabilityCounter].
  pose proof (dispensed_since_not_negative initialWeight settled) as Hd.
  destruct (F32.ltb (Feeding.dispensed_since initialWeight settled) _ && _).
  - intros H. injection H as <- _. exact Hd.
  - destruct (F32.geb _ _).
    + destruct (nonBlockingWait fuel QUICK_DISPLAY_TIME 0 _); [|discriminate].
      intros H. injection H as <- _. exact Hd.
    + destruct (FEED_RETRY_TIMEOUT <=? Feeding.retryCount l).
      * destruct (nonBlockingWait fuel INFO_DISPLAY_TIME 0 _);
          [|discriminate].
        intros H. injection H as <- _. exact Hd.
      * intros H. injection H as <- _. exact Hd.
Qed.

Lemma standard_check_amount
    (fuel : nat) (targetAmount : F32.t) (l l' : Feeding.Locals)
    (w w' : World) :
  Feeding.standard_check fuel targetAmount l w = Some (l', w') ->
  Feeding.dispensedWeight l' = Feeding.dispensedWeight l.
Proof.
  unfold Feeding.standard_check.
  destruct (F32.geb (Feeding.dispensedWeight l) targetAmount);
    [destruct (Feeding.stabilityCounter l <? 2)|];
    cbn [Feeding.dispensedWeight];
    (destruct (F32.geb (Feeding.dispensedWeight l) _);
     [destruct (nonBlockingWait fuel QUICK_DISPLAY_TIME 0 _); [|discriminate]
     |]);
    intros H; injection H as <- _; reflexivity.
Qed.

Lemma update_and_check_amount
    (fuel : nat) (initialWeight targetAmount : F32.t)
    (l l' : Feeding.Locals) (w w' : World) :
  Feeding.update_and_check fuel initialWeight targetAmount l w
  = Some (l', w') ->
  amount_not_negative l'.
Proof.
  unfold Feeding.update_and_check. cbn [get_units].
  set (w1 := mkWorld _ _ _ _ _ _ _ _ _ _ _ _ _ _ _). clearbody w1.
  set (l1 := Feeding.mkLocals _ _ _ _ _ _ _ _ _ _).
  assert (H1 : amount_not_negative l1)
    by (subst l1; apply dispensed_since_not_negative).
  clearbody l1.
  destruct (negb (Feeding.preCloseExecuted l1) && _).
  - destruct (Feeding.pre_close fuel initialWeight targetAmount l1 w1)
      as [[l2 w2]|] eqn:Hblock; [|discriminate].
    apply pre_close_amount in Hblock.
    destruct (negb (Feeding.preCloseExecuted l2)).
    + intros H. apply standard_check_amount in H.
      unfold amount_not_negative in *. rewrite H. exact Hblock.
    + intros H. injection H as <- _. exact Hblock.
  - destruct (negb (Feeding.preCloseExecuted l1)).
    + intros H. apply standard_check_amount in H.
      unfold amount_not_negative in *. rewrite H. exact H1.
    + intros H. injection H as <- _. exact H1.
Qed.

Lemma poll_amount
    (fuel : nat) (initialWeight targetAmount : F32.t) (now : Z)
    (l : Feeding.Locals) (w : World) (flow : Feeding.Flow) :
  amount_not_negative l ->
  Feeding.poll fuel initialWeight targetAmount now l w = Some flow ->
  match flow with
  | Feeding.Go l' _ => amount_not_negative l'
  | Feeding.Ret v _ _ => F32.ltb v (F32.of_Z 0) = false
  end.
Proof.
  intros Hl. unfold Feeding.poll.
  destruct (is_ready w) as [ready w1].
  destruct (if ready then (true, w1) else Feeding.recover 5 w1)
    as [working w2].
  destruct working; cbn [negb]; cbv beta iota.
  - destruct (Feeding.update_and_check _ _ _ _ _) as [[l3 w3]|] eqn:U;
      [|discriminate].
    intros H. injection H as <-.
    eapply update_and_check_amount. exact U.
  - destruct (lcdMessage fuel _ _ LCD_TIMEOUT w2) as [w3|]; [|discriminate].
    destruct (nonBlockingWait fuel LCD_TIMEOUT 0 _) as [w4|]; [|discriminate].
    intros H. injection H as <-. exact Hl.
Qed.

Lemma feed_body_amount
    (fuel : nat) (initialWeight targetAmount : F32.t)
    (l : Feeding.Locals) (w : World) (flow : Feeding.Flow) :
  amount_not_negative l ->
  Feeding.feed_body fuel initialWeight targetAmount l w = Some flow ->
  match flow with
  | Feeding.Go l' _ => amount_not_negative l'
  | Feeding.Ret v _ _ => F32.ltb v (F32.of_Z 0) = false
  end.
Proof.
  intros Hl. unfold Feeding.feed_body.
  destruct (WEIGHT_READ_INTERVAL <=? _).
  - destruct (Feeding.poll _ _ _ _ _ _) as [[l1 w1|v1 l1 w1]|] eqn:P;
      [| |discriminate]; apply poll_amount in P; try exact Hl.
    + destruct (LCD_UPDATE_INTERVAL <=? _);
        intros H; injection H as <-; exact P.
    + intros H. injection H as <-. exact P.
  - destruct (LCD_UPDATE_INTERVAL <=? _);
      intros H; injection H as <-; exact Hl.
Qed.

Lemma feed_loop_amount (rounds fuel : nat)
    (initialWeight targetAmount : F32.t) (startTime : Z) :
  forall (l : Feeding.Locals) (w : World) (flow : Feeding.Flow),
    amount_not_negative l ->
    Feeding.feed_loop rounds fuel initialWeight targetAmount startTime l w
    = Some flow ->
    match flow with
    | Feeding.Go l' _ => amount_not_negative l'
    | Feeding.Ret v _ _ => F32.ltb v (F32.of_Z 0) = false
    end.
Proof.
  induction rounds as [|rounds IH]; intros l w flow Hl H.
  - discriminate H.
  - cbn [Feeding.feed_loop] in H.
    destruct (negb (Feeding.targetReached l) && _).
    + destruct (Feeding.feed_body _ _ _ _ _) as [[l1 w1|v1 l1 w1]|] eqn:B;
        [| |discriminate H];
        apply feed_body_amount in B; try exact Hl.
      * eapply IH; eassumption.
      * injection H as <-. exact B.
    + injection H as <-. exact Hl.
Qed.

(** dispenseFoodWithFeedback never returns an amount below zero: every
    value stored in dispensedWeight has passed the clamp
    [if (dispensedWeight < 0) dispensedWeight = 0], also when the bowl ends
    lighter than it started. *)
Theorem dispensed_amount_never_negative
    (fuel : nat) (initialWeight targetAmount : F32.t) (w : World) :
  (2951 <= fuel)%nat ->
  exists (v : F32.t) (w' : World),
    Feeding.dispenseFoodWithFeedback fuel initialWeight targetAmount w
    = Some (v, w') /\
    F32.ltb v (F32.of_Z 0) = false.
Proof.
  intros Hfuel.
  destruct (dispense_loop_spec fuel initialWeight targetAmount w Hfuel)
    as (flow & Hrun & _).
  unfold Feeding.dispenseFoodWithFeedback. rewrite Hrun.
  unfold Feeding.dispense_loop in Hrun.
  apply feed_loop_amount in Hrun; [|reflexivity].
  destruct flow as [l' w' | v l' w'];
    do 2 eexists; (split; [reflexivity|]); exact Hrun.
Qed.

(** A bowl that starts at 40 g and reads 10 g throughout the dispense: the
    result is 0, not -30. *)
Lemma dispensed_amount_never_negative_witness :
  exists (v : F32.t) (w' : World),
    Feeding.dispenseFoodWithFeedback 2951 (F32.of_Z 40) FEED_WEIGHT
      (scale_world 0 (fun _ => F32.of_Z 10))
    = Some (v, w') /\
    F32.ltb v (F32.of_Z 0) = false.
Proof.
  apply (dispensed_amount_never_negative 2951 (F32.of_Z 40) FEED_WEIGHT
           (scale_world 0 (fun _ => F32.of_Z 10))).
  lia.
Defined.

(** ** checkScaleReady *)

Lemma scale_ready_loop_spec (fuel : nat) (timeout : Z) (w0 : World) :
  0 <= timeout <= 2 ^ 32 - 50 ->
  forall (i : nat) (w : World),
    clock w = clock w0 + 50 * Z.of_nat i ->
    scale_ready w = scale_ready w0 ->
    ready_calls w = (ready_calls w0 + i)%nat ->
    trace w = trace w0 ->
    not_ready_for i w0 ->
    50 * Z.of_nat i < timeout + 50 ->
    timeout - 50 * Z.of_nat i + 50 <= 50 * Z.of_nat fuel ->
    exists (ready : bool) (w' : World),
      Feeding.scale_ready_loop fuel (u32 (clock w0)) timeout w
      = Some (ready, w') /\
      trace w' = trace w0 /\
      scale_answer timeout w0 ready w'.
Proof.
  intros Ht.
  induction fuel as [|fuel IH]; intros i w Hclock Hscale Hcalls Htrace Hnot Hi
    Hfuel.
  - lia.
  - cbn [Feeding.scale_ready_loop]. rewrite elapsed_exact by lia.
    destruct (Z.ltb_spec (clock w - clock w0) timeout) as [Hlt|Hge].
    + cbn [is_ready]. rewrite Hscale, Hcalls.
      destruct (scale_ready w0 (ready_calls w0 + i)) eqn:Hready.
      * exists true. eexists. split; [reflexivity|].
        split; [exact Htrace|]. exists i.
        cbn [clock ready_calls]. repeat split; try assumption; lia.
      * apply (IH (S i)); cbn [clock scale_ready ready_calls trace delay];
          try assumption; try reflexivity; try lia.
        intros j Hj. destruct (Nat.eq_dec j i) as [->|Hne].
        -- exact Hready.
        -- apply Hnot. lia.
    + exists false, w. split; [reflexivity|]. split; [exact Htrace|].
      split; [|lia].
      intros k Hk. apply Hnot. lia.
Qed.

(** What the loop tells about the polls it made, whenever it returns. *)
Lemma scale_ready_loop_polls (fuel : nat) :
  forall (startCheck timeout : Z) (w w' : World) (ready : bool),
    Feeding.scale_ready_loop fuel startCheck timeout w = Some (ready, w') ->
    ((u32 (millis w - startCheck) <? timeout) = true ->
     (ready_calls w < ready_calls w')%nat) /\
    (ready_calls w <= ready_calls w')%nat /\
    if ready then
      (ready_calls w < ready_calls w')%nat /\
      scale_ready w (ready_calls w' - 1) = true /\
      (forall j : nat, (ready_calls w <= j < ready_calls w' - 1)%nat ->
                       scale_ready w j = false)
    else
      forall j : nat, (ready_calls w <= j < ready_calls w')%nat ->
                      scale_ready w j = false.
Proof.
  induction fuel as [|fuel IH]; intros startCheck timeout w w' ready H.
  - discriminate H.
  - cbn [Feeding.scale_ready_loop is_ready] in H.
    destruct (u32 (millis w - startCheck) <? timeout).
    + destruct (scale_ready w (ready_calls w)) eqn:Hpoll.
      * injection H as <- <-. cbn [ready_calls].
        replace (S (ready_calls w) - 1)%nat with (ready_calls w) by lia.
        split; [lia|]. split; [lia|]. split; [lia|].
        split; [exact Hpoll|]. intros j Hj. lia.
      * apply IH in H. cbn [ready_calls scale_ready delay] in H.
        destruct H as (_ & Hcalls & Hpolls).
        split; [lia|]. split; [lia|].
        destruct ready.
        -- destruct Hpolls as (Hmore & Hlast & Hbefore).
           split; [lia|]. split; [exact Hlast|]. intros j Hj.
           destruct (Nat.eq_dec j (ready_calls w)) as [->|Hne];
             [exact Hpoll|apply Hbefore; lia].
        -- intros j Hj.
           destruct (Nat.eq_dec j (ready_calls w)) as [->|Hne];
             [exact Hpoll|apply Hpolls; lia].
    + injection H as <- <-. split; [discriminate|]. split; [lia|].
      intros j Hj. lia.
Qed.

(** checkScaleReady returns, and prints nothing.  It answers true when
    the last poll it made found the scale ready, no poll before it having
    done so; it answers false when no poll it made found the scale ready,
    and then not before [timeout] ms have passed.  With a positive
    [timeout] it polls at least once. *)
Theorem checkScaleReady_answer (fuel : nat) (timeout : Z) (w : World) :
  0 <= timeout < 2 ^ 16 ->
  timeout + 50 <= 50 * Z.of_nat fuel ->
  exists (ready : bool) (w' : World),
    Feeding.checkScaleReady fuel timeout w = Some (ready, w') /\
    trace w' = trace w /\
    scale_verdict timeout w ready w'.
Proof.
  intros Ht Hfuel.
  destruct (scale_ready_loop_spec fuel timeout w ltac:(lia) 0 w)
    as (ready & w' & Hrun & Htrace & Hanswer);
    try reflexivity; try lia.
  { intros j Hj. lia. }
  exists ready, w'. unfold Feeding.checkScaleReady, millis.
  split; [exact Hrun|]. split; [exact Htrace|].
  apply scale_ready_loop_polls in Hrun.
  destruct Hrun as (Hfirst & _ & Hpolls). unfold scale_verdict. split.
  - intros Hpos. apply Hfirst. apply Z.ltb_lt.
    rewrite elapsed_exact by lia. lia.
  - destruct ready; [exact Hpolls|]. split; [exact Hpolls|].
    cbn [scale_answer] in Hanswer. lia.
Qed.

(** A scale that becomes ready at its third poll: the answer is true,
    given at that poll. *)
Lemma checkScaleReady_answer_witness :
  exists (ready : bool) (w' : World),
    Feeding.checkScaleReady 61 SCALE_TIMEOUT slow_scale_world
    = Some (ready, w') /\
    trace w' = trace slow_scale_world /\
    scale_verdict SCALE_TIMEOUT slow_scale_world ready w' /\
    ready = true /\ ready_calls w' = 3%nat.
Proof.
  destruct (checkScaleReady_answer 61 SCALE_TIMEOUT slow_scale_world)
    as (ready & w' & Hrun & Htrace & Hverdict).
  - unfold SCALE_TIMEOUT. lia.
  - unfold SCALE_TIMEOUT. lia.
  - exists ready, w'. split; [exact Hrun|]. split; [exact Htrace|].
    split; [exact Hverdict|].
    vm_compute in Hrun. injection Hrun as <- <-. split; reflexivity.
Defined.

(** ** checkExistingFood *)

Lemma countdown_frame (notifyStartTime : Z) (w : World) :
  clock (Feeding.countdown notifyStartTime w) = clock w /\
  button_low (Feeding.countdown notifyStartTime w) = button_low w /\
  lcd_lines (trace (Feeding.countdown notifyStartTime w))
  = lcd_lines (trace w) \/
  clock (Feeding.countdown notifyStartTime w) = clock w /\
  button_low (Feeding.countdown notifyStartTime w) = button_low w /\
  lcd_lines (trace (Feeding.countdown notifyStartTime w))
  = "  "%string :: lcd_lines (trace w).
Proof.
  unfold Feeding.countdown. destruct (negb _).
  - right. repeat split.
  - left. repeat split.
Qed.

(** With the button untouched the notification loop runs its full 20 s and
    answers false; it prints nothing but the countdown. *)
Lemma notify_loop_idle (fuel : nat) (since : Z) (rounds : nat) :
  forall (i : Z) (w : World),
    0 <= i ->
    clock w = since + 100 * i ->
    button_untouched w ->
    100 * i <= Feeding.NOTIFY_TIMEOUT ->
    Feeding.NOTIFY_TIMEOUT - 100 * i + 100 <= 100 * Z.of_nat rounds ->
    exists w' : World,
      Feeding.notify_loop rounds fuel (u32 since) w = Some (false, w') /\
      clock w' = since + Feeding.NOTIFY_TIMEOUT /\
      (forall s : string,
          s <> "  "%string ->
          In s (lcd_lines (trace w')) -> In s (lcd_lines (trace w))).
Proof.
  unfold Feeding.NOTIFY_TIMEOUT.
  induction rounds as [|rounds IH]; intros i w Hi Hclock Hbutton Hle Hrounds.
  - lia.
  - cbn [Feeding.notify_loop]. rewrite elapsed_exact by lia.
    unfold Feeding.NOTIFY_TIMEOUT.
    destruct (Z.ltb_spec (clock w - since) 20000) as [Hlt|Hge].
    + cbn [button_is_low]. rewrite (Hbutton (button_calls w)).
      set (w1 := mkWorld _ _ _ _ _ _ _ _ _ _ _ _ _ _ _).
      destruct (countdown_frame (u32 since) w1) as [(Hc & Hb & Hl)|(Hc & Hb & Hl)];
        (destruct (IH (i + 1) (delay 100 (Feeding.countdown (u32 since) w1)))
           as (w' & Hrun & Hend & Hlines);
         [lia
         |cbn [clock delay]; rewrite Hc; subst w1; cbn [clock]; lia
         |intros k; cbn [button_low delay]; rewrite Hb; subst w1;
          cbn [button_low]; apply Hbutton
         |lia
         |lia
         |exists w'; split; [exact Hrun|]; split; [exact Hend|];
          intros s Hs Hin; specialize (Hlines s Hs Hin);
          cbn [trace delay] in Hlines; rewrite Hl in Hlines; subst w1;
          cbn [trace] in Hlines]).
      * exact Hlines.
      * destruct Hlines as [Heq|Hin']; [congruence|exact Hin'].
    + exists w. split; [reflexivity|]. split; [lia|]. auto.
Qed.

Lemma checkExistingFood_idle
    (fuel : nat) (currentWeight threshold : F32.t) (w : World) :
  button_untouched w ->
  (301 <= fuel)%nat ->
  F32.geb currentWeight threshold = true ->
  exists w' : World,
    Feeding.checkExistingFood fuel currentWeight threshold w
    = Some (false, w') /\
    clock w' = clock w + 28000 /\
    servo_kept w w' /\
    In "Feeding canceled"%string (lcd_lines (trace w')) /\
    (In "Continuing..."%string (lcd_lines (trace w')) ->
     In "Continuing..."%string (lcd_lines (trace w))).
Proof.
  intros Hbutton Hfuel Hfull. unfold Feeding.checkExistingFood.
  rewrite Hfull.
  unfold INFO_DISPLAY_TIME, QUICK_DISPLAY_TIME.
  rewrite nonBlockingWait_3000 by exact Hfuel.
  set (w1 := lcd_print (Lit "Btn:feed / Wait:20s") _).
  destruct (notify_loop_idle fuel (clock w1) fuel 0 w1)
    as (w2 & Hrun & Hclock & Hlines);
    try (unfold Feeding.NOTIFY_TIMEOUT; lia).
  { intros k. subst w1. cbn [button_low lcd_print emit delay].
    apply Hbutton. }
  unfold millis. rewrite Hrun. cbv beta iota.
  rewrite nonBlockingWait_2000 by exact Hfuel.
  rewrite nonBlockingWait_3000 by exact Hfuel.
  eexists. split; [reflexivity|].
  assert (Hservo : servo_kept w w2).
  { apply notify_loop_servo in Hrun. eapply servo_kept_trans; [|exact Hrun].
    subst w1. reflexivity. }
  split; [|split; [|split]].
  - cbn [clock delay lcd_print emit]. rewrite Hclock. subst w1.
    cbn [clock delay lcd_print emit]. unfold Feeding.NOTIFY_TIMEOUT. lia.
  - eapply servo_kept_trans; [exact Hservo|]. reflexivity.
  - cbn [trace delay lcd_print emit lcd_lines In]. auto.
  - cbn [trace delay lcd_print emit lcd_lines In].
    intros [H|[H|[H|H]]]; try discriminate H.
    apply Hlines in H; [|discriminate].
    subst w1. cbn [trace delay lcd_print emit lcd_lines In] in H.
    destruct H as [H|[H|[H|H]]]; try discriminate H.
    exact H.
Qed.

(** checkExistingFood with nobody at the button.  A bowl below the
    threshold lets the feeding go on at once, with nothing shown and
    nothing done.  A bowl at or above it cancels the feeding: the answer
    is false, with "Feeding canceled" shown, "Continuing..." not shown
    and no command given to the hatch. *)
Theorem checkExistingFood_without_button
    (fuel : nat) (currentWeight threshold : F32.t) (w : World) :
  button_untouched w ->
  (301 <= fuel)%nat ->
  if F32.geb currentWeight threshold then
    exists w' : World,
      Feeding.checkExistingFood fuel currentWeight threshold w
      = Some (false, w') /\
      servo_kept w w' /\
      In "Feeding canceled"%string (lcd_lines (trace w')) /\
      (In "Continuing..."%string (lcd_lines (trace w')) ->
       In "Continuing..."%string (lcd_lines (trace w)))
  else
    Feeding.checkExistingFood fuel currentWeight threshold w = Some (true, w).
Proof.
  intros Hbutton Hfuel.
  destruct (F32.geb currentWeight threshold) eqn:Hfull.
  - destruct (checkExistingFood_idle fuel currentWeight threshold w)
      as (w' & Hrun & _ & Hrest); try assumption.
    exists w'. split; [exact Hrun|exact Hrest].
  - unfold Feeding.checkExistingFood. rewrite Hfull. reflexivity.
Qed.

(** A bowl holding 60 g, against FEED_THRESHOLD = 50 g. *)
Lemma checkExistingFood_without_button_witness :
  exists w' : World,
    Feeding.checkExistingFood 301 (F32.of_Z 60) FEED_THRESHOLD (quiet_world 0)
    = Some (false, w') /\
    servo_kept (quiet_world 0) w' /\
    In "Feeding canceled"%string (lcd_lines (trace w')) /\
    (In "Continuing..."%string (lcd_lines (trace w')) ->
     In "Continuing..."%string (lcd_lines (trace (quiet_world 0)))).
Proof.
  pose proof (checkExistingFood_without_button 301 (F32.of_Z 60)
                FEED_THRESHOLD (quiet_world 0)
                (fun k => eq_refl) ltac:(lia)) as H.
  assert (E : F32.geb (F32.of_Z 60) FEED_THRESHOLD = true)
    by (vm_compute; reflexivity).
  rewrite E in H. exact H.
Defined.

(** ** feeding(): a whole run with nobody at the button *)

Lemma idles_refl (w : World) : idles 0 w w.
Proof. unfold idles. repeat split. lia. Qed.

Lemma idles_trans (a b : Z) (w1 w2 w3 : World) :
  idles a w1 w2 -> idles b w2 w3 -> idles (a + b) w1 w3.
Proof.
  unfold idles.
  intros (C1 & R1 & RC1 & U1 & UC1 & B1 & S1) (C2 & R2 & RC2 & U2 & UC2 & B2 & S2).
  repeat split; try congruence. lia.
Qed.

Lemma idles_same_scale (d : Z) (w w' : World) :
  idles d w w' -> same_scale w w'.
Proof. unfold idles, same_scale. intuition. Qed.

Lemma wifi_and_web_idles (w : World) :
  idles 0 w (snd (Water.wifi_and_web w)).
Proof.
  unfold Water.wifi_and_web, isWebConnected, wifi_connected.
  destruct (wifi_up w (wifi_calls w)); cbn;
    [destruct (webConnected w); cbn|];
    unfold idles; cbn; repeat split; lia.
Qed.

Lemma sendLogEvent_idles (eventType details : string) (w : World) :
  idles 0 w (sendLogEvent eventType details w).
Proof.
  unfold sendLogEvent. destruct (webConnected w);
    unfold idles; cbn; repeat split; lia.
Qed.

Lemma lcd_print_idles (t : Text) (w : World) : idles 0 w (lcd_print t w).
Proof. unfold idles. cbn. repeat split. lia. Qed.

Lemma delay_idles (d : Z) (w : World) : idles d w (delay d w).
Proof. unfold idles. cbn. repeat split. Qed.

Lemma scale_ready_loop_frame (fuel : nat) :
  forall (startCheck timeout : Z) (w w' : World) (ready : bool),
    Feeding.scale_ready_loop fuel startCheck timeout w = Some (ready, w') ->
    same_scale w w' /\ button_low w' = button_low w.
Proof.
  induction fuel as [|fuel IH]; intros startCheck timeout w w' ready H.
  - discriminate H.
  - cbn [Feeding.scale_ready_loop is_ready] in H.
    destruct (_ <? timeout).
    + destruct (scale_ready w (ready_calls w)).
      * injection H as _ <-. repeat split.
      * apply IH in H. exact H.
    + injection H as _ <-. repeat split.
Qed.

Lemma take_readings_frame (n : nat) (samples : Z) :
  forall w : World,
    clock (snd (take_readings n samples w)) = clock w + 50 * Z.of_nat n /\
    same_scale w (snd (take_readings n samples w)) /\
    button_low (snd (take_readings n samples w)) = button_low w.
Proof.
  induction n as [|n IH]; intros w.
  - cbn. repeat split. lia.
  - cbn [take_readings is_ready].
    destruct (scale_ready w (ready_calls w)); cbn [get_units];
      match goal with
      | |- context [take_readings n samples ?w1] =>
          specialize (IH w1); destruct (take_readings n samples w1)
      end; cbn [snd clock scale_ready scale_units button_low delay] in *;
      destruct IH as (C & [R U] & B);
      (split; [lia|split; [split; assumption|assumption]]).
Qed.

Lemma getStableWeight_frame (w : World) :
  clock (snd (getStableWeight 5 2 WEIGHT_STABILITY_THRESHOLD w))
  = clock w + 250 /\
  same_scale w (snd (getStableWeight 5 2 WEIGHT_STABILITY_THRESHOLD w)) /\
  button_low (snd (getStableWeight 5 2 WEIGHT_STABILITY_THRESHOLD w))
  = button_low w.
Proof.
  unfold getStableWeight. change (10 <? 5) with false. cbv iota.
  change (Z.to_nat 5) with 5%nat.
  pose proof (take_readings_frame 5 2 w) as H.
  destruct (take_readings 5 2 w) as [weights w'].
  cbn [snd] in *. destruct (_ =? 0); cbn [snd]; exact H.
Qed.

Lemma showFeedingResults_runs
    (fuel : nat) (initialWeight finalWeight targetAmount : F32.t)
    (w : World) :
  (301 <= fuel)%nat ->
  exists w' : World,
    Feeding.showFeedingResults fuel initialWeight finalWeight targetAmount w
    = Some w' /\
    clock w' = clock w + 12000 /\
    servo_kept w w' /\
    In "Feeding complete"%string (lcd_lines (trace w')).
Proof.
  intros Hfuel. unfold Feeding.showFeedingResults, lcdMessage.
  unfold INFO_DISPLAY_TIME. change (0 <? 3000) with true. cbv iota.
  rewrite nonBlockingWait_3000 by exact Hfuel.
  rewrite nonBlockingWait_3000 by exact Hfuel.
  rewrite nonBlockingWait_3000 by exact Hfuel.
  rewrite nonBlockingWait_3000 by exact Hfuel.
  eexists. split; [reflexivity|].
  split; [cbn [clock delay lcd_print emit]; lia|].
  split; [reflexivity|].
  cbn [trace delay lcd_print emit lcd_lines In]. auto.
Qed.

Lemma dispense_runs
    (fuel : nat) (initialWeight targetAmount : F32.t) (w : World) :
  (2951 <= fuel)%nat ->
  exists (v : F32.t) (w' : World),
    Feeding.dispenseFoodWithFeedback fuel initialWeight targetAmount w
    = Some (v, w') /\
    clock w' - clock w < FEED_TIMEOUT + 8010 /\
    hd_error (servo_writes (trace w')) = Some SERVO_CLOSE_ANGLE.
Proof.
  intros Hfuel.
  destruct (Feeding.dispenseFoodWithFeedback fuel initialWeight targetAmount w)
    as [[v w']|] eqn:E.
  - exists v, w'. split; [reflexivity|]. split.
    + unfold Feeding.dispenseFoodWithFeedback in E.
      destruct (dispense_loop_spec fuel initialWeight targetAmount w Hfuel)
        as (flow & Hrun & Hflow).
      rewrite Hrun in E. destruct flow as [l1 w1 | v1 l1 w1];
        injection E as _ <-; destruct Hflow as (_ & Hclock & _);
        cbn [clock servo_write emit]; unfold FEED_TIMEOUT in *; lia.
    + eapply dispense_returns_closed. exact E.
  - exfalso. unfold Feeding.dispenseFoodWithFeedback in E.
    destruct (dispense_loop_spec fuel initialWeight targetAmount w Hfuel)
      as (flow & Hrun & _).
    rewrite Hrun in E. destruct flow; discriminate E.
Qed.

Lemma measureSettledWeight_5_5 (w : World) :
  clock w <= clock (snd (Feeding.measureSettledWeight 5 5 w)) <= clock w + 500 /\
  servo_kept w (snd (Feeding.measureSettledWeight 5 5 w)) /\
  (forall s : string,
      In s (lcd_lines (trace w)) ->
      In s (lcd_lines (trace (snd (Feeding.measureSettledWeight 5 5 w))))).
Proof.
  split; [|split].
  - unfold Feeding.measureSettledWeight.
    pose proof (settle_loop_evolves 5 0 5 F32.zero 0 w) as H.
    change (Z.to_nat 5) with 5%nat.
    destruct (Feeding.settle_loop 5 0 5 F32.zero 0 w) as [[acc valid] w'].
    cbn [snd] in H. destruct H as [H _].
    destruct (0 <? valid); cbn [snd]; lia.
  - apply measureSettledWeight_servo.
  - assert (H : forall (n : nat) (w0 : World) (acc : F32.t) (i valid : Z)
                       (s : string),
               In s (lcd_lines (trace w0)) ->
               In s (lcd_lines
                       (trace (snd (Feeding.settle_loop n i 5 acc valid w0))))).
    { induction n as [|n IH]; intros w0 acc i valid s Hs.
      - exact Hs.
      - cbn [Feeding.settle_loop is_ready].
        destruct (scale_ready w0 (ready_calls w0)); cbn [get_units];
          apply IH; exact Hs. }
    intros s Hs. unfold Feeding.measureSettledWeight.
    specialize (H (Z.to_nat 5) w F32.zero 0 0 s Hs).
    destruct (Feeding.settle_loop (Z.to_nat 5) 0 5 F32.zero 0 w)
      as [[a v] w'].
    cbn [snd] in H. destruct (0 <? v); exact H.
Qed.

Lemma checkScaleReady_total (fuel : nat) (w : World) :
  (2951 <= fuel)%nat ->
  exists (ready : bool) (w' : World),
    Feeding.checkScaleReady fuel SCALE_TIMEOUT w = Some (ready, w') /\
    trace w' = trace w /\
    scale_answer SCALE_TIMEOUT w ready w' /\
    same_scale w w' /\
    button_low w' = button_low w.
Proof.
  intros Hfuel. unfold Feeding.checkScaleReady, millis.
  destruct (scale_ready_loop_spec fuel SCALE_TIMEOUT w
              ltac:(unfold SCALE_TIMEOUT; lia) 0 w)
    as (ready & w' & Hrun & Htrace & Hanswer);
    try reflexivity; try (unfold SCALE_TIMEOUT; lia).
  { intros j Hj. lia. }
  exists ready, w'. split; [exact Hrun|]. split; [exact Htrace|].
  split; [exact Hanswer|].
  apply scale_ready_loop_frame in Hrun. exact Hrun.
Qed.

(** feeding() from its first line to its last, with nobody at the button:
    it returns, in one of three ways. *)
Lemma feeding_run (fuel : nat) (isScheduled : bool) (w : World) :
  (scale_answers w -> button_untouched w) ->
  (2951 <= fuel)%nat ->
  exists (e : FeedingEnd) (w' : World),
    Feeding.feeding fuel isScheduled w = Some w' /\ feeding_ended e w w'.
Proof.
  intros Hbutton Hfuel. unfold Feeding.feeding.
  (* the start message and the first wait *)
  pose proof (wifi_and_web_idles w) as I0.
  destruct (Water.wifi_and_web w) as [connected w0]. cbn [snd] in I0.
  assert (I1 : idles 0 w
                 (if connected
                  then sendLogEvent "feeding_start"
                         (if isScheduled then "Scheduled feeding initiated"
                          else "Manual feeding initiated") w0
                  else w0)).
  { destruct connected; [|exact I0].
    apply (idles_trans 0 0 w w0); [exact I0|apply sendLogEvent_idles]. }
  revert I1.
  generalize (if connected
              then sendLogEvent "feeding_start"
                     (if isScheduled then "Scheduled feeding initiated"
                      else "Manual feeding initiated") w0
              else w0).
  clear I0 w0 connected. intros w1 I1.
  unfold QUICK_DISPLAY_TIME.
  rewrite nonBlockingWait_2000 by lia.
  set (w2 := delay 2000 _).
  assert (I2 : idles 2000 w w2).
  { apply (idles_trans 0 2000 w w1); [exact I1|].
    subst w2. unfold idles. cbn. repeat split. }
  clearbody w2. clear I1 w1.
  (* checkScaleReady *)
  destruct (checkScaleReady_total fuel w2 Hfuel)
    as (ready & w3 & Hrun & Htrace & Hanswer & Hscale & Hbutton3).
  rewrite Hrun.
  destruct I2 as (C2 & R2 & RC2 & U2 & UC2 & B2 & S2).
  destruct ready.
  2:{ (* the scale never answered *)
      unfold INFO_DISPLAY_TIME. rewrite nonBlockingWait_3000 by lia.
      exists ScaleNotReady. eexists. split; [reflexivity|].
      destruct Hanswer as [Hnever Hclock].
      split; [|split; [|split]].
      - intros (k & Hk & Hyes). rewrite <- R2, <- RC2 in Hyes.
        rewrite (Hnever k Hk) in Hyes. discriminate Hyes.
      - unfold servo_kept. cbn [trace delay lcd_print emit servo_writes].
        rewrite Htrace. exact S2.
      - reflexivity.
      - cbn [clock delay lcd_print emit]. unfold SCALE_TIMEOUT in *. lia. }
  (* the bowl check *)
  destruct Hanswer as (k & Hk & _ & Hyes & Hclock3 & _).
  assert (Hanswers : scale_answers w).
  { exists k. split; [exact Hk|]. rewrite <- R2, <- RC2. exact Hyes. }
  specialize (Hbutton Hanswers).
  rewrite nonBlockingWait_2000 by lia.
  set (w4 := delay 2000 _).
  assert (C4 : clock w4 = clock w3 + 2000) by (subst w4; reflexivity).
  assert (S4 : same_scale w w4).
  { apply same_scale_trans with (w2 := w2); [split; assumption|].
    apply same_scale_trans with (w2 := w3); [exact Hscale|].
    subst w4. split; reflexivity. }
  assert (B4 : button_low w4 = button_low w).
  { subst w4. cbn [button_low delay lcd_print emit]. congruence. }
  assert (V4 : servo_writes (trace w4) = servo_writes (trace w)).
  { subst w4. cbn [trace delay lcd_print emit servo_writes]. congruence. }
  clearbody w4.
  pose proof (getStableWeight_frame w4) as (C5 & S5 & B5).
  pose proof (getStableWeight_trace 5 2 WEIGHT_STABILITY_THRESHOLD w4) as T5.
  assert (Hbowl : bowl_weight w4
                  = (if F32.ltb
                          (fst (getStableWeight 5 2
                                  WEIGHT_STABILITY_THRESHOLD w4))
                          (F32.of_Z 0)
                     then F32.zero
                     else fst (getStableWeight 5 2
                                 WEIGHT_STABILITY_THRESHOLD w4)))
    by reflexivity.
  destruct (getStableWeight 5 2 WEIGHT_STABILITY_THRESHOLD w4)
    as [weight w5].
  cbn [fst snd] in *. rewrite <- Hbowl. clear Hbowl.
  destruct (F32.geb (bowl_weight w4) FEED_THRESHOLD) eqn:Hfull.
  - (* the bowl is full enough: canceled *)
    destruct (checkExistingFood_idle fuel (bowl_weight w4) FEED_THRESHOLD w5)
      as (w6 & Hrun6 & C6 & V6 & L6 & _); try assumption; try lia.
    { intros j. rewrite B5, B4. apply Hbutton. }
    rewrite Hrun6. exists FeedingCanceled, w6. split; [reflexivity|].
    split; [exact Hanswers|]. split; [|split; [|split]].
    + exists w4. split; assumption.
    + unfold servo_kept in *. rewrite V6, T5. exact V4.
    + exact L6.
    + unfold SCALE_TIMEOUT in *. lia.
  - (* the dispense *)
    unfold Feeding.checkExistingFood at 1. rewrite Hfull.
    rewrite nonBlockingWait_2000 by lia.
    set (w7 := delay 2000 _).
    assert (C7 : clock w7 = clock w5 + 2000) by (subst w7; reflexivity).
    clearbody w7.
    destruct (dispense_runs fuel (bowl_weight w4) FEED_WEIGHT w7 Hfuel)
      as (v & w8 & Hrun8 & C8 & V8).
    rewrite Hrun8. unfold SETTLE_FINAL_TIME.
    rewrite nonBlockingWait_2000 by lia.
    set (w9 := delay 2000 _).
    assert (C9 : clock w9 = clock w8 + 2000) by (subst w9; reflexivity).
    assert (V9 : servo_writes (trace w9) = servo_writes (trace w8))
      by (subst w9; reflexivity).
    clearbody w9.
    pose proof (measureSettledWeight_5_5 w9) as (C10 & V10 & _).
    destruct (Feeding.measureSettledWeight 5 5 w9) as [finalWeight w10].
    cbn [snd] in *.
    destruct (showFeedingResults_runs fuel (bowl_weight w4) finalWeight
                FEED_WEIGHT w10) as (w11 & Hrun11 & C11 & V11 & L11); [lia|].
    rewrite Hrun11.
    pose proof (getDistance_world w11) as G12.
    destruct (getDistance w11) as [distanceCm w12]. cbn [snd] in G12.
    pose proof (wifi_and_web_idles w12) as I13.
    pose proof (wifi_and_web_frame w12) as (_ & T13 & _).
    destruct (Water.wifi_and_web w12) as [connected w13]. cbn [snd] in *.
    exists FeedingDone. eexists. split; [reflexivity|].
    destruct I13 as (C13 & _).
    assert (C12 : clock w12 = clock w11 + 50) by (rewrite G12; reflexivity).
    assert (T12 : trace w12 = trace w11) by (rewrite G12; reflexivity).
    assert (Hlast :
              forall wl : World,
                clock wl = clock w13 -> lcd_lines (trace wl) = lcd_lines (trace w13) ->
                servo_writes (trace wl) = servo_writes (trace w13) ->
                feeding_ended FeedingDone w wl).
    { intros wl Cl Ll Vl. split; [exact Hanswers|].
      split; [|split; [|split]].
      - exists w4. split; assumption.
      - rewrite Vl, T13, T12. unfold servo_kept in *.
        rewrite V11, V10, V9. exact V8.
      - rewrite Ll, T13, T12. exact L11.
      - unfold SCALE_TIMEOUT, FEED_TIMEOUT in *. lia. }
    destruct connected; apply Hlast; try reflexivity;
      unfold sendFeedingComplete; destruct (webConnected w13); reflexivity.
Qed.

(** A scale that answers none of the polls of checkScaleReady: feeding()
    gives up with "Scale not ready!" as the last line on the display, and
    the hatch has not been given a single command.  The button plays no
    part. *)
Theorem feeding_gives_up_on_silent_scale
    (fuel : nat) (isScheduled : bool) (w : World) :
  ~ scale_answers w ->
  (2951 <= fuel)%nat ->
  exists w' : World,
    Feeding.feeding fuel isScheduled w = Some w' /\
    servo_kept w w' /\
    hd_error (lcd_lines (trace w')) = Some "Scale not ready!"%string.
Proof.
  intros Hsilent Hfuel.
  destruct (feeding_run fuel isScheduled w) as (e & w' & Hrun & Hend).
  - intros Hanswers. contradiction.
  - exact Hfuel.
  - exists w'. split; [exact Hrun|].
    destruct e; cbn [feeding_ended] in Hend.
    + destruct Hend as (_ & Hservo & Hline & _).
      split; [exact Hservo|exact Hline].
    + destruct Hend as (Hanswers & _). contradiction.
    + destruct Hend as (Hanswers & _). contradiction.
Qed.

Lemma feeding_gives_up_on_silent_scale_witness :
  exists w' : World,
    Feeding.feeding 2951 false (quiet_world 0) = Some w' /\
    servo_kept (quiet_world 0) w' /\
    hd_error (lcd_lines (trace w')) = Some "Scale not ready!"%string.
Proof.
  apply (feeding_gives_up_on_silent_scale 2951 false (quiet_world 0)).
  - intros (k & _ & Hyes). discriminate Hyes.
  - lia.
Defined.

(** The guard against feeding twice.  When every stable weight this scale
    can report for the bowl is at or above FEED_THRESHOLD and nobody
    presses the button, feeding() returns without having given the hatch
    a single command. *)
Theorem full_bowl_keeps_hatch_shut
    (fuel : nat) (isScheduled : bool) (w : World) :
  button_untouched w ->
  (forall w_b : World,
      same_scale w w_b ->
      F32.geb (bowl_weight w_b) FEED_THRESHOLD = true) ->
  (2951 <= fuel)%nat ->
  exists w' : World,
    Feeding.feeding fuel isScheduled w = Some w' /\
    servo_kept w w'.
Proof.
  intros Hbutton Hfull Hfuel.
  destruct (feeding_run fuel isScheduled w (fun _ => Hbutton) Hfuel)
    as (e & w' & Hrun & Hend).
  exists w'. split; [exact Hrun|].
  destruct e; cbn [feeding_ended] in Hend.
  - destruct Hend as (_ & Hservo & _). exact Hservo.
  - destruct Hend as (_ & _ & Hservo & _). exact Hservo.
  - destruct Hend as (_ & (w_b & Hscale & Hlow) & _).
    rewrite (Hfull w_b Hscale) in Hlow. discriminate Hlow.
Qed.

Lemma steady_60_is_full (w_b : World) :
  same_scale (scale_world 0 (fun _ => F32.of_Z 60)) w_b ->
  F32.geb (bowl_weight w_b) FEED_THRESHOLD = true.
Proof.
  intros [Hready Hunits]. destruct w_b. cbn in Hready, Hunits. subst.
  vm_compute. reflexivity.
Qed.

(** A bowl that holds a steady 60 g. *)
Lemma full_bowl_keeps_hatch_shut_witness :
  exists w' : World,
    Feeding.feeding 2951 false (scale_world 0 (fun _ => F32.of_Z 60))
    = Some w' /\
    servo_kept (scale_world 0 (fun _ => F32.of_Z 60)) w'.
Proof.
  apply (full_bowl_keeps_hatch_shut 2951 false
           (scale_world 0 (fun _ => F32.of_Z 60))).
  - intros k. reflexivity.
  - exact steady_60_is_full.
  - lia.
Defined.

(** With nobody at the button feeding() returns, whatever the scale, the
    sonar and the network do, and it ends in one of three ways.  It gives
    up on the scale: "Scale not ready!" is the last line shown and the
    hatch got no command.  Or it is canceled on a bowl weighed at or
    above FEED_THRESHOLD: "Feeding canceled" is shown and the hatch got
    no command.  Or it dispenses, on a bowl weighed below FEED_THRESHOLD:
    "Feeding complete" is shown and the last command to the hatch is the
    closing one. *)
Theorem feeding_ends_in_one_of_three_ways
    (fuel : nat) (isScheduled : bool) (w : World) :
  button_untouched w ->
  (2951 <= fuel)%nat ->
  exists (e : FeedingEnd) (w' : World),
    Feeding.feeding fuel isScheduled w = Some w' /\
    feeding_outcome e w w'.
Proof.
  intros Hbutton Hfuel.
  destruct (feeding_run fuel isScheduled w (fun _ => Hbutton) Hfuel)
    as (e & w' & Hrun & Hend).
  exists e, w'. split; [exact Hrun|].
  destruct e; cbn [feeding_ended feeding_outcome] in *.
  - destruct Hend as (_ & Hservo & Hline & _).
    split; [exact Hservo|exact Hline].
  - destruct Hend as (_ & Hbowl & Hservo & Hline & _).
    split; [exact Hbowl|]. split; [exact Hservo|exact Hline].
  - destruct Hend as (_ & Hbowl & Hservo & Hline & _).
    split; [exact Hbowl|]. split; [exact Hservo|exact Hline].
Qed.

(** An empty bowl under a hopper that gives nothing: the dispense runs
    into FEED_TIMEOUT, feeding() still returns, and the hatch ends
    closed. *)
Lemma feeding_ends_in_one_of_three_ways_witness :
  exists (e : FeedingEnd) (w' : World),
    Feeding.feeding 2951 true (scale_world 0 (fun _ => F32.of_Z 5))
    = Some w' /\
    feeding_outcome e (scale_world 0 (fun _ => F32.of_Z 5)) w'.
Proof.
  apply (feeding_ends_in_one_of_three_ways 2951 true
           (scale_world 0 (fun _ => F32.of_Z 5))).
  - intros k. reflexivity.
  - lia.
Defined.

(** ** main.cpp: the water state machine that drives the pump *)

Lemma main_check_water_spec (now : Z) (s : Water.WaterStatics) (w : World) :
  let (s', w') := MainCpp.check_water now s w in
  if Water.out_of_range (fst (getDistance w)) then
    s' = s /\ relay w' = relay w /\
    relay_writes (trace w') = relay_writes (trace w) /\
    clock w' = clock w + 50
  else if Water.is_critical (Water.water_height (fst (getDistance w))) then
    s' = Water.mkStatics Water.REFILL_RUNNING now now /\ relay w' = true /\
    relay_writes (trace w') = true :: relay_writes (trace w) /\
    clock w' = clock w + 50
  else
    s' = s /\ relay w' = relay w /\
    relay_writes (trace w') = relay_writes (trace w) /\
    clock w' = clock w + 50.
Proof.
  unfold MainCpp.check_water.
  pose proof (getDistance_world w) as Hw1.
  destruct (getDistance w) as [d w1]. cbn [fst snd] in *.
  destruct (Water.out_of_range d).
  - rewrite Hw1. repeat split.
  - destruct (Water.is_critical (Water.water_height d));
      rewrite Hw1; repeat split.
Qed.

Lemma print_dots_clock (n : nat) :
  forall w : World, clock (Water.print_dots n w) = clock w.
Proof.
  induction n as [|n IH]; intros w; [reflexivity|].
  cbn [Water.print_dots]. rewrite IH. reflexivity.
Qed.

Lemma main_refill_running_spec
    (now : Z) (s : Water.WaterStatics) (w : World) :
  let (s', w') := MainCpp.refill_running now s w in
  clock w' = clock w /\
  if REFILL_DURATION <=? u32 (now - Water.stateStartTime s) then
    Water.state s' = Water.COOLDOWN /\ Water.stateStartTime s' = now /\
    relay w' = false /\
    relay_writes (trace w') = false :: relay_writes (trace w)
  else
    Water.state s' = Water.state s /\
    Water.stateStartTime s' = Water.stateStartTime s /\
    relay w' = relay w /\
    relay_writes (trace w') = relay_writes (trace w).
Proof.
  unfold MainCpp.refill_running.
  set (shown := if 200 <=? u32 (now - Water.lastDisplayUpdate s)
                then _ else (s, w)).
  assert (H : Water.state (fst shown) = Water.state s /\
              Water.stateStartTime (fst shown) = Water.stateStartTime s /\
              relay (snd shown) = relay w /\
              relay_writes (trace (snd shown)) = relay_writes (trace w) /\
              clock (snd shown) = clock w).
  { subst shown. destruct (200 <=? u32 (now - Water.lastDisplayUpdate s));
      [|repeat split].
    cbn [fst snd Water.state Water.stateStartTime lcd_print emit relay trace
         relay_writes clock].
    destruct (print_dots_frame
                (Z.to_nat (u32 (now - Water.stateStartTime s) / 1000 mod 3 + 1))
                (lcd_print (Lit "   ") w)) as [R T].
    rewrite R, T, print_dots_clock. repeat split. }
  destruct shown as [s1 w1]. cbn [fst snd] in H.
  destruct H as (H1 & H2 & H3 & H4 & H5). rewrite H2.
  destruct (REFILL_DURATION <=? u32 (now - Water.stateStartTime s));
    cbn [lcd_print emit relay_write relay trace relay_writes clock
         Water.state Water.stateStartTime];
    repeat split; congruence.
Qed.

Lemma main_cooldown_spec (now : Z) (s : Water.WaterStatics) (w : World) :
  let (s', w') := MainCpp.cooldown now s w in
  relay w' = relay w /\
  relay_writes (trace w') = relay_writes (trace w) /\
  ping_calls w' = ping_calls w /\
  clock w' = clock w /\
  if COOLDOWN_PERIOD <=? u32 (now - Water.stateStartTime s) then
    Water.state s' = Water.CHECK_WATER
  else
    Water.state s' = Water.state s /\
    Water.stateStartTime s' = Water.stateStartTime s.
Proof.
  unfold MainCpp.cooldown.
  set (shown := if Water.DISPLAY_UPDATE_INTERVAL <=?
                   u32 (now - Water.lastDisplayUpdate s)
                then _ else (s, w)).
  assert (H : Water.state (fst shown) = Water.state s /\
              Water.stateStartTime (fst shown) = Water.stateStartTime s /\
              relay (snd shown) = relay w /\
              relay_writes (trace (snd shown)) = relay_writes (trace w) /\
              ping_calls (snd shown) = ping_calls w /\
              clock (snd shown) = clock w).
  { subst shown.
    destruct (Water.DISPLAY_UPDATE_INTERVAL <=?
                u32 (now - Water.lastDisplayUpdate s)).
    - cbn [fst snd Water.state Water.stateStartTime].
      destruct (COOLDOWN_PERIOD <? u32 (now - Water.stateStartTime s));
        [repeat split|].
      destruct (_ <? 10); repeat split.
    - repeat split. }
  destruct shown as [s1 w1]. cbn [fst snd] in H.
  destruct H as (H1 & H2 & H3 & H4 & H5 & H6). rewrite H2.
  destruct (COOLDOWN_PERIOD <=? u32 (now - Water.stateStartTime s));
    cbn [Water.state Water.stateStartTime]; repeat split; assumption.
Qed.

Lemma main_call_check
    (s : Water.WaterStatics) (level : bool) (w : World) :
  Water.state s = Water.CHECK_WATER ->
  let (s', w') := MainCpp.checkWaterLevel s (with_relay level w) in
  if Water.out_of_range (fst (getDistance w)) then s' = s /\ relay w' = level
  else if Water.is_critical (Water.water_height (fst (getDistance w))) then
    s' = Water.mkStatics Water.REFILL_RUNNING (millis w) (millis w) /\
    relay w' = true
  else s' = s /\ relay w' = level.
Proof.
  intros Hstate. unfold MainCpp.checkWaterLevel. rewrite Hstate.
  pose proof (main_check_water_spec (millis (with_relay level w)) s
                (with_relay level w)) as H.
  destruct (MainCpp.check_water _ s _) as [s' w'].
  rewrite getDistance_with_relay in H.
  change (millis (with_relay level w)) with (millis w) in H.
  destruct (Water.out_of_range (fst (getDistance w)));
    [|destruct (Water.is_critical _)];
    destruct H as (H1 & H2 & _); split; assumption.
Qed.

Lemma main_call_refill_running
    (s : Water.WaterStatics) (level : bool) (w : World) (entered : Z) :
  Water.state s = Water.REFILL_RUNNING ->
  Water.stateStartTime s = u32 entered ->
  0 <= clock w - entered < 2 ^ 32 ->
  let (s', w') := MainCpp.checkWaterLevel s (with_relay level w) in
  if REFILL_DURATION <=? clock w - entered then
    Water.state s' = Water.COOLDOWN /\
    Water.stateStartTime s' = u32 (clock w) /\ relay w' = false
  else
    Water.state s' = Water.REFILL_RUNNING /\
    Water.stateStartTime s' = u32 entered /\ relay w' = level.
Proof.
  intros Hstate Hstart Htime. unfold MainCpp.checkWaterLevel. rewrite Hstate.
  pose proof (main_refill_running_spec (millis (with_relay level w)) s
                (with_relay level w)) as H.
  destruct (MainCpp.refill_running _ s _) as [s' w'].
  destruct H as [_ H]. rewrite Hstart in H.
  change (millis (with_relay level w)) with (millis w) in H.
  rewrite elapsed_exact in H by exact Htime.
  destruct (REFILL_DURATION <=? clock w - entered).
  - destruct H as (H1 & H2 & H3 & _). auto.
  - destruct H as (H1 & H2 & H3 & _). rewrite H1, H2, H3. auto.
Qed.

Lemma main_call_cooldown
    (s : Water.WaterStatics) (level : bool) (w : World) (entered : Z) :
  Water.state s = Water.COOLDOWN ->
  Water.stateStartTime s = u32 entered ->
  0 <= clock w - entered < 2 ^ 32 ->
  let (s', w') := MainCpp.checkWaterLevel s (with_relay level w) in
  relay w' = level /\
  ping_calls w' = ping_calls w /\
  if COOLDOWN_PERIOD <=? clock w - entered then
    Water.state s' = Water.CHECK_WATER
  else
    Water.state s' = Water.COOLDOWN /\
    Water.stateStartTime s' = u32 entered.
Proof.
  intros Hstate Hstart Htime. unfold MainCpp.checkWaterLevel. rewrite Hstate.
  pose proof (main_cooldown_spec (millis (with_relay level w)) s
                (with_relay level w)) as H.
  destruct (MainCpp.cooldown _ s _) as [s' w'].
  rewrite Hstart in H.
  change (millis (with_relay level w)) with (millis w) in H.
  rewrite elapsed_exact in H by exact Htime.
  destruct H as (H1 & _ & H3 & _ & H4).
  split; [exact H1|]. split; [exact H3|].
  destruct (COOLDOWN_PERIOD <=? clock w - entered).
  - exact H4.
  - destruct H4 as [H4 H5]. rewrite H4, H5. auto.
Qed.

(** One call keeps "pump on exactly in REFILL_RUNNING". *)
Lemma main_call_keeps_pump_rule
    (s : Water.WaterStatics) (level : bool) (w : World) :
  pump_follows_state (s, level) ->
  pump_follows_state
    (let (s', w') := MainCpp.checkWaterLevel s (with_relay level w) in
     (s', relay w')).
Proof.
  unfold pump_follows_state. cbn [fst snd]. intros Hrule.
  destruct (Water.state s) eqn:Hstate.
  - pose proof (main_call_check s level w Hstate) as H.
    destruct (MainCpp.checkWaterLevel s (with_relay level w)) as [s' w'].
    cbn [fst snd].
    destruct (Water.out_of_range _); [|destruct (Water.is_critical _)];
      destruct H as [-> ->]; cbn [Water.state]; try rewrite Hstate;
      try exact Hrule.
    split; reflexivity.
  - unfold MainCpp.checkWaterLevel. rewrite Hstate.
    pose proof (main_refill_running_spec (millis (with_relay level w)) s
                  (with_relay level w)) as H.
    destruct (MainCpp.refill_running _ s _) as [s' w']. cbn [fst snd].
    destruct H as [_ H].
    destruct (REFILL_DURATION <=? _).
    + destruct H as (-> & _ & -> & _). split; discriminate.
    + destruct H as (-> & _ & -> & _). cbn [relay with_relay].
      rewrite Hstate. exact Hrule.
  - unfold MainCpp.checkWaterLevel. rewrite Hstate.
    pose proof (main_cooldown_spec (millis (with_relay level w)) s
                  (with_relay level w)) as H.
    destruct (MainCpp.cooldown _ s _) as [s' w']. cbn [fst snd].
    destruct H as (H1 & _ & _ & _ & H4).
    rewrite H1. cbn [relay with_relay].
    assert (Hoff : level = false).
    { destruct level; [|reflexivity].
      destruct Hrule as [Hrule _]. specialize (Hrule eq_refl).
      discriminate Hrule. }
    subst level.
    destruct (COOLDOWN_PERIOD <=? _).
    + rewrite H4. split; discriminate.
    + destruct H4 as [-> _]. rewrite Hstate. split; discriminate.
Qed.

(** main.cpp's checkWaterLevel keeps the pump relay on exactly while its
    state is REFILL_RUNNING: whatever the sensor reads and whenever the
    calls come, after each call the relay is on if and only if the state
    is REFILL_RUNNING. *)
Theorem main_pump_on_only_while_refilling
    (calls : list World) :
  forall (s : Water.WaterStatics) (level : bool),
    pump_follows_state (s, level) ->
    Forall pump_follows_state (MainCpp.water_calls s level calls).
Proof.
  induction calls as [|w calls IH]; intros s level Hrule.
  - constructor.
  - cbn [MainCpp.water_calls].
    pose proof (main_call_keeps_pump_rule s level w Hrule) as Hnext.
    destruct (MainCpp.checkWaterLevel s (with_relay level w)) as [s' w'].
    constructor; [exact Hnext|].
    apply IH. exact Hnext.
Qed.

(** From boot (CHECK_WATER, relay off), over three calls with the sonar
    at 18 cm: the pump starts, is still on 5 s later and is off after
    the call at 11.05 s. *)
Lemma main_pump_on_only_while_refilling_witness :
  Forall pump_follows_state
    (MainCpp.water_calls Water.water_init false
       [sonar_world 1000 18; sonar_world 6000 18; sonar_world 11050 18]) /\
  relays_of
    (MainCpp.water_calls Water.water_init false
       [sonar_world 1000 18; sonar_world 6000 18; sonar_world 11050 18])
  = [true; true; false].
Proof.
  split.
  - apply (main_pump_on_only_while_refilling
             [sonar_world 1000 18; sonar_world 6000 18; sonar_world 11050 18]
             Water.water_init false).
    split; discriminate.
  - vm_compute. reflexivity.
Defined.

Lemma main_calls_while_refilling (entered : Z) (rest : list World) :
  forall (refilling : list World) (s : Water.WaterStatics),
    Water.state s = Water.REFILL_RUNNING ->
    Water.stateStartTime s = u32 entered ->
    Forall (fun w => 0 <= clock w - entered < REFILL_DURATION) refilling ->
    exists history s',
      MainCpp.water_calls s true (refilling ++ rest)
      = history ++ MainCpp.water_calls s' true rest /\
      states_of history
      = repeat Water.REFILL_RUNNING (List.length refilling) /\
      relays_of history = repeat true (List.length refilling) /\
      Water.state s' = Water.REFILL_RUNNING /\
      Water.stateStartTime s' = u32 entered.
Proof.
  induction refilling as [|w refilling IH]; intros s Hstate Hstart Hall.
  - exists [], s. cbn [app]. auto.
  - inversion Hall as [|? ? Hw Hrest]; subst.
    pose proof (main_call_refill_running s true w entered Hstate Hstart)
      as Hcall.
    cbn [app MainCpp.water_calls].
    destruct (MainCpp.checkWaterLevel s (with_relay true w)) as [s1 w1].
    replace (REFILL_DURATION <=? clock w - entered) with false in Hcall
      by (symmetry; apply Z.leb_gt; lia).
    destruct Hcall as (Hs1 & Ht1 & Hr1);
      [unfold REFILL_DURATION in Hw; lia|].
    destruct (IH s1 Hs1 Ht1 Hrest) as (history & s' & Hrun & Hh & Hl & Hs').
    exists ((s1, true) :: history), s'. rewrite Hr1, Hrun.
    split; [reflexivity|]. split; [|split; [|exact Hs']].
    + cbn. rewrite Hs1. f_equal. exact Hh.
    + cbn. f_equal. exact Hl.
Qed.

Lemma main_calls_while_cooling (entered : Z) :
  forall (cooling : list World) (s : Water.WaterStatics),
    Water.state s = Water.COOLDOWN ->
    Water.stateStartTime s = u32 entered ->
    Forall (fun w => 0 <= clock w - entered < COOLDOWN_PERIOD) cooling ->
    states_of (MainCpp.water_calls s false cooling)
    = repeat Water.COOLDOWN (List.length cooling) /\
    relays_of (MainCpp.water_calls s false cooling)
    = repeat false (List.length cooling).
Proof.
  induction cooling as [|w cooling IH]; intros s Hstate Hstart Hall.
  - split; reflexivity.
  - inversion Hall as [|? ? Hw Hrest]; subst.
    pose proof (main_call_cooldown s false w entered Hstate Hstart) as Hcall.
    cbn [MainCpp.water_calls].
    destruct (MainCpp.checkWaterLevel s (with_relay false w)) as [s1 w1].
    replace (COOLDOWN_PERIOD <=? clock w - entered) with false in Hcall
      by (symmetry; apply Z.leb_gt; lia).
    destruct Hcall as (Hr1 & _ & Hs1 & Ht1);
      [unfold COOLDOWN_PERIOD in Hw; lia|].
    destruct (IH s1 Hs1 Ht1 Hrest) as (Hh & Hl).
    rewrite Hr1. unfold states_of, relays_of in *. cbn [map fst snd].
    rewrite Hs1, Hh, Hl. split; reflexivity.
Qed.

(** main.cpp's pump cycle.  A call in CHECK_WATER that finds the water low
    switches the pump on; every call made less than REFILL_DURATION later
    leaves it on; the first call made REFILL_DURATION or more later
    switches it off; and every call made in the COOLDOWN_PERIOD after that
    leaves it off, whatever the sensor reads. *)
Theorem main_pump_cycle
    (s0 : Water.WaterStatics) (level0 : bool)
    (w0 : World) (refilling : list World) (w1 : World)
    (cooling : list World) :
  Water.state s0 = Water.CHECK_WATER ->
  low_water w0 ->
  Forall (fun w => 0 <= clock w - clock w0 < REFILL_DURATION) refilling ->
  REFILL_DURATION <= clock w1 - clock w0 < 2 ^ 32 ->
  Forall (fun w => 0 <= clock w - clock w1 < COOLDOWN_PERIOD) cooling ->
  relays_of
    (MainCpp.water_calls s0 level0 (w0 :: refilling ++ w1 :: cooling))
  = true :: repeat true (List.length refilling)
    ++ false :: repeat false (List.length cooling) /\
  states_of
    (MainCpp.water_calls s0 level0 (w0 :: refilling ++ w1 :: cooling))
  = Water.REFILL_RUNNING
      :: repeat Water.REFILL_RUNNING (List.length refilling)
      ++ Water.COOLDOWN :: repeat Water.COOLDOWN (List.length cooling).
Proof.
  intros Hs0 [Hin Hlow] Hrefilling Hw1 Hcooling.
  cbn [MainCpp.water_calls].
  pose proof (main_call_check s0 level0 w0 Hs0) as Hc0.
  destruct (MainCpp.checkWaterLevel s0 (with_relay level0 w0)) as [s1 w0'].
  rewrite Hin, Hlow in Hc0. destruct Hc0 as [-> ->].
  destruct (main_calls_while_refilling (clock w0) (w1 :: cooling) refilling
              (Water.mkStatics Water.REFILL_RUNNING (millis w0) (millis w0))
              eq_refl eq_refl Hrefilling)
    as (h1 & s1' & Hrun1 & Hh1 & Hl1 & Hs1' & Ht1').
  rewrite Hrun1. cbn [MainCpp.water_calls].
  pose proof (main_call_refill_running s1' true w1 (clock w0) Hs1' Ht1')
    as Hc1.
  destruct (MainCpp.checkWaterLevel s1' (with_relay true w1)) as [s2 w1'].
  replace (REFILL_DURATION <=? clock w1 - clock w0) with true in Hc1
    by (symmetry; apply Z.leb_le; lia).
  destruct Hc1 as (Hs2 & Ht2 & Hr1);
    [unfold REFILL_DURATION in Hw1; lia|].
  rewrite Hr1.
  destruct (main_calls_while_cooling (clock w1) cooling s2 Hs2 Ht2 Hcooling)
    as (Hh2 & Hl2).
  unfold relays_of, states_of in *.
  cbn [map fst snd Water.state]. rewrite !map_app. cbn [map fst snd].
  rewrite Hh1, Hl1, Hh2, Hl2, Hs2. split; reflexivity.
Qed.

(** The cycle with the sonar at 18 cm (1 cm of water): low water found at
    1 s, a call at 6 s, the refill ended at 11.05 s, two calls during the
    cooldown. *)
Lemma main_pump_cycle_witness :
  relays_of
    (MainCpp.water_calls Water.water_init false
       (sonar_world 1000 18 :: [sonar_world 6000 18]
        ++ sonar_world 11050 18
        :: [sonar_world 21050 18; sonar_world 300000 18]))
  = true :: repeat true 1 ++ false :: repeat false 2 /\
  states_of
    (MainCpp.water_calls Water.water_init false
       (sonar_world 1000 18 :: [sonar_world 6000 18]
        ++ sonar_world 11050 18
        :: [sonar_world 21050 18; sonar_world 300000 18]))
  = Water.REFILL_RUNNING :: repeat Water.REFILL_RUNNING 1
    ++ Water.COOLDOWN :: repeat Water.COOLDOWN 2.
Proof.
  apply (main_pump_cycle Water.water_init false (sonar_world 1000 18)
           [sonar_world 6000 18] (sonar_world 11050 18)
           [sonar_world 21050 18; sonar_world 300000 18]).
  - reflexivity.
  - split; vm_compute; reflexivity.
  - repeat constructor; unfold REFILL_DURATION; cbn [clock sonar_world]; lia.
  - unfold REFILL_DURATION; cbn [clock sonar_world]; lia.
  - repeat constructor; unfold COOLDOWN_PERIOD; cbn [clock sonar_world]; lia.
Defined.

(** ** lcd_helpers.h: clearLineLCD and progressBar *)

Lemma u8_range (x : Z) : 0 <= u8 x < 256.
Proof. unfold u8. apply Z.mod_pos_bound. reflexivity. Qed.

Lemma u8_small (x : Z) : 0 <= x < 256 -> u8 x = x.
Proof. intros H. unfold u8. apply Z.mod_small. exact H. Qed.

Lemma u8_wrap_down (x : Z) : -256 <= x < 0 -> u8 x = x + 256.
Proof.
  intros H. unfold u8.
  replace x with (x + 256 + (-1) * 2 ^ 8) at 1 by lia.
  rewrite Z.mod_add by lia. apply Z.mod_small. lia.
Qed.

(** clearLineLCD of lcd_helpers.h, for any column, row and length a
    uint8_t can hold.  From a column on the display the spaces it prints
    start at the column asked for and end on the line: exactly the length
    asked for when that is not 0 and fits, and up to the end of the line
    when it is 0 or does not fit.  At column LCD_X it prints nothing.
    From a column beyond LCD_X the subtraction LCD_X - col wraps and the
    function fills 256 + LCD_X - col bytes of its 17-byte buffer. *)
Theorem clearLineLCD_stays_on_the_line (col row length : Z) :
  0 <= col < 256 ->
  0 <= length < 256 ->
  match Lcd.clearLineLCD col row length with
  | Lcd.Nothing => col = LCD_X
  | Lcd.Spaces c r n =>
      c = col /\ r = row /\ 0 < n /\ col + n <= LCD_X /\
      (0 < length /\ col + length <= LCD_X -> n = length) /\
      (length = 0 \/ LCD_X < col + length -> col + n = LCD_X)
  | Lcd.Overrun n => LCD_X < col /\ n = 256 + LCD_X - col
  end.
Proof.
  intros Hcol Hlength. unfold Lcd.clearLineLCD, Lcd.clear_line, LCD_X.
  destruct (Z.eqb_spec length 0) as [Hzero|Hpos]; cbn [orb].
  - destruct (Z_le_gt_dec col 16) as [Hin|Hout].
    + rewrite u8_small by lia.
      destruct (Z.leb_spec (16 - col) 0); [lia|].
      destruct (Z.leb_spec 17 (16 - col)); [lia|].
      repeat split; lia.
    + rewrite u8_wrap_down by lia.
      destruct (Z.leb_spec (16 - col + 256) 0); [lia|].
      destruct (Z.leb_spec 17 (16 - col + 256)); [|lia].
      split; lia.
  - destruct (Z.ltb_spec 16 (col + length)) as [Hlong|Hfits].
    + destruct (Z_le_gt_dec col 16) as [Hin|Hout].
      * rewrite u8_small by lia.
        destruct (Z.leb_spec (16 - col) 0); [lia|].
        destruct (Z.leb_spec 17 (16 - col)); [lia|].
        repeat split; lia.
      * rewrite u8_wrap_down by lia.
        destruct (Z.leb_spec (16 - col + 256) 0); [lia|].
        destruct (Z.leb_spec 17 (16 - col + 256)); [|lia].
        split; lia.
    + destruct (Z.leb_spec length 0); [lia|].
      destruct (Z.leb_spec 17 length); [lia|].
      repeat split; lia.
Qed.

(** clearLineLCD(4, 1, 5) clears five cells from column 4 on,
    clearLineLCD(4, 1, 0) the twelve cells up to the end of the line;
    clearLineLCD(20, 1, 0) overruns. *)
Lemma clearLineLCD_stays_on_the_line_witness :
  Lcd.clearLineLCD 4 1 5 = Lcd.Spaces 4 1 5 /\
  Lcd.clearLineLCD 4 1 0 = Lcd.Spaces 4 1 12 /\
  Lcd.clearLineLCD 20 1 0 = Lcd.Overrun 252 /\
  match Lcd.clearLineLCD 4 1 5 with
  | Lcd.Nothing => 4 = LCD_X
  | Lcd.Spaces c r n =>
      c = 4 /\ r = 1 /\ 0 < n /\ 4 + n <= LCD_X /\
      (0 < 5 /\ 4 + 5 <= LCD_X -> n = 5) /\
      (5 = 0 \/ LCD_X < 4 + 5 -> 4 + n = LCD_X)
  | Lcd.Overrun n => LCD_X < 4 /\ n = 256 + LCD_X - 4
  end.
Proof.
  split; [reflexivity|]. split; [reflexivity|]. split; [reflexivity|].
  apply (clearLineLCD_stays_on_the_line 4 1 5); lia.
Defined.

(** main.cpp's copy of clearLineLCD compares with LCD_Y (2) where the
    header compares with LCD_X (16).  Called on any column of the
    display, it never clears past the second cell of the line, whatever
    length is asked for; from column 3 on it fills 258 - col bytes of its
    17-byte buffer. *)
Theorem main_clearLineLCD_uses_the_row_count (col row length : Z) :
  0 <= col < LCD_X ->
  0 <= length < 256 ->
  match main_clearLineLCD col row length with
  | Lcd.Nothing => col = LCD_Y
  | Lcd.Spaces c r n => c = col /\ r = row /\ 0 < n /\ col + n <= LCD_Y
  | Lcd.Overrun n => LCD_Y < col /\ n = 256 + LCD_Y - col
  end.
Proof.
  intros Hcol Hlength.
  unfold main_clearLineLCD, Lcd.clear_line, LCD_X, LCD_Y in *.
  destruct (Z.eqb_spec length 0) as [Hzero|Hpos]; cbn [orb].
  - destruct (Z_le_gt_dec col 2) as [Hin|Hout].
    + rewrite u8_small by lia.
      destruct (Z.leb_spec (2 - col) 0); [lia|].
      destruct (Z.leb_spec 17 (2 - col)); [lia|].
      repeat split; lia.
    + rewrite u8_wrap_down by lia.
      destruct (Z.leb_spec (2 - col + 256) 0); [lia|].
      destruct (Z.leb_spec 17 (2 - col + 256)); [|lia].
      split; lia.
  - destruct (Z.ltb_spec 2 (col + length)) as [Hlong|Hfits].
    + destruct (Z_le_gt_dec col 2) as [Hin|Hout].
      * rewrite u8_small by lia.
        destruct (Z.leb_spec (2 - col) 0); [lia|].
        destruct (Z.leb_spec 17 (2 - col)); [lia|].
        repeat split; lia.
      * rewrite u8_wrap_down by lia.
        destruct (Z.leb_spec (2 - col + 256) 0); [lia|].
        destruct (Z.leb_spec 17 (2 - col + 256)); [|lia].
        split; lia.
    + destruct (Z.leb_spec length 0); [lia|].
      destruct (Z.leb_spec 17 length); [lia|].
      repeat split; lia.
Qed.

(** setupScale's clearLineLCD(0, 1, 16) clears two cells. *)
Lemma main_clearLineLCD_uses_the_row_count_witness :
  main_clearLineLCD 0 1 16 = Lcd.Spaces 0 1 2 /\
  match main_clearLineLCD 0 1 16 with
  | Lcd.Nothing => 0 = LCD_Y
  | Lcd.Spaces c r n => c = 0 /\ r = 1 /\ 0 < n /\ 0 + n <= LCD_Y
  | Lcd.Overrun n => LCD_Y < 0 /\ n = 256 + LCD_Y - 0
  end.
Proof.
  split; [reflexivity|].
  apply (main_clearLineLCD_uses_the_row_count 0 1 16);
    unfold LCD_X; lia.
Defined.

Lemma bar_cells_length (filledPixels : Z) :
  Z.of_nat (List.length (Lcd.bar_cells filledPixels)) = LCD_X.
Proof.
  unfold Lcd.bar_cells, LCD_X.
  pose proof (u8_range (Z.quot filledPixels 5)) as Hblocks.
  set (completeBlocks := u8 (Z.quot filledPixels 5)) in *.
  set (remainderPixels := u8 (Z.rem filledPixels 5)).
  destruct (0 <? remainderPixels); cbn [andb].
  - destruct (Z.ltb_spec completeBlocks 16) as [Hroom|Hfull].
    + rewrite u8_small by lia.
      rewrite !length_app, !repeat_length. cbn [List.length]. lia.
    + rewrite !length_app, !repeat_length. cbn [List.length]. lia.
  - rewrite !length_app, !repeat_length. cbn [List.length]. lia.
Qed.

Lemma bar_cells_in_range (filledPixels : Z) :
  0 <= filledPixels <= 5 * LCD_X ->
  Lcd.bar_cells filledPixels
  = repeat Lcd.Solid (Z.to_nat (filledPixels / 5))
    ++ (if 0 <? filledPixels mod 5
        then [Lcd.Partial (filledPixels mod 5)] else [])
    ++ repeat Lcd.Blank
         (Z.to_nat (LCD_X - filledPixels / 5
                    - (if 0 <? filledPixels mod 5 then 1 else 0))).
Proof.
  unfold LCD_X. intros Hrange. unfold Lcd.bar_cells, LCD_X.
  rewrite Z.quot_div_nonneg, Z.rem_mod_nonneg by lia.
  pose proof (Z.mod_pos_bound filledPixels 5 ltac:(lia)) as Hrem.
  pose proof (Z.div_mod filledPixels 5 ltac:(lia)) as Hdm.
  rewrite (u8_small (filledPixels / 5)) by lia.
  rewrite (u8_small (filledPixels mod 5)) by lia.
  rewrite Z.min_l by lia.
  destruct (Z.ltb_spec 0 (filledPixels mod 5)) as [Hpart|Hnone]; cbn [andb].
  - destruct (Z.ltb_spec (filledPixels / 5) 16) as [Hroom|Hfull]; [|lia].
    rewrite u8_small by lia. do 3 f_equal. lia.
  - do 3 f_equal. lia.
Qed.

Lemma partial_row_bits (count : nat) :
  forall (col value bit : Z),
    0 <= col -> col + Z.of_nat count <= 5 -> 0 <= bit ->
    Z.testbit (Lcd.partial_row count col value) bit
    = Z.testbit value bit
      || ((4 - col - Z.of_nat count <? bit) && (bit <=? 4 - col)).
Proof.
  induction count as [|count IH]; intros col value bit Hcol Hcount Hbit.
  - cbn [Lcd.partial_row Z.of_nat].
    replace ((4 - col - 0 <? bit) && (bit <=? 4 - col)) with false.
    + rewrite Bool.orb_false_r. reflexivity.
    + symmetry. apply Bool.andb_false_iff.
      destruct (Z.ltb_spec (4 - col - 0) bit); [right|left; reflexivity].
      apply Z.leb_gt. lia.
  - cbn [Lcd.partial_row]. rewrite IH by lia.
    unfold Lcd.bitSet.
    rewrite Z.lor_spec, Z.shiftl_1_l, Z.pow2_bits_eqb by lia.
    destruct (Z.eqb_spec (4 - col) bit) as [Hhere|Hnot].
    + replace ((4 - col - Z.of_nat (S count) <? bit) && (bit <=? 4 - col))
        with true.
      * rewrite !Bool.orb_true_r. reflexivity.
      * symmetry. apply Bool.andb_true_iff. split.
        -- apply Z.ltb_lt. lia.
        -- apply Z.leb_le. lia.
    + rewrite Bool.orb_false_r. f_equal.
      destruct (Z.ltb_spec (4 - (col + 1) - Z.of_nat count) bit);
        destruct (Z.ltb_spec (4 - col - Z.of_nat (S count)) bit);
        destruct (Z.leb_spec bit (4 - (col + 1)));
        destruct (Z.leb_spec bit (4 - col));
        try reflexivity; lia.
Qed.

(** progressBar draws a full row, whatever it is asked to show.  For every
    value [filledPixels] may take the cells written on row 1 are exactly
    LCD_X; so they are for every percentage.  When [filledPixels] lies
    between 0 and 5 * LCD_X the row is [filledPixels / 5] solid blocks, a
    partial block of [filledPixels mod 5] pixels when that is not 0, and
    blanks; and the partial block's glyph has its [pixels] leftmost columns
    lit (bits 4 down to 5 - pixels) in each row. *)
Theorem progressBar_draws_a_full_row :
  (forall filledPixels : Z,
      Z.of_nat (List.length (Lcd.bar_cells filledPixels)) = LCD_X) /\
  (forall percentage : F32.t,
      Z.of_nat (List.length (Lcd.progress_cells percentage)) = LCD_X) /\
  (forall filledPixels : Z,
      0 <= filledPixels <= 5 * LCD_X ->
      Lcd.bar_cells filledPixels
      = repeat Lcd.Solid (Z.to_nat (filledPixels / 5))
        ++ (if 0 <? filledPixels mod 5
            then [Lcd.Partial (filledPixels mod 5)] else [])
        ++ repeat Lcd.Blank
             (Z.to_nat (LCD_X - filledPixels / 5
                        - (if 0 <? filledPixels mod 5 then 1 else 0)))) /\
  (forall pixels column : Z,
      0 <= pixels <= 5 -> 0 <= column < 5 ->
      Z.testbit (Lcd.partial_row (Z.to_nat pixels) 0 0) (4 - column)
      = (column <? pixels)).
Proof.
  split; [exact bar_cells_length|].
  split; [intros p; apply bar_cells_length|].
  split; [exact bar_cells_in_range|].
  intros pixels column Hp Hc.
  rewrite partial_row_bits by lia.
  rewrite Z.bits_0, Z2Nat.id by lia. cbn [orb].
  destruct (Z.ltb_spec column pixels).
  - apply Bool.andb_true_iff. split; [apply Z.ltb_lt|apply Z.leb_le]; lia.
  - apply Bool.andb_false_iff. left. apply Z.ltb_ge. lia.
Qed.

(** 50 % is eight solid blocks and eight blanks; 33 % is five solid
    blocks, one pixel of the sixth, and ten blanks. *)
Lemma progress_cells_examples :
  Lcd.progress_cells (F32.of_Z 50)
  = repeat Lcd.Solid 8 ++ repeat Lcd.Blank 8 /\
  Lcd.progress_cells (F32.of_Z 33)
  = repeat Lcd.Solid 5 ++ [Lcd.Partial 1] ++ repeat Lcd.Blank 10.
Proof. split; vm_compute; reflexivity. Qed.

(** ** getDistance: an average in whole centimetres *)

(** The loop adds up the distances of the pings with an echo, in a
    32-bit unsigned sum, and counts them. *)
Lemma ping_loop_sum (w0 : World) (n : nat) :
  forall (start : nat) (total valid : Z) (w : World),
    0 <= total < 2 ^ 32 ->
    sonar_echo w = sonar_echo w0 ->
    sonar_cm w = sonar_cm w0 ->
    ping_calls w = (ping_calls w0 + start)%nat ->
    let '(total', valid', _) := ping_loop n total valid w in
    total' = u32 (total + sum_of (echo_distances start n w0)) /\
    valid' = valid + Z.of_nat (List.length (echo_distances start n w0)).
Proof.
  induction n as [|n IH]; intros start total valid w Htotal Hecho Hcm Hcalls.
  - cbn [ping_loop echo_distances sum_of fold_right List.length].
    rewrite Z.add_0_r, u32_small by exact Htotal. split; [reflexivity|lia].
  - cbn [ping_loop ping echo_distances].
    assert (Hping : u32 (sonar_echo w (ping_calls w)) = echo_at w0 start).
    { unfold echo_at. rewrite Hecho, Hcalls. reflexivity. }
    rewrite Hping, Hcm. fold (cm_at w0 start).
    set (w1 := delay 10 _).
    destruct (0 <? echo_at w0 start).
    + pose proof (u32_range (total + cm_at w0 start)) as Hrange.
      specialize (IH (S start) (u32 (total + cm_at w0 start)) (valid + 1) w1
                    Hrange Hecho eq_refl).
      destruct (ping_loop n (u32 (total + cm_at w0 start)) (valid + 1) w1)
        as [[total' valid'] w'].
      destruct IH as [Ht Hv];
        [subst w1; cbn [ping_calls delay]; lia|].
      cbn [app sum_of fold_right List.length].
      fold (sum_of (echo_distances (S start) n w0)).
      split; [|lia]. rewrite Ht. unfold u32.
      rewrite Zplus_mod_idemp_l. f_equal. lia.
    + specialize (IH (S start) total valid w1 Htotal Hecho eq_refl).
      destruct (ping_loop n total valid w1) as [[total' valid'] w'].
      destruct IH as [Ht Hv];
        [subst w1; cbn [ping_calls delay]; lia|].
      cbn [app]. split; assumption.
Qed.

Lemma echo_distances_bounds (lo hi : Z) (w : World) (n : nat) :
  forall start : nat,
    (forall k : nat, (start <= k < start + n)%nat ->
                     0 < echo_at w k -> lo <= cm_at w k <= hi) ->
    Forall (fun d => lo <= d <= hi) (echo_distances start n w) /\
    (List.length (echo_distances start n w) <= n)%nat.
Proof.
  induction n as [|n IH]; intros start Hcm.
  - cbn. split; [constructor|lia].
  - cbn [echo_distances].
    destruct (IH (S start)) as [Hall Hlen].
    { intros k Hk. apply Hcm. lia. }
    destruct (Z.ltb_spec 0 (echo_at w start)) as [Hpos|Hnone]; cbn [app].
    + split; [|cbn [List.length]; lia].
      constructor; [|exact Hall]. apply Hcm; [lia|exact Hpos].
    + split; [exact Hall|lia].
Qed.

Lemma sum_of_bounds (lo hi : Z) (l : list Z) :
  Forall (fun d => lo <= d <= hi) l ->
  lo * Z.of_nat (List.length l) <= sum_of l <= hi * Z.of_nat (List.length l).
Proof.
  induction 1 as [|d l Hd _ IH].
  - cbn. lia.
  - cbn [sum_of fold_right List.length]. fold (sum_of l). lia.
Qed.

(** getDistance returns a whole number of centimetres: the average,
    rounded down, of the distances of those of its five pings that had an
    echo, the pings without echo being left out of sum and count, and 0
    when no ping had an echo.  The average lies between the smallest and
    the largest of the distances. *)
Theorem getDistance_whole_centimetres (lo hi : Z) (w : World) :
  0 <= lo <= hi ->
  hi < 2 ^ 29 ->
  (forall k : nat, (k < PING_SAMPLES)%nat ->
                   0 < echo_at w k -> lo <= cm_at w k <= hi) ->
  fst (getDistance w)
  = F32.of_Z (whole_average (echo_distances 0 PING_SAMPLES w)) /\
  (echo_distances 0 PING_SAMPLES w <> [] ->
   lo <= whole_average (echo_distances 0 PING_SAMPLES w) <= hi).
Proof.
  intros Hbounds Hhi Hcm. unfold getDistance.
  pose proof (ping_loop_sum w PING_SAMPLES 0 0 0 w ltac:(lia)
                eq_refl eq_refl ltac:(lia)) as Hsum.
  destruct (echo_distances_bounds lo hi w PING_SAMPLES 0) as [Hall Hlen].
  { intros k Hk. apply Hcm. lia. }
  pose proof (sum_of_bounds lo hi _ Hall) as Hrange.
  destruct (ping_loop PING_SAMPLES 0 0 w) as [[total valid] w'].
  destruct Hsum as [-> ->]. cbn [fst]. unfold PING_SAMPLES in *.
  remember (echo_distances 0 5 w) as distances eqn:Hd. clear Hd.
  rewrite !Z.add_0_l. rewrite u32_small by nia.
  destruct distances as [|d rest].
  - split; [reflexivity|]. intros Hne. contradiction.
  - set (distances := d :: rest) in *.
    assert (Hpos : 0 < Z.of_nat (List.length distances))
      by (subst distances; cbn [List.length]; lia).
    assert (Hnz : (Z.of_nat (List.length distances) =? 0) = false)
      by (apply Z.eqb_neq; lia).
    rewrite Hnz.
    change (whole_average distances)
      with (sum_of distances / Z.of_nat (List.length distances)).
    split; [reflexivity|]. intros _. split.
    + apply Z.div_le_lower_bound; lia.
    + apply Z.div_le_upper_bound; lia.
Qed.

(** Three echoes of 17, 18 and 18 cm among five pings: the result is
    53 / 3 = 17 cm. *)
Lemma getDistance_whole_centimetres_witness :
  echo_distances 0 PING_SAMPLES patchy_sonar_world = [17; 18; 18] /\
  fst (getDistance patchy_sonar_world)
  = F32.of_Z (whole_average (echo_distances 0 PING_SAMPLES
                               patchy_sonar_world)) /\
  (echo_distances 0 PING_SAMPLES patchy_sonar_world <> [] ->
   17 <= whole_average (echo_distances 0 PING_SAMPLES patchy_sonar_world)
   <= 18).
Proof.
  split; [vm_compute; reflexivity|].
  apply (getDistance_whole_centimetres 17 18 patchy_sonar_world);
    try lia.
  intros k Hk Hecho. unfold PING_SAMPLES in Hk.
  destruct k as [|[|[|[|[|k]]]]]; try lia;
    vm_compute in Hecho; try discriminate Hecho;
    vm_compute; split; discriminate.
Defined.

(** ** main.cpp: showSetupStep *)

(** A message shown for less than LCD_TIMEOUT is held for the 3 s asked
    for: the time still owed to the display never exceeds them. *)
Lemma nonBlockingWait_recent (fuel : nat) (since : Z) (w : World) :
  (301 <= fuel)%nat ->
  0 <= clock w - since < LCD_TIMEOUT ->
  nonBlockingWait fuel LCD_TIMEOUT (u32 since) w = Some (delay 3000 w).
Proof.
  intros Hfuel Hrecent. unfold LCD_TIMEOUT in *.
  destruct (Z.eqb_spec (u32 since) 0) as [Hzero|Hnz].
  - rewrite Hzero. apply nonBlockingWait_3000. exact Hfuel.
  - unfold nonBlockingWait. unfold LCD_TIMEOUT.
    pose proof (u32_range since) as Hr.
    replace (0 <? u32 since) with true by (symmetry; apply Z.ltb_lt; lia).
    cbn [Z.ltb Z.compare andb].
    rewrite elapsed_exact by lia.
    destruct (Z.leb_spec 3000 (clock w - since)) as [Hold|Hnew]; [lia|].
    rewrite (u32_small (3000 - (clock w - since))) by lia.
    rewrite Z.max_l by lia.
    unfold millis. rewrite wait_loop_exact by lia.
    replace (clock w - clock w) with 0 by lia. reflexivity.
Qed.

Lemma setup_loop_runs
    (rounds fuel : nat) (setupName : string)
    (setupFunction : World -> option (bool * World)) (timeout : Z)
    (w w_s : World) (setupSuccess : bool) :
  (4 <= rounds)%nat ->
  (301 <= fuel)%nat ->
  setupFunction (MainCpp.setup_entry setupName w) = Some (setupSuccess, w_s) ->
  0 <= clock w_s - clock w < 2 ^ 32 ->
  exists w' : World,
    MainCpp.setup_loop rounds fuel setupName setupFunction timeout
      (u32 (clock w)) MainCpp.SETUP_START w = Some w' /\
    clock w' = clock w_s + 3005 /\
    hd_error (lcd_lines (trace w'))
    = Some (MainCpp.setup_verdict timeout (clock w_s - clock w) setupSuccess).
Proof.
  intros Hrounds Hfuel Hsetup Htime.
  destruct rounds as [|[|[|[|rounds]]]]; try lia.
  cbn [MainCpp.setup_loop MainCpp.setup_turn].
  rewrite (nonBlockingWait_recent fuel (clock w));
    [|lia|cbn; unfold LCD_TIMEOUT; lia].
  cbv beta iota. cbn [MainCpp.setup_turn].
  fold (MainCpp.setup_entry setupName w). rewrite Hsetup.
  cbv beta iota. rewrite elapsed_exact by exact Htime.
  unfold MainCpp.setup_verdict.
  destruct (timeout <? clock w_s - clock w);
    [|destruct setupSuccess];
    cbv beta iota; cbn [MainCpp.setup_turn];
    unfold LCD_TIMEOUT; rewrite nonBlockingWait_3000 by lia;
    cbv beta iota;
    eexists; (split; [reflexivity|]); split; try reflexivity;
    cbn [clock delay lcd_print emit]; lia.
Qed.

(** showSetupStep calls the setup function once, after its opening
    message, and returns with the verdict as the last line shown:
    "Setup timeout!" when the setup function answered more than [timeout]
    ms after showSetupStep was called, whether it succeeded or not; else
    "Setup completed!" or "Setup failed!" by its answer. *)
Theorem showSetupStep_verdict
    (fuel : nat) (setupName : string)
    (setupFunction : World -> option (bool * World)) (timeout : Z)
    (w w_s : World) (setupSuccess : bool) :
  (301 <= fuel)%nat ->
  setupFunction (MainCpp.setup_entry setupName w) = Some (setupSuccess, w_s) ->
  0 <= clock w_s - clock w < 2 ^ 32 ->
  exists w' : World,
    MainCpp.showSetupStep fuel setupName setupFunction timeout w = Some w' /\
    hd_error (lcd_lines (trace w'))
    = Some (MainCpp.setup_verdict timeout (clock w_s - clock w) setupSuccess).
Proof.
  intros Hfuel Hsetup Htime. unfold MainCpp.showSetupStep, millis.
  destruct (setup_loop_runs fuel fuel setupName setupFunction timeout w w_s
              setupSuccess ltac:(lia) Hfuel Hsetup Htime)
    as (w' & Hrun & _ & Hline).
  exists w'. split; [exact Hrun|exact Hline].
Qed.

(** A setup function that succeeds after 6 s, under a timeout of 5 s:
    the step is reported as timed out. *)
Lemma showSetupStep_verdict_witness :
  exists w' : World,
    MainCpp.showSetupStep 301 "Setting up GPIOs"
      (fun w => Some (true, delay 6000 w)) 5000 (quiet_world 0) = Some w' /\
    hd_error (lcd_lines (trace w')) = Some "Setup timeout!"%string.
Proof.
  destruct (showSetupStep_verdict 301 "Setting up GPIOs"
              (fun w => Some (true, delay 6000 w)) 5000 (quiet_world 0)
              (delay 6000
                 (MainCpp.setup_entry "Setting up GPIOs" (quiet_world 0)))
              true)
    as (w' & Hrun & Hline).
  - lia.
  - reflexivity.
  - cbn. lia.
  - exists w'. split; [exact Hrun|exact Hline].
Defined.

(** ** web_helpers.h: processSchedules picks the next feeding *)

Lemma collect_first_ten (schedules : list Web.Schedule) :
  forall kept : list Z,
    Z.of_nat (List.length kept) <= Web.MAX_SCHEDULES ->
    Web.collect schedules kept
    = kept
      ++ firstn (Z.to_nat (Web.MAX_SCHEDULES - Z.of_nat (List.length kept)))
           (enabled_minutes schedules).
Proof.
  unfold Web.MAX_SCHEDULES, enabled_minutes.
  induction schedules as [|s rest IH]; intros kept Hkept.
  - cbn. rewrite firstn_nil, app_nil_r. reflexivity.
  - cbn [Web.collect filter]. destruct (Web.enabled s).
    + cbn [map].
      destruct (Z.ltb_spec (Z.of_nat (List.length kept)) Web.MAX_SCHEDULES)
        as [Hroom|Hfull]; unfold Web.MAX_SCHEDULES in *.
      * rewrite IH by (rewrite length_app; cbn [List.length]; lia).
        rewrite length_app. cbn [List.length]. rewrite <- app_assoc.
        cbn [app]. f_equal.
        replace (Z.to_nat (10 - Z.of_nat (List.length kept)))
          with (S (Z.to_nat (10 - Z.of_nat (List.length kept + 1)))) by lia.
        reflexivity.
      * rewrite IH by lia.
        replace (Z.to_nat (10 - Z.of_nat (List.length kept))) with 0%nat
          by lia.
        reflexivity.
    + apply IH. exact Hkept.
Qed.

Lemma timeDiff_range (currentTimeMinutes scheduleMinutes : Z) :
  0 <= currentTimeMinutes < 24 * 60 ->
  0 <= scheduleMinutes < 24 * 60 ->
  1 <= Web.timeDiff currentTimeMinutes scheduleMinutes <= 24 * 60.
Proof.
  intros Hc Hs. unfold Web.timeDiff.
  destruct (Z.ltb_spec currentTimeMinutes scheduleMinutes); lia.
Qed.

(** The second loop returns the first schedule of the least [timeDiff]
    among those below the bound it started with. *)
Lemma find_next_least (currentTimeMinutes : Z) (times : list Z) :
  forall (i index least : Z),
    let '(index', least') :=
      Web.find_next currentTimeMinutes times i index least in
    (forall m, In m times -> least' <= Web.timeDiff currentTimeMinutes m) /\
    ((index' = index /\ least' = least) \/
     (i <= index' < i + Z.of_nat (List.length times) /\
      least' < least /\
      least'
      = Web.timeDiff currentTimeMinutes
          (nth (Z.to_nat (index' - i)) times 0))).
Proof.
  induction times as [|m times IH]; intros i index least.
  - cbn [Web.find_next]. split; [intros m []|]. left. split; reflexivity.
  - cbn [Web.find_next].
    destruct (Z.ltb_spec (Web.timeDiff currentTimeMinutes m) least)
      as [Hless|Hmore].
    + specialize (IH (i + 1) i (Web.timeDiff currentTimeMinutes m)).
      destruct (Web.find_next currentTimeMinutes times (i + 1) i
                  (Web.timeDiff currentTimeMinutes m)) as [index' least'].
      destruct IH as [Hall Hwhich]. split.
      * intros m' [<-|Hin]; [|apply Hall; exact Hin].
        destruct Hwhich as [[_ ->]|(_ & Hlt & _)]; lia.
      * right. cbn [List.length].
        destruct Hwhich as [[-> ->]|(Hidx & Hlt & Heq)].
        -- split; [lia|]. split; [exact Hless|].
           replace (Z.to_nat (i - i)) with 0%nat by lia. reflexivity.
        -- split; [lia|]. split; [lia|]. rewrite Heq.
           replace (Z.to_nat (index' - i))
             with (S (Z.to_nat (index' - (i + 1)))) by lia.
           reflexivity.
    + specialize (IH (i + 1) index least).
      destruct (Web.find_next currentTimeMinutes times (i + 1) index least)
        as [index' least'].
      destruct IH as [Hall Hwhich]. split.
      * intros m' [<-|Hin]; [|apply Hall; exact Hin].
        destruct Hwhich as [[_ ->]|(_ & Hlt & _)]; lia.
      * destruct Hwhich as [[-> ->]|(Hidx & Hlt & Heq)];
          [left; split; reflexivity|].
        right. cbn [List.length]. split; [lia|]. split; [exact Hlt|].
        rewrite Heq.
        replace (Z.to_nat (index' - i))
          with (S (Z.to_nat (index' - (i + 1)))) by lia.
        reflexivity.
Qed.

Lemma enabled_minutes_valid (schedules : list Web.Schedule) (m : Z) :
  Forall valid_time schedules ->
  In m (firstn (Z.to_nat Web.MAX_SCHEDULES) (enabled_minutes schedules)) ->
  0 <= m < 24 * 60.
Proof.
  intros Hvalid Hin.
  assert (Hin' : In m (enabled_minutes schedules)).
  { rewrite <- (firstn_skipn (Z.to_nat Web.MAX_SCHEDULES)
                  (enabled_minutes schedules)).
    apply in_or_app. left. exact Hin. }
  unfold enabled_minutes in Hin'. apply in_map_iff in Hin'.
  destruct Hin' as (s & <- & Hs). apply filter_In in Hs.
  destruct Hs as [Hs _].
  rewrite Forall_forall in Hvalid. destruct (Hvalid s Hs) as [Hh Hm]. lia.
Qed.

(** processSchedules, given the time and a list of schedules with proper
    times of day.  With no schedule enabled it records that there is none.
    Otherwise it records that there is one and hands mktime the schedule,
    among the first ten enabled, that comes next on the clock: between 1
    minute and 24 hours from now, no other of the ten being nearer.  A
    schedule set for the current minute counts as 24 hours away. *)
Theorem processSchedules_picks_the_next
    (schedules : list Web.Schedule) (currentTimeMinutes : Z)
    (globals : Web.Schedules) :
  0 <= currentTimeMinutes < 24 * 60 ->
  Forall valid_time schedules ->
  let times :=
    firstn (Z.to_nat Web.MAX_SCHEDULES) (enabled_minutes schedules) in
  let after :=
    Web.processSchedules (Some schedules) true currentTimeMinutes globals in
  match times with
  | [] => after = Web.mkSchedules Web.NoFeeding false
  | _ :: _ =>
      Web.hasActiveSchedule after = true /\
      exists m : Z,
        In m times /\
        Web.nextScheduledFeeding after
        = Web.FeedingAt (if m <=? currentTimeMinutes then 1 else 0)
            (m / 60) (m mod 60) /\
        minutes_ahead currentTimeMinutes (Web.nextScheduledFeeding after)
        = Web.timeDiff currentTimeMinutes m /\
        1 <= Web.timeDiff currentTimeMinutes m <= 24 * 60 /\
        forall m' : Z,
          In m' times ->
          Web.timeDiff currentTimeMinutes m
          <= Web.timeDiff currentTimeMinutes m'
  end.
Proof.
  intros Hnow Hvalid times after.
  assert (Hcollect : Web.collect schedules [] = times).
  { rewrite collect_first_ten by (cbn; unfold Web.MAX_SCHEDULES; lia).
    cbn [app List.length Z.of_nat]. rewrite Z.sub_0_r. reflexivity. }
  assert (Htimes : forall m, In m times -> 0 <= m < 24 * 60).
  { intros m Hm. eapply enabled_minutes_valid; eassumption. }
  subst after. unfold Web.processSchedules. cbn [negb]. rewrite Hcollect.
  clearbody times.
  destruct times as [|m0 rest]; [reflexivity|].
  replace (0 <? Z.of_nat (List.length (m0 :: rest))) with true
    by (symmetry; apply Z.ltb_lt; cbn [List.length]; lia).
  pose proof (find_next_least currentTimeMinutes (m0 :: rest) 0 (-1)
                (24 * 60 + 1)) as Hfind.
  destruct (Web.find_next currentTimeMinutes (m0 :: rest) 0 (-1)
              (24 * 60 + 1)) as [index least].
  destruct Hfind as [Hleast Hwhich].
  destruct Hwhich as [[-> ->]|(Hidx & _ & Heq)].
  { specialize (Hleast m0 (or_introl eq_refl)).
    pose proof (timeDiff_range currentTimeMinutes m0 Hnow
                  (Htimes m0 (or_introl eq_refl))). lia. }
  replace (0 <=? index) with true by (symmetry; apply Z.leb_le; lia).
  rewrite Z.sub_0_r in Heq.
  set (m := nth (Z.to_nat index) (m0 :: rest) 0) in *.
  assert (Hin : In m (m0 :: rest)) by (apply nth_In; lia).
  pose proof (Htimes m Hin) as Hm.
  cbn [Web.hasActiveSchedule Web.nextScheduledFeeding].
  split; [reflexivity|]. exists m. split; [exact Hin|].
  rewrite Z.quot_div_nonneg, Z.rem_mod_nonneg by lia.
  split; [reflexivity|]. split; [|split].
  - unfold minutes_ahead, Web.timeDiff.
    pose proof (Z.div_mod m 60 ltac:(lia)) as Hdm.
    destruct (Z.leb_spec m currentTimeMinutes);
      destruct (Z.ltb_spec currentTimeMinutes m); lia.
  - apply timeDiff_range; assumption.
  - intros m' Hm'. rewrite <- Heq. apply Hleast. exact Hm'.
Qed.

(** At 12:00 with schedules for 08:00, 12:00 and 16:00 (the last one
    disabled): the next feeding is 08:00 tomorrow, 20 hours away; the one
    set for 12:00 is a full day away. *)
Lemma processSchedules_picks_the_next_witness :
  Web.processSchedules
    (Some [Web.mkSchedule true 8 0; Web.mkSchedule true 12 0;
           Web.mkSchedule false 16 0])
    true (12 * 60) (Web.mkSchedules Web.NoFeeding false)
  = Web.mkSchedules (Web.FeedingAt 1 8 0) true /\
  exists m : Z,
    Web.nextScheduledFeeding
      (Web.processSchedules
         (Some [Web.mkSchedule true 8 0; Web.mkSchedule true 12 0;
                Web.mkSchedule false 16 0])
         true (12 * 60) (Web.mkSchedules Web.NoFeeding false))
    = Web.FeedingAt (if m <=? 12 * 60 then 1 else 0) (m / 60) (m mod 60) /\
    1 <= Web.timeDiff (12 * 60) m <= 24 * 60.
Proof.
  split; [reflexivity|].
  pose proof (processSchedules_picks_the_next
                [Web.mkSchedule true 8 0; Web.mkSchedule true 12 0;
                 Web.mkSchedule false 16 0]
                (12 * 60) (Web.mkSchedules Web.NoFeeding false)
                ltac:(lia)) as H.
  cbv zeta in H. cbn [enabled_minutes filter map Web.enabled firstn] in H.
  change (Z.to_nat Web.MAX_SCHEDULES) with 10%nat in H.
  cbn [firstn] in H.
  destruct H as (_ & m & _ & Hnext & _ & Hrange & _).
  - repeat constructor; cbn; lia.
  - exists m. split; [exact Hnext|exact Hrange].
Defined.

(** ** nonBlockingMedianPing: the sort and the median *)

Lemma array_set_middle {A : Type} (pre : list A) (y x : A) (rest : list A) :
  array_set (pre ++ y :: rest) (List.length pre) x = pre ++ x :: rest.
Proof.
  induction pre as [|p pre IH]; cbn [app List.length array_set].
  - reflexivity.
  - rewrite IH. reflexivity.
Qed.













(** ** calculateFilteredWeight: the insertion sort and the median *)

Lemma SFltb_leb (a b : spec_float) : SFltb a b = true -> SFleb a b = true.
Proof.
  unfold SFltb, SFleb. destruct (SFcompare a b) as [[| |]|];
    try discriminate; reflexivity.
Qed.

Lemma SFcompare_antisym (a b : spec_float) :
  a <> S754_nan -> b <> S754_nan ->
  SFcompare b a = option_map CompOpp (SFcompare a b).
Proof.
  unfold SFcompare.
  destruct a as [sa|sa| |sa ma ea], b as [sb|sb| |sb mb eb];
    try destruct sa; try destruct sb;
    try reflexivity; try contradiction;
    intros _ _; change (Pos.compare_cont Eq) with Pos.compare in *;
    cbn [CompOpp option_map];
    try rewrite (Z.compare_antisym ea eb);
    destruct (ea ?= eb); cbn [CompOpp option_map]; try reflexivity;
    rewrite (Pos.compare_antisym ma mb);
    destruct (ma ?= mb)%positive; reflexivity.
Qed.

(** Between numbers, [not (a < b)] is [b <= a]. *)
Lemma SFltb_false_leb (a b : spec_float) :
  a <> S754_nan -> b <> S754_nan ->
  SFltb a b = false -> SFleb b a = true.
Proof.
  intros Ha Hb. unfold SFltb, SFleb.
  rewrite (SFcompare_antisym a b Ha Hb).
  assert (Hsome : SFcompare a b <> None).
  { unfold SFcompare.
    destruct a as [sa|sa| |sa ma ea], b as [sb|sb| |sb mb eb];
      try contradiction; try discriminate;
      try destruct sa; try destruct sb; try discriminate;
      destruct (ea ?= eb); discriminate. }
  destruct (SFcompare a b) as [[| |]|]; cbn; try discriminate;
    try reflexivity; contradiction.
Qed.

Lemma StronglySorted_app_iff {A : Type} (R : A -> A -> Prop) (l1 l2 : list A) :
  StronglySorted R (l1 ++ l2) <->
  StronglySorted R l1 /\ StronglySorted R l2 /\
  Forall (fun x => Forall (R x) l2) l1.
Proof.
  induction l1 as [|a l1 IH]; cbn [app].
  - split.
    + intros H. repeat split; [constructor|exact H|constructor].
    + intros (_ & H & _). exact H.
  - split.
    + intros H. inversion H as [|? ? Hs Ha]; subst.
      apply IH in Hs. destruct Hs as (H1 & H2 & H12).
      apply Forall_app in Ha. destruct Ha as [Ha1 Ha2].
      repeat split; try assumption; constructor; assumption.
    + intros (H1 & H2 & H12).
      inversion H1 as [|? ? Hs Ha]; subst.
      inversion H12 as [|? ? Ha2 H12']; subst.
      constructor.
      * apply IH. repeat split; assumption.
      * apply Forall_app. split; assumption.
Qed.

(** The shifting loop opens a gap in the sorted front, just behind the
    last element that is not above the key. *)
Lemma shift_loop_gap (key : F32.t) (k : nat) :
  forall (front : list F32.t) (gap : F32.t) (tail : list F32.t),
    List.length front = k ->
    exists (low high : list F32.t) (gap' : F32.t),
      front = low ++ high /\
      FilteredWeight.shift_loop k (front ++ gap :: tail) key
      = (low ++ gap' :: high ++ tail, List.length low) /\
      Forall (fun x => F32.gtb x key = true) high /\
      (low = [] \/
       exists (low' : list F32.t) (y : F32.t),
         low = low' ++ [y] /\ F32.gtb y key = false).
Proof.
  induction k as [|j IH]; intros front gap tail Hlen.
  - destruct front; [|discriminate Hlen].
    exists [], [], gap. repeat split; [constructor|left; reflexivity].
  - destruct (exists_last (l := front)) as (front' & x & ->).
    { intros ->. discriminate Hlen. }
    rewrite length_app in Hlen. cbn [List.length] in Hlen.
    assert (Hj : List.length front' = j) by lia.
    subst j. clear Hlen.
    cbn [FilteredWeight.shift_loop].
    rewrite <- app_assoc. cbn [app]. rewrite nth_middle.
    destruct (F32.gtb x key) eqn:Habove.
    + replace (array_set (front' ++ x :: gap :: tail)
                 (S (List.length front')) x)
        with (front' ++ x :: x :: tail).
      2:{ change (front' ++ x :: gap :: tail)
            with (front' ++ [x] ++ gap :: tail).
          rewrite app_assoc.
          replace (S (List.length front'))
            with (List.length (front' ++ [x]))
            by (rewrite length_app; cbn; lia).
          rewrite array_set_middle, <- app_assoc. reflexivity. }
      destruct (IH front' x (x :: tail) eq_refl)
        as (low & high & gap' & -> & Hrun & Hhigh & Hlow).
      exists low, (high ++ [x]), gap'. rewrite Hrun.
      split; [rewrite app_assoc; reflexivity|].
      split; [rewrite <- !app_assoc; reflexivity|].
      split; [|exact Hlow].
      apply Forall_app. split; [exact Hhigh|]. constructor; [exact Habove|].
      constructor.
    + exists (front' ++ [x]), [], gap.
      split; [rewrite app_nil_r; reflexivity|].
      split; [rewrite length_app; cbn [List.length app];
              rewrite <- app_assoc; f_equal; lia|].
      split; [constructor|]. right. exists front', x. split; [reflexivity|].
      exact Habove.
Qed.

(** The outer loop keeps the front sorted and the whole a rearrangement. *)
Lemma insert_loop_sorts (count : nat) :
  forall (i : nat) (front rest : list F32.t),
    List.length front = i ->
    List.length rest = count ->
    Forall is_number (front ++ rest) ->
    StronglySorted float_le front ->
    StronglySorted float_le
      (FilteredWeight.insert_loop count i (front ++ rest)) /\
    Permutation (FilteredWeight.insert_loop count i (front ++ rest))
      (front ++ rest).
Proof.
  induction count as [|count IH]; intros i front rest Hi Hcount Hnum Hsorted.
  - destruct rest; [|discriminate Hcount].
    rewrite app_nil_r. cbn. split; [exact Hsorted|apply Permutation_refl].
  - destruct rest as [|key rest]; [discriminate Hcount|].
    cbn [List.length] in Hcount. injection Hcount as Hcount.
    cbn [FilteredWeight.insert_loop]. rewrite <- Hi, nth_middle.
    destruct (shift_loop_gap key (List.length front) front key rest eq_refl)
      as (low & high & gap' & Hsplit & Hrun & Hhigh & Hlow).
    rewrite Hrun, array_set_middle. subst front.
    apply Forall_app in Hnum. destruct Hnum as [Hfront Hrest].
    inversion Hrest as [|? ? Hkey Hrest']; subst.
    apply Forall_app in Hfront. destruct Hfront as [Hnlow Hnhigh].
    apply StronglySorted_app_iff in Hsorted.
    destruct Hsorted as (Hslow & Hshigh & Hcross).
    assert (Hbelow : Forall (fun x => float_le x key) low).
    { destruct Hlow as [->|(low' & y & -> & Hy)]; [constructor|].
      assert (Hyk : float_le y key).
      { apply Forall_app in Hnlow. destruct Hnlow as [_ Hny].
        inversion Hny; subst.
        apply SFltb_false_leb; assumption. }
      apply StronglySorted_app_iff in Hslow.
      destruct Hslow as (_ & _ & Hly).
      apply Forall_app. split; [|constructor; [exact Hyk|constructor]].
      rewrite Forall_forall in *. intros p Hp.
      specialize (Hly p Hp). inversion Hly; subst.
      eapply SFleb_trans; eassumption. }
    assert (Habove : Forall (float_le key) high).
    { rewrite Forall_forall in *. intros x Hx.
      apply SFltb_leb. apply Hhigh. exact Hx. }
    destruct (IH (S (List.length (low ++ high))) (low ++ key :: high) rest)
      as [Hs Hp].
    + rewrite !length_app. cbn [List.length]. lia.
    + reflexivity.
    + rewrite <- app_assoc. cbn [app].
      apply Forall_app. split; [exact Hnlow|].
      constructor; [exact Hkey|]. apply Forall_app. split; assumption.
    + apply StronglySorted_app_iff. split; [exact Hslow|]. split.
      * constructor; assumption.
      * rewrite Forall_forall in *. intros p Hp. constructor.
        -- apply Hbelow. exact Hp.
        -- apply Hcross. exact Hp.
    + rewrite <- app_assoc in Hs, Hp. cbn [app] in Hs, Hp.
      split; [exact Hs|].
      eapply Permutation_trans; [exact Hp|].
      rewrite <- !app_assoc. apply Permutation_app_head.
      cbn [app]. apply Permutation_middle.
Qed.

Lemma insertion_sort_sorts (size : nat) (buffer : list F32.t) :
  (1 <= size <= List.length buffer)%nat ->
  Forall is_number (firstn size buffer) ->
  StronglySorted float_le (FilteredWeight.insertion_sort size buffer) /\
  Permutation (FilteredWeight.insertion_sort size buffer)
    (firstn size buffer).
Proof.
  intros Hsize Hnum. unfold FilteredWeight.insertion_sort.
  assert (Hlen : List.length (firstn size buffer) = size)
    by (rewrite length_firstn; lia).
  destruct (firstn size buffer) as [|x rest] eqn:Hfirst.
  - cbn in Hlen. lia.
  - cbn [List.length] in Hlen.
    replace (size - 1)%nat with (List.length rest) by lia.
    apply (insert_loop_sorts (List.length rest) 1 [x] rest);
      try reflexivity; try exact Hnum.
    repeat constructor.
Qed.

(** calculateFilteredWeight on 2 to 10 readings, none of them NaN: the
    result is read off the readings put in ascending order, the middle one
    for an odd size, and half the sum of the two middle ones for an even
    size. *)
Theorem calculateFilteredWeight_median (buffer : list F32.t) (size : Z) :
  2 <= size <= 10 ->
  size <= Z.of_nat (List.length buffer) ->
  Forall is_number (firstn (Z.to_nat size) buffer) ->
  exists sorted : list F32.t,
    Permutation sorted (firstn (Z.to_nat size) buffer) /\
    StronglySorted float_le sorted /\
    FilteredWeight.calculateFilteredWeight buffer size
    = Some (if size mod 2 =? 1
            then nth (Z.to_nat (size / 2)) sorted F32.zero
            else F32.div
                   (F32.add (nth (Z.to_nat (size / 2 - 1)) sorted F32.zero)
                            (nth (Z.to_nat (size / 2)) sorted F32.zero))
                   (F32.of_Z 2)).
Proof.
  intros Hsize Hlen Hnum.
  destruct (insertion_sort_sorts (Z.to_nat size) buffer) as [Hsorted Hperm];
    [lia|exact Hnum|].
  exists (FilteredWeight.insertion_sort (Z.to_nat size) buffer).
  split; [exact Hperm|]. split; [exact Hsorted|].
  unfold FilteredWeight.calculateFilteredWeight.
  destruct (Z.leb_spec size 1) as [Hsmall|_]; [lia|].
  destruct (Z.ltb_spec 10 size) as [Hbig|_]; [lia|].
  destruct (Z.ltb_spec (Z.of_nat (List.length buffer)) size) as [Hshort|_];
    [lia|].
  cbn [orb]. destruct (size mod 2 =? 1); reflexivity.
Qed.

Lemma calculateFilteredWeight_median_witness :
  exists sorted : list F32.t,
    Permutation sorted
      (firstn (Z.to_nat 3) [F32.of_Z 3; F32.of_Z 1; F32.of_Z 2; F32.of_Z 9]) /\
    StronglySorted float_le sorted /\
    FilteredWeight.calculateFilteredWeight
      [F32.of_Z 3; F32.of_Z 1; F32.of_Z 2; F32.of_Z 9] 3
    = Some (if 3 mod 2 =? 1
            then nth (Z.to_nat (3 / 2)) sorted F32.zero
            else F32.div
                   (F32.add (nth (Z.to_nat (3 / 2 - 1)) sorted F32.zero)
                            (nth (Z.to_nat (3 / 2)) sorted F32.zero))
                   (F32.of_Z 2)).
Proof.
  apply (calculateFilteredWeight_median
           [F32.of_Z 3; F32.of_Z 1; F32.of_Z 2; F32.of_Z 9] 3).
  - lia.
  - cbn. lia.
  - vm_compute. repeat constructor; discriminate.
Defined.

(** ** waitForButtonWithTimeout *)

Lemma release_loop_released (fuel : nat) :
  forall (w w' : World),
    Feeding.release_loop fuel w = Some w' ->
    button_low w' = button_low w /\
    (button_calls w < button_calls w')%nat /\
    (forall j : nat,
        (button_calls w <= j < button_calls w' - 1)%nat ->
        button_low w j = true) /\
    button_low w (button_calls w' - 1) = false.
Proof.
  induction fuel as [|fuel IH]; intros w w' H.
  - discriminate H.
  - cbn [Feeding.release_loop button_is_low] in H.
    destruct (button_low w (button_calls w)) eqn:Hlow.
    + apply IH in H. cbn [button_low button_calls delay] in H.
      destruct H as (Hsame & Hcalls & Hheld & Hlast).
      split; [exact Hsame|]. split; [lia|]. split; [|exact Hlast].
      intros j Hj.
      destruct (Nat.eq_dec j (button_calls w)) as [->|Hne];
        [exact Hlow|apply Hheld; lia].
    + injection H as <-. cbn [button_low button_calls].
      split; [reflexivity|]. split; [lia|].
      replace (S (button_calls w) - 1)%nat with (button_calls w) by lia.
      split; [intros j Hj; lia|exact Hlow].
Qed.

Lemma show_seconds_frame (startTime timeout lastSecond : Z) (w : World) :
  clock (snd (ButtonWait.show_seconds startTime timeout lastSecond w))
  = clock w /\
  button_low (snd (ButtonWait.show_seconds startTime timeout lastSecond w))
  = button_low w /\
  button_calls (snd (ButtonWait.show_seconds startTime timeout lastSecond w))
  = button_calls w.
Proof.
  unfold ButtonWait.show_seconds. destruct (negb _); repeat split.
Qed.

Lemma wait_rounds_pressed (fuel rounds : nat) :
  forall (startTime timeout lastSecond : Z) (w w' : World),
    ButtonWait.wait_rounds rounds fuel startTime timeout lastSecond w
    = Some (true, w') ->
    button_low w' = button_low w /\
    exists k : nat,
      (button_calls w <= k)%nat /\
      (k + 2 < button_calls w')%nat /\
      (forall j : nat,
          (k <= j < button_calls w' - 1)%nat -> button_low w j = true) /\
      button_low w (button_calls w' - 1) = false.
Proof.
  induction rounds as [|rounds IH];
    intros startTime timeout lastSecond w w' H.
  - discriminate H.
  - cbn [ButtonWait.wait_rounds] in H.
    destruct (_ <? timeout); [|discriminate H].
    pose proof (show_seconds_frame startTime timeout lastSecond w)
      as (_ & Hlow0 & Hcalls0).
    destruct (ButtonWait.show_seconds startTime timeout lastSecond w)
      as [lastSecond' w0].
    cbn [snd] in Hlow0, Hcalls0.
    cbn [button_is_low button_low button_calls delay] in H.
    rewrite Hlow0, Hcalls0 in H.
    destruct (button_low w (button_calls w)) eqn:Hfirst.
    + destruct (button_low w (S (button_calls w))) eqn:Hsecond.
      * destruct (Feeding.release_loop fuel _) as [w3|] eqn:Hrel;
          [|discriminate H].
        injection H as <-. apply release_loop_released in Hrel.
        cbn [button_low button_calls delay] in Hrel.
        destruct Hrel as (Hsame & Hcalls & Hheld & Hlast).
        split; [exact Hsame|]. exists (button_calls w).
        split; [lia|]. split; [lia|]. split; [|exact Hlast].
        intros j Hj.
        destruct (Nat.eq_dec j (button_calls w)) as [->|Hne1];
          [exact Hfirst|].
        destruct (Nat.eq_dec j (S (button_calls w))) as [->|Hne2];
          [exact Hsecond|].
        apply Hheld. lia.
      * apply IH in H. cbn [button_low button_calls delay] in H.
        destruct H as (Hsame & k & Hk & Hrest).
        split; [exact Hsame|]. exists k. split; [lia|exact Hrest].
    + apply IH in H. cbn [button_low button_calls delay] in H.
      destruct H as (Hsame & k & Hk & Hrest).
      split; [exact Hsame|]. exists k. split; [lia|exact Hrest].
Qed.

(** waitForButtonWithTimeout answers true only for a press that outlasts
    the debounce: the button was read down at two reads in a row, stayed
    down at every read after them but the last, and the last read before
    the return found it released. *)
Theorem waitForButtonWithTimeout_debounces
    (rounds fuel : nat) (timeout : Z) (w w' : World) :
  ButtonWait.waitForButtonWithTimeout rounds fuel timeout w
  = Some (true, w') ->
  exists k : nat,
    (button_calls w <= k)%nat /\
    (k + 2 < button_calls w')%nat /\
    (forall j : nat,
        (k <= j < button_calls w' - 1)%nat -> button_low w j = true) /\
    button_low w (button_calls w' - 1) = false.
Proof.
  intros Hrun. unfold ButtonWait.waitForButtonWithTimeout in Hrun.
  apply wait_rounds_pressed in Hrun. destruct Hrun as [_ Hpress].
  exact Hpress.
Qed.

Lemma waitForButtonWithTimeout_debounces_witness :
  exists k : nat,
    (button_calls pressed_world <= k)%nat /\
    (k + 2 < 4)%nat /\
    (forall j : nat,
        (k <= j < 4 - 1)%nat -> button_low pressed_world j = true) /\
    button_low pressed_world (4 - 1) = false.
Proof.
  apply (waitForButtonWithTimeout_debounces 10 10 5000 pressed_world
           (mkWorld 60 (fun _ => false) 0 (fun _ => F32.zero) 0
              (fun _ => 0) 0 (fun uS => uS / 57) (fun k => Nat.ltb k 3) 4
              (fun _ => false) 0 false false
              [LcdPrint (Fmt "%d" [ArgInt 5]); LcdPrint (Lit "  ")])).
  reflexivity.
Defined.

Lemma to_int_small (x : Z) : 0 <= x < 2 ^ 31 -> to_int x = x.
Proof.
  intros H. unfold to_int. rewrite u32_small by lia.
  destruct (Z.ltb_spec x (2 ^ 31)); [reflexivity|lia].
Qed.

Lemma wait_rounds_untouched (fuel : nat) (since timeout : Z) :
  0 <= timeout <= 2 ^ 32 - 10 ->
  forall (rounds : nat) (i lastSecond : Z) (w : World),
    0 <= i ->
    10 * i < timeout + 10 ->
    clock w = since + 10 * i ->
    button_untouched w ->
    timeout - 10 * i + 10 <= 10 * Z.of_nat rounds ->
    (i = 0 /\ lastSecond = -1 \/
     0 < i /\ shows_number lastSecond w /\
     lastSecond = (timeout - 10 * (i - 1)) / 1000) ->
    exists w' : World,
      ButtonWait.wait_rounds rounds fuel (u32 since) timeout lastSecond w
      = Some (false, w') /\
      timeout <= clock w' - since < timeout + 10 /\
      button_calls w' = (button_calls w + Z.to_nat ((timeout + 9) / 10 - i))%nat /\
      (0 < timeout -> shows_number 0 w').
Proof.
  intros Htimeout.
  induction rounds as [|rounds IH];
    intros i lastSecond w Hi Hnear Hclock Hbutton Hrounds Hshown.
  - lia.
  - cbn [ButtonWait.wait_rounds]. rewrite elapsed_exact by lia.
    replace (clock w - since) with (10 * i) by lia.
    destruct (Z.ltb_spec (10 * i) timeout) as [Hlt|Hge].
    + unfold ButtonWait.show_seconds. rewrite elapsed_exact by lia.
      replace (clock w - since) with (10 * i) by lia.
      rewrite (u32_small (timeout - 10 * i)) by lia.
      assert (Hsec : 0 <= (timeout - 10 * i) / 1000 < 2 ^ 31).
      { split; [apply Z.div_pos; lia|].
        apply Z.div_lt_upper_bound; lia. }
      rewrite to_int_small by exact Hsec.
      set (secondsLeft := (timeout - 10 * i) / 1000) in *.
      assert (Hcount : Z.to_nat ((timeout + 9) / 10 - i)
                       = S (Z.to_nat ((timeout + 9) / 10 - (i + 1)))).
      { assert (i + 1 <= (timeout + 9) / 10)
          by (apply Z.div_le_lower_bound; lia).
        lia. }
      destruct (Z.eqb_spec secondsLeft lastSecond) as [Hsame|Hnew];
        cbn [negb button_is_low button_low button_calls lcd_print emit];
        rewrite Hbutton.
      * destruct Hshown as [[_ Hfirst]|(Hpos & Hshow & _)]; [lia|].
        destruct (IH (i + 1) lastSecond
                    (delay 10
                       (mkWorld (clock w) (scale_ready w) (ready_calls w)
                          (scale_units w) (units_calls w) (sonar_echo w)
                          (ping_calls w) (sonar_cm w) (button_low w)
                          (S (button_calls w)) (wifi_up w) (wifi_calls w)
                          (webConnected w) (relay w) (trace w))))
          as (w' & Hrun & Hend & Hcalls & Hzero);
          try (cbn [clock delay]; lia).
        -- intros k. cbn [button_low delay]. apply Hbutton.
        -- right. split; [lia|]. split; [exact Hshow|].
           subst secondsLeft. rewrite <- Hsame. f_equal. lia.
        -- exists w'. split; [exact Hrun|].
           split; [exact Hend|]. split; [|exact Hzero].
           rewrite Hcalls, Hcount. cbn [button_calls delay]. lia.
      * destruct (IH (i + 1) secondsLeft
                    (delay 10
                       (mkWorld (clock w) (scale_ready w) (ready_calls w)
                          (scale_units w) (units_calls w) (sonar_echo w)
                          (ping_calls w) (sonar_cm w) (button_low w)
                          (S (button_calls w)) (wifi_up w) (wifi_calls w)
                          (webConnected w) (relay w)
                          (LcdPrint (Fmt "%d" [ArgInt secondsLeft])
                           :: LcdPrint (Lit "  ") :: trace w))))
          as (w' & Hrun & Hend & Hcalls & Hzero);
          try (cbn [clock delay]; lia).
        -- intros k. cbn [button_low delay]. apply Hbutton.
        -- right. split; [lia|]. split; [reflexivity|].
           subst secondsLeft. f_equal. lia.
        -- exists w'. split; [exact Hrun|].
           split; [exact Hend|]. split; [|exact Hzero].
           rewrite Hcalls, Hcount. cbn [button_calls delay]. lia.
    + exists w. split; [reflexivity|]. split; [lia|]. split.
      * assert (Hdone : (timeout + 9) / 10 - i <= 0).
        { assert ((timeout + 9) / 10 < i + 1)
            by (apply Z.div_lt_upper_bound; lia).
          lia. }
        destruct ((timeout + 9) / 10 - i); cbn; lia.
      * intros Hpos.
        destruct Hshown as [[Hfirst _]|(_ & Hshow & Hlast)]; [lia|].
        rewrite Z.div_small in Hlast by lia. subst lastSecond. exact Hshow.
Qed.

(** waitForButtonWithTimeout with nobody at the button, for a timeout of
    at most 2^32 - 10 ms: the answer is false, given not before the
    timeout has passed, after at least one read of the button, and the
    countdown on the display stands at 0. *)
Theorem waitForButtonWithTimeout_times_out
    (rounds fuel : nat) (timeout : Z) (w : World) :
  button_untouched w ->
  0 < timeout <= 2 ^ 32 - 10 ->
  timeout + 10 <= 10 * Z.of_nat rounds ->
  exists w' : World,
    ButtonWait.waitForButtonWithTimeout rounds fuel timeout w
    = Some (false, w') /\
    timeout <= clock w' - clock w /\
    (button_calls w < button_calls w')%nat /\
    shows_number 0 w'.
Proof.
  intros Hbutton Htimeout Hrounds.
  unfold ButtonWait.waitForButtonWithTimeout, millis.
  destruct (wait_rounds_untouched fuel (clock w) timeout ltac:(lia)
              rounds 0 (-1) w)
    as (w' & Hrun & Hend & Hcalls & Hzero); try lia.
  - exact Hbutton.
  - exists w'. split; [exact Hrun|]. split; [lia|].
    split; [|apply Hzero; lia].
    rewrite Hcalls, Z.sub_0_r.
    assert (1 <= (timeout + 9) / 10) by (apply Z.div_le_lower_bound; lia).
    lia.
Qed.

Lemma waitForButtonWithTimeout_times_out_witness :
  exists w' : World,
    ButtonWait.waitForButtonWithTimeout 502 0 5000 (quiet_world 0)
    = Some (false, w') /\
    5000 <= clock w' - clock (quiet_world 0) /\
    (button_calls (quiet_world 0) < button_calls w')%nat /\
    shows_number 0 w'.
Proof.
  apply (waitForButtonWithTimeout_times_out 502 0 5000 (quiet_world 0)).
  - intros k. reflexivity.
  - lia.
  - lia.
Defined.
